(** * github-trends: the page generator of [generate.py]

    A shallow embedding of the site-assembly logic of [generate.py]:
    number formatting, slugs, language statistics, the four page builders,
    the sitemap builder and the driver [main].

    Conventions of the embedding.
    - A Python [str] is a Rocq [string]; a character is a code point below
      256, and [str.lower] is modelled exactly on that range.
    - A Python [int] is a [Z].  [int / int] is the correctly rounded binary64
      quotient, taken from the IEEE 754 specification [SpecFloat].
    - A record (a [dict] decoded from JSON) is a Rocq record whose fields are
      options: [None] is an absent key (or, for [language] and
      [description], a JSON null).
    - [d[k]] on an absent key raises [KeyError]; the builders live in an
      error monad, and [main] in a state-and-error monad whose state is the
      sequence of files written so far.
    - Markup and styling are left out: a page is the structured value of the
      data its template binds, in the order the template binds it. *)

From Stdlib Require Import ZArith List Bool Ascii String Lia.
From Stdlib Require Import Sorted Permutation.
From Stdlib Require Import DecimalString.
From Stdlib Require Import SpecFloat.
Import ListNotations.

Local Open Scope string_scope.
Local Open Scope Z_scope.

(** ** Characters and strings *)

Module Str.

Definition code (c : ascii) : N := N_of_ascii c.

(** [[a-z0-9]], the complement of the class in [re.sub(r'[^a-z0-9]+', ...)]. *)
Definition is_alnum (c : ascii) : bool :=
  ((97 <=? code c) && (code c <=? 122) || (48 <=? code c) && (code c <=? 57))%N.

Definition hyphen : ascii := "-"%char.

(** [str.lower] on one code point below 256: A-Z and the Latin-1 capitals
    U+00C0..U+00DE (the multiplication sign U+00D7 apart) move up by 32. *)
Definition lower_char (c : ascii) : ascii :=
  let n := code c in
  if ((65 <=? n) && (n <=? 90)
      || (192 <=? n) && (n <=? 222) && negb (n =? 215))%N
  then ascii_of_N (n + 32) else c.

Fixpoint lower (s : string) : string :=
  match s with
  | EmptyString => EmptyString
  | String c s' => String (lower_char c) (lower s')
  end.

(** [re.sub(r'[^a-z0-9]+', '-', s)]: every maximal run of characters outside
    [[a-z0-9]] becomes one hyphen.  [in_run] tells that the run the scan is
    in has already been replaced. *)
Fixpoint sub_runs (in_run : bool) (s : string) : string :=
  match s with
  | EmptyString => EmptyString
  | String c s' =>
      if is_alnum c then String c (sub_runs false s')
      else if in_run then sub_runs true s'
      else String hyphen (sub_runs true s')
  end.

Definition re_sub_non_alnum (s : string) : string := sub_runs false s.

(** [s.lstrip('-')] and [s.rstrip('-')]; [strip] does both. *)
Fixpoint lstrip (s : string) : string :=
  match s with
  | EmptyString => EmptyString
  | String c s' => if Ascii.eqb c hyphen then lstrip s' else s
  end.

Fixpoint rstrip (s : string) : string :=
  match s with
  | EmptyString => EmptyString
  | String c s' =>
      match rstrip s' with
      | EmptyString => if Ascii.eqb c hyphen then EmptyString else String c EmptyString
      | t => String c t
      end
  end.

Definition strip (s : string) : string := rstrip (lstrip s).

(** [str(n)] for an [int]. *)
Definition str_of_Z (n : Z) : string := NilZero.string_of_int (Z.to_int n).

End Str.

(** [slugify(text)]:
    [re.sub(r'[^a-z0-9]+', '-', text.lower()).strip('-')]. *)
Definition slugify (text : string) : string :=
  Str.strip (Str.re_sub_non_alnum (Str.lower text)).

(** ** Exceptions *)

Inductive exn : Type :=
| KeyError (key : string)
| ZeroDivisionError
| OverflowError.

Inductive result (A : Type) : Type :=
| Ok (a : A)
| Raise (e : exn).

Arguments Ok {A} a.
Arguments Raise {A} e.

Module Res.

Definition bind {A B : Type} (m : result A) (k : A -> result B) : result B :=
  match m with
  | Ok a => k a
  | Raise e => Raise e
  end.

(** [[f(x) for x in l]] with a body that may raise: left to right, stopping
    at the first exception. *)
Fixpoint mapM {A B : Type} (f : A -> result B) (l : list A) : result (list B) :=
  match l with
  | [] => Ok []
  | x :: l' =>
      bind (f x) (fun y => bind (mapM f l') (fun ys => Ok (y :: ys)))
  end.

(** [[x for x in l if p(x)]] with a condition that may raise. *)
Fixpoint filterM {A : Type} (p : A -> result bool) (l : list A) : result (list A) :=
  match l with
  | [] => Ok []
  | x :: l' =>
      bind (p x) (fun b =>
      bind (filterM p l') (fun xs => Ok (if b then x :: xs else xs)))
  end.

(** [d[key]]. *)
Definition getitem {A : Type} (key : string) (v : option A) : result A :=
  match v with
  | Some a => Ok a
  | None => Raise (KeyError key)
  end.

End Res.

Declare Scope res_scope.
Delimit Scope res_scope with res.
Notation "x <- m ;; k" := (Res.bind m (fun x => k))
  (at level 61, m at next level, right associativity) : res_scope.

(** ** Floats: [int / int] and the [.1f] format *)

Module Float.

Definition prec : Z := 53.
Definition emax : Z := 1024.

(** [a / b] on ints: the binary64 number nearest to the exact quotient, ties
    to even; [ZeroDivisionError] for [b == 0] and [OverflowError] when the
    quotient is beyond the binary64 range. *)
Definition int_true_divide (a b : Z) : result spec_float :=
  if b =? 0 then Raise ZeroDivisionError
  else if a =? 0 then Ok (S754_zero (b <? 0))
  else
    let '(mz, ez, lz) := SFdiv_core_binary prec emax (Z.abs a) 0 (Z.abs b) 0 in
    match binary_round_aux prec emax (xorb (a <? 0) (b <? 0)) mz ez lz with
    | S754_infinity _ => Raise OverflowError
    | x => Ok x
    end.

(** The number of tenths nearest to [m * 2^e], ties to even: the digits of
    a correctly rounded [.1f] conversion. *)
Definition tenths (m : positive) (e : Z) : Z :=
  match e with
  | Zneg p =>
      let d := 2 ^ Zpos p in
      let n := 10 * Zpos m in
      let q := n / d in
      match 2 * (n mod d) ?= d with
      | Lt => q
      | Gt => q + 1
      | Eq => if Z.even q then q else q + 1
      end
  | _ => 10 * Zpos m * 2 ^ e
  end.

(** [t] tenths in decimal: the integer part, a point, one digit. *)
Definition fixed_1 (t : Z) : string :=
  Str.str_of_Z (t / 10) ++ "." ++ Str.str_of_Z (t mod 10).

(** [f"{x:.1f}"]. *)
Definition format_1f (x : spec_float) : string :=
  match x with
  | S754_zero s => if s then "-0.0" else "0.0"
  | S754_infinity s => if s then "-inf" else "inf"
  | S754_nan => "nan"
  | S754_finite s m e => (if s then "-" else "") ++ fixed_1 (tenths m e)
  end.

End Float.

Local Open Scope res_scope.

(** ** Language colours *)

(** [d.get(k, default)] on a dict of strings. *)
Fixpoint dict_get (d : list (string * string)) (k default : string) : string :=
  match d with
  | [] => default
  | (k', v) :: d' => if String.eqb k' k then v else dict_get d' k default
  end.

(** The table [colors] of [get_language_color]. *)
Definition colors : list (string * string) :=
  [ ("Python", "#3572A5"); ("JavaScript", "#f1e05a"); ("TypeScript", "#2b7489");
    ("Go", "#00ADD8"); ("Rust", "#dea584"); ("Java", "#b07219");
    ("C++", "#f34b7d"); ("C", "#555555"); ("Ruby", "#701516");
    ("PHP", "#4F5D95"); ("Swift", "#ffac45"); ("Kotlin", "#A97BFF");
    ("C#", "#178600"); ("Vue", "#41b883"); ("Dart", "#00B4AB");
    ("Elixir", "#6e4a7e"); ("Clojure", "#db5855"); ("Zig", "#ec915c");
    ("Haskell", "#5e5086") ].

(** [get_language_color(language)]. *)
Definition get_language_color (language : string) : string :=
  dict_get colors language "#8b949e".

(** [format_number(num)]. *)
Definition format_number (num : Z) : result string :=
  if num >=? 1000000 then
    x <- Float.int_true_divide num 1000000 ;;
    Ok (Float.format_1f x ++ "m")
  else if num >=? 1000 then
    x <- Float.int_true_divide num 1000 ;;
    Ok (Float.format_1f x ++ "k")
  else Ok (Str.str_of_Z num).

(** ** Records *)

Module Repo.

(** [repo["owner"]]. *)
Record owner_t : Type := {
  login : option string;
  avatar_url : option string
}.

(** One repository record as the GitHub search API (or the mock data) gives
    it.  [None] in [language] and [description] also stands for JSON null. *)
Record t : Type := {
  id : option Z;
  name : option string;
  full_name : option string;
  description : option string;
  html_url : option string;
  stargazers_count : option Z;
  language : option string;
  forks_count : option Z;
  open_issues_count : option Z;
  created_at : option string;
  updated_at : option string;
  owner : option owner_t;
  topics : option (list string)
}.

End Repo.

(** [d.get(key, default)]. *)
Definition get_default {A : Type} (v : option A) (default : A) : A :=
  match v with
  | Some a => a
  | None => default
  end.

(** [d.get(key) or default] on strings: null and the empty string are falsy. *)
Definition get_or (v : option string) (default : string) : string :=
  match v with
  | Some s => if String.eqb s "" then default else s
  | None => default
  end.

(** [repo.get("language") or "Unknown"]. *)
Definition display_language (r : Repo.t) : string :=
  get_or (Repo.language r) "Unknown".

(** [r.get("language") == lang]: the raw field, compared without the
    ["Unknown"] fallback. *)
Definition language_is (lang : string) (r : Repo.t) : bool :=
  match Repo.language r with
  | Some l => String.eqb l lang
  | None => false
  end.

(** [x.get("stargazers_count", 0)], the sort key of every ranking. *)
Definition stars (r : Repo.t) : Z := get_default (Repo.stargazers_count r) 0.

(** ** Dicts in insertion order, sorting, [max] *)

Module Dict.

Definition t : Type := list (string * Z).

Fixpoint get (d : t) (k : string) (default : Z) : Z :=
  match d with
  | [] => default
  | (k', v) :: d' => if String.eqb k' k then v else get d' k default
  end.

(** [d[k] = v]: an existing key keeps its place, a new one goes last. *)
Fixpoint set (d : t) (k : string) (v : Z) : t :=
  match d with
  | [] => [(k, v)]
  | (k', v') :: d' =>
      if String.eqb k' k then (k', v) :: d' else (k', v') :: set d' k v
  end.

Definition keys (d : t) : list string := map fst d.
Definition items (d : t) : list (string * Z) := d.

(** [k in ks]. *)
Definition mem (k : string) (ks : list string) : bool := existsb (String.eqb k) ks.

End Dict.

Section Sorting.

Context {A : Type}.

(** [lt a b]: [a] has to come before [b]. *)
Variable lt : A -> A -> bool.

Fixpoint insert (x : A) (s : list A) : list A :=
  match s with
  | [] => [x]
  | y :: s' => if lt y x then y :: insert x s' else x :: y :: s'
  end.

(** A stable sort, as [list.sort] and [sorted] are: of two elements neither
    of which has to come first, the one earlier in the input stays first. *)
Fixpoint stable_sort (l : list A) : list A :=
  match l with
  | [] => []
  | x :: l' => insert x (stable_sort l')
  end.

End Sorting.

(** [l.sort(key=key, reverse=True)] and [sorted(l, key=key, reverse=True)]:
    descending keys, equal keys in input order. *)
Definition sort_desc {A : Type} (key : A -> Z) (l : list A) : list A :=
  stable_sort (fun a b => key a >? key b) l.

(** [sorted(languages)]: strings ascend by code points. *)
Definition sorted_strings (l : list string) : list string :=
  stable_sort String.ltb l.

(** [max(l, key=key) if l else None]: the first of the maximal elements. *)
Definition max_by {A : Type} (key : A -> Z) (l : list A) : option A :=
  match l with
  | [] => None
  | x :: l' =>
      Some (fold_left (fun best y => if key y >? key best then y else best) l' x)
  end.

(** [sum(...)]. *)
Definition sum (l : list Z) : Z := fold_left Z.add l 0.

(** One round of the loop of [main] that fills [language_stats]. *)
Definition language_stats_step (d : Dict.t) (repo : Repo.t) : Dict.t :=
  let lang := display_language repo in
  Dict.set d lang (Dict.get d lang 0 + 1).

(** The loop: [for repo in repos: ...], from the empty dict. *)
Definition language_stats (repos : list Repo.t) : Dict.t :=
  fold_left language_stats_step repos [].

(** ** Pages *)

(** A link of the Browse-by-Language table of the home page. *)
Record category_link : Type := {
  cl_href : string;
  cl_language : string;
  cl_count : Z
}.

(** A repository card of the home page or of a language page.
    [card_topics] is [None] when the card has no topics block. *)
Record repo_card : Type := {
  card_href : string;
  card_full_name : string;
  card_stars : string;
  card_description : string;
  card_language : string;
  card_forks : string;
  card_issues : string;
  card_topics : option (list string)
}.

Record index_page : Type := {
  idx_repositories : string;
  idx_total_stars : string;
  idx_total_forks : string;
  idx_languages : Z;
  idx_categories : list category_link;
  idx_trending : list repo_card
}.

Record category_page : Type := {
  cat_language : string;
  cat_count : Z;
  cat_cards : list repo_card
}.

Record similar_card : Type := {
  sim_href : string;
  sim_full_name : string;
  sim_stars : string;
  sim_description : string;
  sim_language : string
}.

(** The meta description of a detail page,
    [f"{repo.get('description', '')} • {format_number(...)} stars • {lang} • GitHub repository details"]:
    the description field as the record has it, without a placeholder (an
    absent key is rendered as the empty string, null as [None]), the
    formatted stars and the display language. *)
Record meta_description : Type := {
  md_description : option string;
  md_stars : string;
  md_language : string
}.

(** [rp_similar] is [None] when the page has no Similar Repositories
    section. *)
Record repo_page : Type := {
  rp_title : string;
  rp_meta : meta_description;
  rp_category_href : string;
  rp_name : string;
  rp_avatar : string;
  rp_login : string;
  rp_full_name : string;
  rp_description : string;
  rp_topics : option (list string);
  rp_stars : string;
  rp_forks : string;
  rp_issues : string;
  rp_language : string;
  rp_created : string;
  rp_updated : string;
  rp_html_url : string;
  rp_similar : option (list similar_card)
}.

Record language_entry : Type := {
  le_href : string;
  le_language : string;
  le_count : Z;
  le_top_stars : string
}.

Record url_entry : Type := {
  loc : string;
  lastmod : string;
  changefreq : string;
  priority : string
}.

(** The topics block of a card: absent for no topics, else
    [topics[:4]]. *)
Definition card_topics_block (repo : Repo.t) : option (list string) :=
  match get_default (Repo.topics repo) [] with
  | [] => None
  | ts => Some (firstn 4 ts)
  end.

(** The topics block of a detail page: absent for no topics, else all. *)
Definition detail_topics_block (repo : Repo.t) : option (list string) :=
  match get_default (Repo.topics repo) [] with
  | [] => None
  | ts => Some ts
  end.

(** The card in the loop [for repo in repos[:20]] of
    [generate_index_page]. *)
Definition index_card (repo : Repo.t) : result repo_card :=
  let lang := display_language repo in
  full_name <- Res.getitem "full_name" (Repo.full_name repo) ;;
  let slug := slugify full_name in
  let topics_html := card_topics_block repo in
  stars_s <- format_number (stars repo) ;;
  forks_s <- format_number (get_default (Repo.forks_count repo) 0) ;;
  issues_s <- format_number (get_default (Repo.open_issues_count repo) 0) ;;
  Ok {| card_href := "repos/" ++ slug ++ ".html";
        card_full_name := full_name;
        card_stars := stars_s;
        card_description := get_or (Repo.description repo) "No description available";
        card_language := lang;
        card_forks := forks_s;
        card_issues := issues_s;
        card_topics := topics_html |}.

(** The Browse-by-Language table:
    [sorted(language_stats.items(), key=lambda x: x[1], reverse=True)]. *)
Definition index_categories (stats : Dict.t) : list category_link :=
  map (fun '(lang, count) =>
         {| cl_href := "categories/" ++ slugify lang ++ ".html";
            cl_language := lang;
            cl_count := count |})
      (sort_desc snd (Dict.items stats)).

(** [generate_index_page(repos, language_stats)]. *)
Definition generate_index_page (repos : list Repo.t) (stats : Dict.t)
  : result index_page :=
  let total_stars := sum (map stars repos) in
  let total_forks := sum (map (fun r => get_default (Repo.forks_count r) 0) repos) in
  n_s <- format_number (Z.of_nat (List.length repos)) ;;
  stars_s <- format_number total_stars ;;
  forks_s <- format_number total_forks ;;
  let categories := index_categories stats in
  cards <- Res.mapM index_card (firstn 20 repos) ;;
  Ok {| idx_repositories := n_s;
        idx_total_stars := stars_s;
        idx_total_forks := forks_s;
        idx_languages := Z.of_nat (List.length stats);
        idx_categories := categories;
        idx_trending := cards |}.

(** The member list of a language page: the first two statements of
    [generate_category_page]. *)
Definition lang_repos (lang : string) (repos : list Repo.t) : list Repo.t :=
  sort_desc stars (filter (language_is lang) repos).

(** The card in the loop [for repo in lang_repos]. *)
Definition category_card (lang : string) (repo : Repo.t) : result repo_card :=
  full_name <- Res.getitem "full_name" (Repo.full_name repo) ;;
  let slug := slugify full_name in
  let topics_html := card_topics_block repo in
  stars_s <- format_number (stars repo) ;;
  forks_s <- format_number (get_default (Repo.forks_count repo) 0) ;;
  issues_s <- format_number (get_default (Repo.open_issues_count repo) 0) ;;
  Ok {| card_href := "../repos/" ++ slug ++ ".html";
        card_full_name := full_name;
        card_stars := stars_s;
        card_description := get_or (Repo.description repo) "No description available";
        card_language := lang;
        card_forks := forks_s;
        card_issues := issues_s;
        card_topics := topics_html |}.

(** [generate_category_page(lang, repos, all_languages)]. *)
Definition generate_category_page (lang : string) (repos : list Repo.t)
    (all_languages : list string) : result category_page :=
  let members := lang_repos lang repos in
  cards <- Res.mapM (category_card lang) members ;;
  Ok {| cat_language := lang;
        cat_count := Z.of_nat (List.length members);
        cat_cards := cards |}.

(** The Similar Repositories candidates of [generate_repo_page]:
    [[r for r in all_repos if r.get("language") == lang and r["id"] != repo["id"]]]
    sorted by stars, descending.  [and] evaluates the ids only when the
    languages agree, [r["id"]] before [repo["id"]]. *)
Definition similar_repos (repo : Repo.t) (all_repos : list Repo.t)
  : result (list Repo.t) :=
  let lang := display_language repo in
  candidates <-
    Res.filterM
      (fun r =>
         if language_is lang r then
           r_id <- Res.getitem "id" (Repo.id r) ;;
           repo_id <- Res.getitem "id" (Repo.id repo) ;;
           Ok (negb (r_id =? repo_id))
         else Ok false)
      all_repos ;;
  Ok (sort_desc stars candidates).

(** The card in the loop [for similar in similar_repos[:4]]. *)
Definition similar_card_of (similar : Repo.t) : result similar_card :=
  full_name <- Res.getitem "full_name" (Repo.full_name similar) ;;
  let similar_slug := slugify full_name in
  let similar_lang := display_language similar in
  stars_s <- format_number (stars similar) ;;
  Ok {| sim_href := similar_slug ++ ".html";
        sim_full_name := full_name;
        sim_stars := stars_s;
        sim_description := get_or (Repo.description similar) "No description";
        sim_language := similar_lang |}.

(** [generate_repo_page(repo, all_repos)]. *)
Definition generate_repo_page (repo : Repo.t) (all_repos : list Repo.t)
  : result repo_page :=
  let lang := display_language repo in
  full_name <- Res.getitem "full_name" (Repo.full_name repo) ;;
  let lang_slug := slugify lang in
  similar <- similar_repos repo all_repos ;;
  stars_s <- format_number (stars repo) ;;
  let created_date := substring 0 10 (get_default (Repo.created_at repo) "") in
  let updated_date := substring 0 10 (get_default (Repo.updated_at repo) "") in
  let topics_html := detail_topics_block repo in
  name <- Res.getitem "name" (Repo.name repo) ;;
  owner <- Res.getitem "owner" (Repo.owner repo) ;;
  avatar <- Res.getitem "avatar_url" (Repo.avatar_url owner) ;;
  login <- Res.getitem "login" (Repo.login owner) ;;
  forks_s <- format_number (get_default (Repo.forks_count repo) 0) ;;
  issues_s <- format_number (get_default (Repo.open_issues_count repo) 0) ;;
  html_url <- Res.getitem "html_url" (Repo.html_url repo) ;;
  similar_section <-
    match similar with
    | [] => Ok None
    | _ => cards <- Res.mapM similar_card_of (firstn 4 similar) ;; Ok (Some cards)
    end ;;
  Ok {| rp_title := full_name;
        rp_meta := {| md_description := Repo.description repo;
                      md_stars := stars_s;
                      md_language := lang |};
        rp_category_href := "../categories/" ++ lang_slug ++ ".html";
        rp_name := name;
        rp_avatar := avatar;
        rp_login := login;
        rp_full_name := full_name;
        rp_description := get_or (Repo.description repo) "No description available";
        rp_topics := topics_html;
        rp_stars := stars_s;
        rp_forks := forks_s;
        rp_issues := issues_s;
        rp_language := lang;
        rp_created := created_date;
        rp_updated := updated_date;
        rp_html_url := html_url;
        rp_similar := similar_section |}.

(** The entry in the loop [for lang in sorted(languages)] of
    [generate_categories_index_page]. *)
Definition language_entry_of (stats : Dict.t) (repos : list Repo.t)
    (lang : string) : result language_entry :=
  let count := Dict.get stats lang 0 in
  let slug := slugify lang in
  let members := filter (language_is lang) repos in
  let top_repo := max_by stars members in
  top_stars <-
    match top_repo with
    | Some r => format_number (stars r)
    | None => Ok "0"
    end ;;
  Ok {| le_href := slug ++ ".html";
        le_language := lang;
        le_count := count;
        le_top_stars := top_stars |}.

(** [generate_categories_index_page(languages, language_stats, repos)]. *)
Definition generate_categories_index_page (languages : list string)
    (stats : Dict.t) (repos : list Repo.t) : result (list language_entry) :=
  Res.mapM (language_entry_of stats repos) (sorted_strings languages).

(** [generate_sitemap(base_url, repos, languages)]; [now] is the date
    string [datetime.now().strftime("%Y-%m-%d")] of the run. *)
Definition generate_sitemap (now base_url : string) (repos : list Repo.t)
    (languages : list string) : result (list url_entry) :=
  let urls :=
    [ {| loc := base_url ++ "/index.html"; lastmod := now;
         changefreq := "daily"; priority := "1.0" |};
      {| loc := base_url ++ "/categories/index.html"; lastmod := now;
         changefreq := "daily"; priority := "0.9" |} ] in
  let urls :=
    (urls ++
     map (fun lang =>
            {| loc := base_url ++ "/categories/" ++ slugify lang ++ ".html";
               lastmod := now; changefreq := "daily"; priority := "0.8" |})
         languages)%list in
  repo_urls <-
    Res.mapM
      (fun repo =>
         full_name <- Res.getitem "full_name" (Repo.full_name repo) ;;
         Ok {| loc := base_url ++ "/repos/" ++ slugify full_name ++ ".html";
               lastmod := now; changefreq := "weekly"; priority := "0.7" |})
      repos ;;
  Ok (urls ++ repo_urls)%list.

(** ** The driver *)

Inductive file : Type :=
| IndexHtml (page : index_page)
| CategoriesIndexHtml (entries : list language_entry)
| CategoryHtml (page : category_page)
| RepoHtml (page : repo_page)
| SitemapXml (urls : list url_entry).

(** A run writes files one after the other and may stop on an exception:
    a computation yields the files written, in order, and its result. *)
Definition run (A : Type) : Type := list (string * file) * result A.

Module Run.

Definition bind {A B : Type} (m : run A) (k : A -> run B) : run B :=
  match m with
  | (w, Ok a) => let '(w', r) := k a in ((w ++ w')%list, r)
  | (w, Raise e) => (w, Raise e)
  end.

Definition lift {A : Type} (m : result A) : run A := ([], m).

(** [with open(path, "w") as f: f.write(content)]. *)
Definition write (path : string) (content : file) : run unit :=
  ([(path, content)], Ok tt).

(** [for x in l: body(x)]. *)
Fixpoint for_each {A : Type} (body : A -> run unit) (l : list A) : run unit :=
  match l with
  | [] => ([], Ok tt)
  | x :: l' => bind (body x) (fun _ => for_each body l')
  end.

(** What a path holds after the writes [w]: the last content written to
    it. *)
Fixpoint file_at (w : list (string * file)) (path : string) : option file :=
  match w with
  | [] => None
  | (p, f) :: w' =>
      match file_at w' path with
      | Some f' => Some f'
      | None => if String.eqb p path then Some f else None
      end
  end.

End Run.

Declare Scope run_scope.
Delimit Scope run_scope with run.
Notation "x <- m ;; k" := (Run.bind m (fun x => k))
  (at level 61, m at next level, right associativity) : run_scope.
Notation "m ;; k" := (Run.bind m (fun _ => k))
  (at level 61, right associativity) : run_scope.

Definition OUTPUT_DIR : string := "output".

(** [os.path.join(a, b)] for a relative [b]. *)
Definition path_join (a b : string) : string := a ++ "/" ++ b.

Definition REPOS_DIR : string := path_join OUTPUT_DIR "repos".
Definition CATEGORIES_DIR : string := path_join OUTPUT_DIR "categories".

Definition BASE_URL : string := "https://yourusername.github.io/github-trends".

(** [main()], from the records [fetch_trending_repos()] returned on;
    [now] is the date of the run. *)
Definition main (now : string) (repos : list Repo.t) : run unit :=
  (let language_stats := language_stats repos in
   let languages := Dict.keys language_stats in
   index_html <- Run.lift (generate_index_page repos language_stats) ;;
   Run.write (path_join OUTPUT_DIR "index.html") (IndexHtml index_html) ;;
   categories_index <-
     Run.lift (generate_categories_index_page languages language_stats repos) ;;
   Run.write (path_join CATEGORIES_DIR "index.html")
     (CategoriesIndexHtml categories_index) ;;
   Run.for_each
     (fun lang =>
        let slug := slugify lang in
        cat_html <- Run.lift (generate_category_page lang repos languages) ;;
        Run.write (path_join CATEGORIES_DIR (slug ++ ".html")) (CategoryHtml cat_html))
     languages ;;
   Run.for_each
     (fun repo =>
        full_name <- Run.lift (Res.getitem "full_name" (Repo.full_name repo)) ;;
        let slug := slugify full_name in
        repo_html <- Run.lift (generate_repo_page repo repos) ;;
        Run.write (path_join REPOS_DIR (slug ++ ".html")) (RepoHtml repo_html))
     repos ;;
   sitemap <- Run.lift (generate_sitemap now BASE_URL repos languages) ;;
   Run.write (path_join OUTPUT_DIR "sitemap.xml") (SitemapXml sitemap))%run.

(** ** The fallback dataset *)

(** [get_mock_data()]: the 25 records [fetch_trending_repos] falls back
    to. *)
Definition get_mock_data : list Repo.t :=
  [
    {| Repo.id := Some 1;
       Repo.name := Some "awesome-ai-assistant";
       Repo.full_name := Some "johndoe/awesome-ai-assistant";
       Repo.description :=
         Some "A powerful AI assistant framework with built-in RAG capabilities, supporting multiple LLM providers and custom tool integrations.";
       Repo.html_url := Some "https://github.com/johndoe/awesome-ai-assistant";
       Repo.stargazers_count := Some 12500;
       Repo.language := Some "Python";
       Repo.forks_count := Some 890;
       Repo.open_issues_count := Some 45;
       Repo.created_at := Some "2025-01-15T10:00:00Z";
       Repo.updated_at := Some "2025-01-28T15:30:00Z";
       Repo.owner :=
         Some {| Repo.login := Some "johndoe";
                 Repo.avatar_url := Some "https://avatars.githubusercontent.com/u/1" |};
       Repo.topics := Some ["ai"; "llm"; "rag"; "assistant"; "openai"] |};
    {| Repo.id := Some 2;
       Repo.name := Some "rust-wasm-runtime";
       Repo.full_name := Some "rustacean/rust-wasm-runtime";
       Repo.description :=
         Some "High-performance WebAssembly runtime written in Rust with WASI support and minimal overhead.";
       Repo.html_url := Some "https://github.com/rustacean/rust-wasm-runtime";
       Repo.stargazers_count := Some 9800;
       Repo.language := Some "Rust";
       Repo.forks_count := Some 560;
       Repo.open_issues_count := Some 23;
       Repo.created_at := Some "2025-01-10T08:00:00Z";
       Repo.updated_at := Some "2025-01-27T12:00:00Z";
       Repo.owner :=
         Some {| Repo.login := Some "rustacean";
                 Repo.avatar_url := Some "https://avatars.githubusercontent.com/u/2" |};
       Repo.topics := Some ["wasm"; "webassembly"; "runtime"; "wasi"; "rust"] |};
    {| Repo.id := Some 3;
       Repo.name := Some "nextjs-dashboard-kit";
       Repo.full_name := Some "webdev/nextjs-dashboard-kit";
       Repo.description :=
         Some "Production-ready dashboard starter with Next.js 14, Tailwind CSS, Prisma, and NextAuth. Includes 20+ UI components.";
       Repo.html_url := Some "https://github.com/webdev/nextjs-dashboard-kit";
       Repo.stargazers_count := Some 15400;
       Repo.language := Some "TypeScript";
       Repo.forks_count := Some 1200;
       Repo.open_issues_count := Some 67;
       Repo.created_at := Some "2025-01-05T14:00:00Z";
       Repo.updated_at := Some "2025-01-28T09:00:00Z";
       Repo.owner :=
         Some {| Repo.login := Some "webdev";
                 Repo.avatar_url := Some "https://avatars.githubusercontent.com/u/3" |};
       Repo.topics := Some ["nextjs"; "react"; "dashboard"; "tailwindcss"; "prisma"] |};
    {| Repo.id := Some 4;
       Repo.name := Some "go-microservices-framework";
       Repo.full_name := Some "godev/go-microservices-framework";
       Repo.description :=
         Some "Lightweight microservices framework for Go with built-in service discovery, load balancing, and circuit breaker patterns.";
       Repo.html_url := Some "https://github.com/godev/go-microservices-framework";
       Repo.stargazers_count := Some 8200;
       Repo.language := Some "Go";
       Repo.forks_count := Some 430;
       Repo.open_issues_count := Some 34;
       Repo.created_at := Some "2025-01-12T11:00:00Z";
       Repo.updated_at := Some "2025-01-28T16:00:00Z";
       Repo.owner :=
         Some {| Repo.login := Some "godev";
                 Repo.avatar_url := Some "https://avatars.githubusercontent.com/u/4" |};
       Repo.topics := Some ["go"; "golang"; "microservices"; "framework"; "grpc"] |};
    {| Repo.id := Some 5;
       Repo.name := Some "react-native-ui-lib";
       Repo.full_name := Some "mobiledev/react-native-ui-lib";
       Repo.description :=
         Some "Comprehensive UI library for React Native with 50+ components, animations, and theming support.";
       Repo.html_url := Some "https://github.com/mobiledev/react-native-ui-lib";
       Repo.stargazers_count := Some 6700;
       Repo.language := Some "TypeScript";
       Repo.forks_count := Some 380;
       Repo.open_issues_count := Some 29;
       Repo.created_at := Some "2025-01-08T09:00:00Z";
       Repo.updated_at := Some "2025-01-27T14:00:00Z";
       Repo.owner :=
         Some {| Repo.login := Some "mobiledev";
                 Repo.avatar_url := Some "https://avatars.githubusercontent.com/u/5" |};
       Repo.topics := Some ["react-native"; "mobile"; "ui"; "components"; "typescript"] |};
    {| Repo.id := Some 6;
       Repo.name := Some "ml-pipeline-tools";
       Repo.full_name := Some "mlengineer/ml-pipeline-tools";
       Repo.description :=
         Some "End-to-end ML pipeline management with experiment tracking, model versioning, and deployment automation.";
       Repo.html_url := Some "https://github.com/mlengineer/ml-pipeline-tools";
       Repo.stargazers_count := Some 5400;
       Repo.language := Some "Python";
       Repo.forks_count := Some 290;
       Repo.open_issues_count := Some 18;
       Repo.created_at := Some "2025-01-03T16:00:00Z";
       Repo.updated_at := Some "2025-01-26T11:00:00Z";
       Repo.owner :=
         Some {| Repo.login := Some "mlengineer";
                 Repo.avatar_url := Some "https://avatars.githubusercontent.com/u/6" |};
       Repo.topics := Some ["machine-learning"; "mlops"; "pipeline"; "experiment-tracking"; "python"] |};
    {| Repo.id := Some 7;
       Repo.name := Some "sveltekit-ecommerce";
       Repo.full_name := Some "sveltefan/sveltekit-ecommerce";
       Repo.description :=
         Some "Full-stack e-commerce solution built with SvelteKit, featuring cart, checkout, admin panel, and Stripe integration.";
       Repo.html_url := Some "https://github.com/sveltefan/sveltekit-ecommerce";
       Repo.stargazers_count := Some 4300;
       Repo.language := Some "TypeScript";
       Repo.forks_count := Some 210;
       Repo.open_issues_count := Some 15;
       Repo.created_at := Some "2025-01-14T13:00:00Z";
       Repo.updated_at := Some "2025-01-28T10:00:00Z";
       Repo.owner :=
         Some {| Repo.login := Some "sveltefan";
                 Repo.avatar_url := Some "https://avatars.githubusercontent.com/u/7" |};
       Repo.topics := Some ["svelte"; "sveltekit"; "ecommerce"; "stripe"; "typescript"] |};
    {| Repo.id := Some 8;
       Repo.name := Some "kubernetes-operator-sdk";
       Repo.full_name := Some "k8sdev/kubernetes-operator-sdk";
       Repo.description :=
         Some "Simplified SDK for building Kubernetes operators with minimal boilerplate and built-in best practices.";
       Repo.html_url := Some "https://github.com/k8sdev/kubernetes-operator-sdk";
       Repo.stargazers_count := Some 7200;
       Repo.language := Some "Go";
       Repo.forks_count := Some 340;
       Repo.open_issues_count := Some 28;
       Repo.created_at := Some "2025-01-11T07:00:00Z";
       Repo.updated_at := Some "2025-01-28T08:00:00Z";
       Repo.owner :=
         Some {| Repo.login := Some "k8sdev";
                 Repo.avatar_url := Some "https://avatars.githubusercontent.com/u/8" |};
       Repo.topics := Some ["kubernetes"; "operator"; "k8s"; "go"; "devops"] |};
    {| Repo.id := Some 9;
       Repo.name := Some "fastapi-starter-template";
       Repo.full_name := Some "pythonista/fastapi-starter-template";
       Repo.description :=
         Some "Complete FastAPI project template with authentication, database integration, caching, and deployment configs.";
       Repo.html_url := Some "https://github.com/pythonista/fastapi-starter-template";
       Repo.stargazers_count := Some 8900;
       Repo.language := Some "Python";
       Repo.forks_count := Some 620;
       Repo.open_issues_count := Some 42;
       Repo.created_at := Some "2025-01-06T10:00:00Z";
       Repo.updated_at := Some "2025-01-28T13:00:00Z";
       Repo.owner :=
         Some {| Repo.login := Some "pythonista";
                 Repo.avatar_url := Some "https://avatars.githubusercontent.com/u/9" |};
       Repo.topics := Some ["fastapi"; "python"; "api"; "template"; "backend"] |};
    {| Repo.id := Some 10;
       Repo.name := Some "vue-dashboard-pro";
       Repo.full_name := Some "vuejsfan/vue-dashboard-pro";
       Repo.description :=
         Some "Professional Vue 3 dashboard template with Vite, Pinia, and comprehensive charting library integration.";
       Repo.html_url := Some "https://github.com/vuejsfan/vue-dashboard-pro";
       Repo.stargazers_count := Some 5100;
       Repo.language := Some "Vue";
       Repo.forks_count := Some 280;
       Repo.open_issues_count := Some 22;
       Repo.created_at := Some "2025-01-09T15:00:00Z";
       Repo.updated_at := Some "2025-01-27T16:00:00Z";
       Repo.owner :=
         Some {| Repo.login := Some "vuejsfan";
                 Repo.avatar_url := Some "https://avatars.githubusercontent.com/u/10" |};
       Repo.topics := Some ["vue"; "vue3"; "dashboard"; "vite"; "frontend"] |};
    {| Repo.id := Some 11;
       Repo.name := Some "blockchain-rust-node";
       Repo.full_name := Some "cryptodev/blockchain-rust-node";
       Repo.description :=
         Some "Educational blockchain implementation in Rust with Proof of Stake consensus and smart contract support.";
       Repo.html_url := Some "https://github.com/cryptodev/blockchain-rust-node";
       Repo.stargazers_count := Some 4600;
       Repo.language := Some "Rust";
       Repo.forks_count := Some 390;
       Repo.open_issues_count := Some 31;
       Repo.created_at := Some "2025-01-13T12:00:00Z";
       Repo.updated_at := Some "2025-01-28T11:00:00Z";
       Repo.owner :=
         Some {| Repo.login := Some "cryptodev";
                 Repo.avatar_url := Some "https://avatars.githubusercontent.com/u/11" |};
       Repo.topics := Some ["blockchain"; "rust"; "cryptocurrency"; "pos"; "smart-contracts"] |};
    {| Repo.id := Some 12;
       Repo.name := Some "threejs-experiments";
       Repo.full_name := Some "webglartist/threejs-experiments";
       Repo.description :=
         Some "Collection of stunning Three.js experiments, shaders, and interactive 3D web experiences.";
       Repo.html_url := Some "https://github.com/webglartist/threejs-experiments";
       Repo.stargazers_count := Some 3800;
       Repo.language := Some "JavaScript";
       Repo.forks_count := Some 450;
       Repo.open_issues_count := Some 12;
       Repo.created_at := Some "2025-01-04T08:00:00Z";
       Repo.updated_at := Some "2025-01-26T09:00:00Z";
       Repo.owner :=
         Some {| Repo.login := Some "webglartist";
                 Repo.avatar_url := Some "https://avatars.githubusercontent.com/u/12" |};
       Repo.topics := Some ["threejs"; "webgl"; "3d"; "shaders"; "javascript"] |};
    {| Repo.id := Some 13;
       Repo.name := Some "flutter-state-management";
       Repo.full_name := Some "flutterdev/flutter-state-management";
       Repo.description :=
         Some "Comprehensive comparison and examples of all Flutter state management solutions: Riverpod, Bloc, GetX, and more.";
       Repo.html_url := Some "https://github.com/flutterdev/flutter-state-management";
       Repo.stargazers_count := Some 6200;
       Repo.language := Some "Dart";
       Repo.forks_count := Some 510;
       Repo.open_issues_count := Some 19;
       Repo.created_at := Some "2025-01-07T14:00:00Z";
       Repo.updated_at := Some "2025-01-28T14:00:00Z";
       Repo.owner :=
         Some {| Repo.login := Some "flutterdev";
                 Repo.avatar_url := Some "https://avatars.githubusercontent.com/u/13" |};
       Repo.topics := Some ["flutter"; "dart"; "state-management"; "riverpod"; "bloc"] |};
    {| Repo.id := Some 14;
       Repo.name := Some "elixir-phoenix-liveview";
       Repo.full_name := Some "elixirfan/elixir-phoenix-liveview";
       Repo.description :=
         Some "Real-time applications with Phoenix LiveView: examples, patterns, and production-ready templates.";
       Repo.html_url := Some "https://github.com/elixirfan/elixir-phoenix-liveview";
       Repo.stargazers_count := Some 2900;
       Repo.language := Some "Elixir";
       Repo.forks_count := Some 180;
       Repo.open_issues_count := Some 8;
       Repo.created_at := Some "2025-01-16T11:00:00Z";
       Repo.updated_at := Some "2025-01-27T10:00:00Z";
       Repo.owner :=
         Some {| Repo.login := Some "elixirfan";
                 Repo.avatar_url := Some "https://avatars.githubusercontent.com/u/14" |};
       Repo.topics := Some ["elixir"; "phoenix"; "liveview"; "real-time"; "web"] |};
    {| Repo.id := Some 15;
       Repo.name := Some "django-saas-starter";
       Repo.full_name := Some "djangodev/django-saas-starter";
       Repo.description :=
         Some "Complete Django SaaS starter with multi-tenancy, Stripe billing, teams, and admin dashboard.";
       Repo.html_url := Some "https://github.com/djangodev/django-saas-starter";
       Repo.stargazers_count := Some 7500;
       Repo.language := Some "Python";
       Repo.forks_count := Some 480;
       Repo.open_issues_count := Some 36;
       Repo.created_at := Some "2025-01-02T09:00:00Z";
       Repo.updated_at := Some "2025-01-28T15:00:00Z";
       Repo.owner :=
         Some {| Repo.login := Some "djangodev";
                 Repo.avatar_url := Some "https://avatars.githubusercontent.com/u/15" |};
       Repo.topics := Some ["django"; "python"; "saas"; "stripe"; "multitenancy"] |};
    {| Repo.id := Some 16;
       Repo.name := Some "solidjs-components";
       Repo.full_name := Some "solidfan/solidjs-components";
       Repo.description :=
         Some "Modern UI component library for SolidJS with accessibility, theming, and TypeScript support.";
       Repo.html_url := Some "https://github.com/solidfan/solidjs-components";
       Repo.stargazers_count := Some 2100;
       Repo.language := Some "TypeScript";
       Repo.forks_count := Some 95;
       Repo.open_issues_count := Some 6;
       Repo.created_at := Some "2025-01-17T13:00:00Z";
       Repo.updated_at := Some "2025-01-28T12:00:00Z";
       Repo.owner :=
         Some {| Repo.login := Some "solidfan";
                 Repo.avatar_url := Some "https://avatars.githubusercontent.com/u/16" |};
       Repo.topics := Some ["solidjs"; "typescript"; "ui"; "components"; "frontend"] |};
    {| Repo.id := Some 17;
       Repo.name := Some "clojure-data-processing";
       Repo.full_name := Some "clojurist/clojure-data-processing";
       Repo.description :=
         Some "High-performance data processing library in Clojure with functional transformations and parallel execution.";
       Repo.html_url := Some "https://github.com/clojurist/clojure-data-processing";
       Repo.stargazers_count := Some 1800;
       Repo.language := Some "Clojure";
       Repo.forks_count := Some 85;
       Repo.open_issues_count := Some 4;
       Repo.created_at := Some "2025-01-18T10:00:00Z";
       Repo.updated_at := Some "2025-01-26T14:00:00Z";
       Repo.owner :=
         Some {| Repo.login := Some "clojurist";
                 Repo.avatar_url := Some "https://avatars.githubusercontent.com/u/17" |};
       Repo.topics := Some ["clojure"; "data-processing"; "functional"; "big-data"] |};
    {| Repo.id := Some 18;
       Repo.name := Some "zig-systems-programming";
       Repo.full_name := Some "zigfan/zig-systems-programming";
       Repo.description :=
         Some "Systems programming examples and tools in Zig: memory allocators, kernel modules, and embedded projects.";
       Repo.html_url := Some "https://github.com/zigfan/zig-systems-programming";
       Repo.stargazers_count := Some 3200;
       Repo.language := Some "Zig";
       Repo.forks_count := Some 220;
       Repo.open_issues_count := Some 11;
       Repo.created_at := Some "2025-01-19T08:00:00Z";
       Repo.updated_at := Some "2025-01-27T13:00:00Z";
       Repo.owner :=
         Some {| Repo.login := Some "zigfan";
                 Repo.avatar_url := Some "https://avatars.githubusercontent.com/u/18" |};
       Repo.topics := Some ["zig"; "systems"; "embedded"; "kernel"; "low-level"] |};
    {| Repo.id := Some 19;
       Repo.name := Some "angular-architecture-patterns";
       Repo.full_name := Some "ngdev/angular-architecture-patterns";
       Repo.description :=
         Some "Enterprise Angular architecture patterns: Nx monorepos, state management, testing, and performance.";
       Repo.html_url := Some "https://github.com/ngdev/angular-architecture-patterns";
       Repo.stargazers_count := Some 5800;
       Repo.language := Some "TypeScript";
       Repo.forks_count := Some 420;
       Repo.open_issues_count := Some 24;
       Repo.created_at := Some "2025-01-20T15:00:00Z";
       Repo.updated_at := Some "2025-01-28T09:00:00Z";
       Repo.owner :=
         Some {| Repo.login := Some "ngdev";
                 Repo.avatar_url := Some "https://avatars.githubusercontent.com/u/19" |};
       Repo.topics := Some ["angular"; "typescript"; "architecture"; "nx"; "enterprise"] |};
    {| Repo.id := Some 20;
       Repo.name := Some "laravel-saas-boilerplate";
       Repo.full_name := Some "laraveller/laravel-saas-boilerplate";
       Repo.description :=
         Some "Production-ready Laravel SaaS boilerplate with Jetstream, Cashier, teams, and API resources.";
       Repo.html_url := Some "https://github.com/laraveller/laravel-saas-boilerplate";
       Repo.stargazers_count := Some 4100;
       Repo.language := Some "PHP";
       Repo.forks_count := Some 310;
       Repo.open_issues_count := Some 17;
       Repo.created_at := Some "2025-01-21T11:00:00Z";
       Repo.updated_at := Some "2025-01-28T16:00:00Z";
       Repo.owner :=
         Some {| Repo.login := Some "laraveller";
                 Repo.avatar_url := Some "https://avatars.githubusercontent.com/u/20" |};
       Repo.topics := Some ["laravel"; "php"; "saas"; "jetstream"; "stripe"] |};
    {| Repo.id := Some 21;
       Repo.name := Some "swiftui-components-library";
       Repo.full_name := Some "swiftdev/swiftui-components-library";
       Repo.description :=
         Some "Beautiful SwiftUI component library with animations, custom controls, and iOS 17+ features.";
       Repo.html_url := Some "https://github.com/swiftdev/swiftui-components-library";
       Repo.stargazers_count := Some 3600;
       Repo.language := Some "Swift";
       Repo.forks_count := Some 190;
       Repo.open_issues_count := Some 13;
       Repo.created_at := Some "2025-01-22T09:00:00Z";
       Repo.updated_at := Some "2025-01-28T10:00:00Z";
       Repo.owner :=
         Some {| Repo.login := Some "swiftdev";
                 Repo.avatar_url := Some "https://avatars.githubusercontent.com/u/21" |};
       Repo.topics := Some ["swift"; "swiftui"; "ios"; "components"; "ui"] |};
    {| Repo.id := Some 22;
       Repo.name := Some "kotlin-multiplatform-sdk";
       Repo.full_name := Some "kotlindev/kotlin-multiplatform-sdk";
       Repo.description :=
         Some "Cross-platform SDK development with Kotlin Multiplatform: iOS, Android, Web, and Desktop support.";
       Repo.html_url := Some "https://github.com/kotlindev/kotlin-multiplatform-sdk";
       Repo.stargazers_count := Some 2700;
       Repo.language := Some "Kotlin";
       Repo.forks_count := Some 150;
       Repo.open_issues_count := Some 9;
       Repo.created_at := Some "2025-01-23T14:00:00Z";
       Repo.updated_at := Some "2025-01-27T11:00:00Z";
       Repo.owner :=
         Some {| Repo.login := Some "kotlindev";
                 Repo.avatar_url := Some "https://avatars.githubusercontent.com/u/22" |};
       Repo.topics := Some ["kotlin"; "multiplatform"; "mobile"; "android"; "ios"] |};
    {| Repo.id := Some 23;
       Repo.name := Some "cpp-game-engine";
       Repo.full_name := Some "gamedev/cpp-game-engine";
       Repo.description :=
         Some "Modern C++ game engine with Vulkan renderer, ECS architecture, and hot-reloading support.";
       Repo.html_url := Some "https://github.com/gamedev/cpp-game-engine";
       Repo.stargazers_count := Some 5200;
       Repo.language := Some "C++";
       Repo.forks_count := Some 380;
       Repo.open_issues_count := Some 26;
       Repo.created_at := Some "2025-01-24T10:00:00Z";
       Repo.updated_at := Some "2025-01-28T14:00:00Z";
       Repo.owner :=
         Some {| Repo.login := Some "gamedev";
                 Repo.avatar_url := Some "https://avatars.githubusercontent.com/u/23" |};
       Repo.topics := Some ["cpp"; "game-engine"; "vulkan"; "ecs"; "games"] |};
    {| Repo.id := Some 24;
       Repo.name := Some "ruby-on-rails-api-template";
       Repo.full_name := Some "rubyist/ruby-on-rails-api-template";
       Repo.description :=
         Some "Production-ready Rails API template with JWT auth, versioning, documentation, and testing setup.";
       Repo.html_url := Some "https://github.com/rubyist/ruby-on-rails-api-template";
       Repo.stargazers_count := Some 2400;
       Repo.language := Some "Ruby";
       Repo.forks_count := Some 140;
       Repo.open_issues_count := Some 7;
       Repo.created_at := Some "2025-01-25T08:00:00Z";
       Repo.updated_at := Some "2025-01-28T08:00:00Z";
       Repo.owner :=
         Some {| Repo.login := Some "rubyist";
                 Repo.avatar_url := Some "https://avatars.githubusercontent.com/u/24" |};
       Repo.topics := Some ["ruby"; "rails"; "api"; "jwt"; "backend"] |};
    {| Repo.id := Some 25;
       Repo.name := Some "haskell-web-framework";
       Repo.full_name := Some "haskeller/haskell-web-framework";
       Repo.description :=
         Some "Type-safe web framework in Haskell with servant-style routing and automatic API documentation.";
       Repo.html_url := Some "https://github.com/haskeller/haskell-web-framework";
       Repo.stargazers_count := Some 1500;
       Repo.language := Some "Haskell";
       Repo.forks_count := Some 75;
       Repo.open_issues_count := Some 3;
       Repo.created_at := Some "2025-01-26T11:00:00Z";
       Repo.updated_at := Some "2025-01-28T12:00:00Z";
       Repo.owner :=
         Some {| Repo.login := Some "haskeller";
                 Repo.avatar_url := Some "https://avatars.githubusercontent.com/u/25" |};
       Repo.topics := Some ["haskell"; "web"; "framework"; "type-safe"; "api"] |} ].

(** * Vocabulary of the properties *)

(** ** Rounding *)

(** What a location says of the remainder [r] of a division by [b]: none,
    less than half, half, more than half. *)
Definition loc_ok (b r : Z) (l : location) : Prop :=
  match l with
  | loc_Exact => r = 0
  | loc_Inexact Lt => 0 < 2 * r < b
  | loc_Inexact Eq => 2 * r = b
  | loc_Inexact Gt => b < 2 * r
  end.

(** ** Order *)

(** [ordered lt a b]: [b] may follow [a], as it does not have to come
    before it. *)
Definition ordered {A : Type} (lt : A -> A -> bool) (a b : A) : Prop :=
  lt b a = false.

(** ** The shape of a slug *)

Module Shape.

Import Str.

(** The shape of the text between two strips: characters of [[a-z0-9-]]
    only, no two hyphens in a row, and no hyphen first when [after_hyphen]. *)
Fixpoint collapsed (after_hyphen : bool) (s : string) : bool :=
  match s with
  | EmptyString => true
  | String c s' =>
      if is_alnum c then collapsed false s'
      else Ascii.eqb c hyphen && negb after_hyphen && collapsed true s'
  end.

(** The last character is a hyphen. *)
Fixpoint ends_with_hyphen (s : string) : bool :=
  match s with
  | EmptyString => false
  | String c EmptyString => Ascii.eqb c hyphen
  | String _ s' => ends_with_hyphen s'
  end.

(** The shape of a slug: runs of [[a-z0-9]] joined by single hyphens. *)
Definition slug_shape (s : string) : Prop :=
  collapsed true s = true /\ ends_with_hyphen s = false.

End Shape.

(** ** Similar repositories *)

(** [a["id"] == b["id"]], for ids that may be absent. *)
Definition same_id (a b : Repo.t) : bool :=
  match Repo.id a, Repo.id b with
  | Some x, Some y => x =? y
  | None, None => true
  | _, _ => false
  end.

(** The records the Similar Repositories filter keeps for [repo]. *)
Definition is_candidate (repo r : Repo.t) : bool :=
  language_is (display_language repo) r && negb (same_id r repo).

(** ** Languages and their counts *)

(** The distinct strings of a list, each at its first occurrence. *)
Fixpoint first_occurrences (l : list string) : list string :=
  match l with
  | [] => []
  | x :: l' => x :: filter (fun y => negb (String.eqb y x)) (first_occurrences l')
  end.

(** The number of records of a display language. *)
Definition language_count (lang : string) (repos : list Repo.t) : Z :=
  Z.of_nat (List.length (filter (fun r => String.eqb (display_language r) lang) repos)).

(** The link of one item of [language_stats]. *)
Definition category_link_of (kv : string * Z) : category_link :=
  {| cl_href := "categories/" ++ slugify (fst kv) ++ ".html";
     cl_language := fst kv;
     cl_count := snd kv |}.

(** [repo.get("topics", [])]. *)
Definition topics_of (repo : Repo.t) : list string :=
  get_default (Repo.topics repo) [].

(** ** Complete records *)

(** Counts below this bound are divided without overflow. *)
Definition count_bound : Z := 2 ^ 64.

Definition is_some {A : Type} (v : option A) : bool :=
  match v with Some _ => true | None => false end.

(** A record with every key the templates subscript, and counts that
    [format_number] can divide. *)
Definition complete (r : Repo.t) : bool :=
  is_some (Repo.id r) && is_some (Repo.name r) && is_some (Repo.full_name r)
  && is_some (Repo.html_url r)
  && match Repo.owner r with
     | Some o => is_some (Repo.login o) && is_some (Repo.avatar_url o)
     | None => false
     end
  && (stars r <? count_bound)
  && (get_default (Repo.forks_count r) 0 <? count_bound)
  && (get_default (Repo.open_issues_count r) 0 <? count_bound).

(** A record set of complete records whose length and totals
    [format_number] can divide as well. *)
Definition well_formed (repos : list Repo.t) : bool :=
  forallb complete repos
  && (Z.of_nat (List.length repos) <? count_bound)
  && (sum (map stars repos) <? count_bound)
  && (sum (map (fun r => get_default (Repo.forks_count r) 0) repos) <? count_bound).

(** A record whose page cannot be built: [full_name] is absent, or [id] is
    absent and the language is a non-empty string, so that the record meets
    itself in the Similar Repositories filter. *)
Definition lacks_identity (r : Repo.t) : bool :=
  match Repo.full_name r with
  | None => true
  | Some _ =>
      match Repo.id r with
      | None => language_is (display_language r) r
      | Some _ => false
      end
  end.

(** ** Runs and paths *)

(** A run that stops on an exception. *)
Definition raises {A : Type} (m : run A) : Prop := exists e, snd m = Raise e.

(** The files of a record set, relative to the output directory and to the
    base address: home, language index, one per language, one per record. *)
Definition category_file (lang : string) : string :=
  "categories/" ++ slugify lang ++ ".html".

(** The file of a record ([full_name] is present in a complete record). *)
Definition repo_file (repo : Repo.t) : string :=
  "repos/" ++ slugify (get_default (Repo.full_name repo) "") ++ ".html".

(** All page files, in the order [main] writes them. *)
Definition page_files (repos : list Repo.t) : list string :=
  ("index.html" :: "categories/index.html"
   :: map category_file (Dict.keys (language_stats repos))
   ++ map repo_file repos)%list.

(** The number of times a path is listed. *)
Definition occurrences (x : string) (l : list string) : nat :=
  List.length (filter (String.eqb x) l).

(** ** Sample records *)

(** A record as the GitHub API gives it for a repository without a detected
    language: ["language": null]. *)
Definition null_language_repo : Repo.t :=
  {| Repo.id := Some 26;
     Repo.name := Some "dotfiles";
     Repo.full_name := Some "alice/dotfiles";
     Repo.description := Some "Configuration files";
     Repo.html_url := Some "https://github.com/alice/dotfiles";
     Repo.stargazers_count := Some 42;
     Repo.language := None;
     Repo.forks_count := Some 3;
     Repo.open_issues_count := Some 0;
     Repo.created_at := Some "2025-01-15T10:00:00Z";
     Repo.updated_at := Some "2025-01-28T15:30:00Z";
     Repo.owner :=
       Some {| Repo.login := Some "alice";
               Repo.avatar_url := Some "https://avatars.githubusercontent.com/u/26" |};
     Repo.topics := Some [] |}.

(** A repository in C. *)
Definition c_repo : Repo.t :=
  {| Repo.id := Some 27;
     Repo.name := Some "tinycc";
     Repo.full_name := Some "bob/tinycc";
     Repo.description := Some "A small C compiler";
     Repo.html_url := Some "https://github.com/bob/tinycc";
     Repo.stargazers_count := Some 3100;
     Repo.language := Some "C";
     Repo.forks_count := Some 120;
     Repo.open_issues_count := Some 14;
     Repo.created_at := Some "2025-01-15T10:00:00Z";
     Repo.updated_at := Some "2025-01-28T15:30:00Z";
     Repo.owner :=
       Some {| Repo.login := Some "bob";
               Repo.avatar_url := Some "https://avatars.githubusercontent.com/u/27" |};
     Repo.topics := Some ["compiler"] |}.

(** [r] without the key ["id"]. *)
Definition without_id (r : Repo.t) : Repo.t :=
  {| Repo.id := None;
     Repo.name := Repo.name r;
     Repo.full_name := Repo.full_name r;
     Repo.description := Repo.description r;
     Repo.html_url := Repo.html_url r;
     Repo.stargazers_count := Repo.stargazers_count r;
     Repo.language := Repo.language r;
     Repo.forks_count := Repo.forks_count r;
     Repo.open_issues_count := Repo.open_issues_count r;
     Repo.created_at := Repo.created_at r;
     Repo.updated_at := Repo.updated_at r;
     Repo.owner := Repo.owner r;
     Repo.topics := Repo.topics r |}.

(** [r] without the key ["full_name"]. *)
Definition without_full_name (r : Repo.t) : Repo.t :=
  {| Repo.id := Repo.id r;
     Repo.name := Repo.name r;
     Repo.full_name := None;
     Repo.description := Repo.description r;
     Repo.html_url := Repo.html_url r;
     Repo.stargazers_count := Repo.stargazers_count r;
     Repo.language := Repo.language r;
     Repo.forks_count := Repo.forks_count r;
     Repo.open_issues_count := Repo.open_issues_count r;
     Repo.created_at := Repo.created_at r;
     Repo.updated_at := Repo.updated_at r;
     Repo.owner := Repo.owner r;
     Repo.topics := Repo.topics r |}.

(** The first five records of the fallback data. *)
Definition mixed_languages : list Repo.t := firstn 5 get_mock_data.

(** Record 9 of the fallback data, [pythonista/fastapi-starter-template]. *)
Definition fastapi : Repo.t := nth 8 get_mock_data null_language_repo.

(** * Vocabulary of the further properties *)

(** ** Slugs *)

(** Some character of [s] is in [[a-z0-9]]. *)
Fixpoint exists_alnum (s : string) : bool :=
  match s with
  | EmptyString => false
  | String c s' => Str.is_alnum c || exists_alnum s'
  end.

(** [re.split(r'[^a-z0-9]', s)]: the pieces of [s] between the characters
    outside [[a-z0-9]]. *)
Fixpoint split_non_alnum (s : string) : list string :=
  match s with
  | EmptyString => [EmptyString]
  | String c s' =>
      if Str.is_alnum c then
        match split_non_alnum s' with
        | w :: ws => String c w :: ws
        | [] => [String c EmptyString]
        end
      else EmptyString :: split_non_alnum s'
  end.

Definition non_empty (w : string) : bool := negb (String.eqb w "").

(** [re.findall(r'[a-z0-9]+', s)]: the maximal runs of [[a-z0-9]]. *)
Definition alnum_words (s : string) : list string :=
  filter non_empty (split_non_alnum s).

(** ** Languages *)

(** A record whose language is null or empty. *)
Definition unlabelled (r : Repo.t) : bool :=
  match Repo.language r with
  | None => true
  | Some l => String.eqb l ""
  end.

(** The number of records whose language is null or empty. *)
Definition unlabelled_count (repos : list Repo.t) : Z :=
  Z.of_nat (List.length (filter unlabelled repos)).

(** What the count of a language in [language_stats] has above the number
    of records with that language field. *)
Definition unlabelled_share (lang : string) (repos : list Repo.t) : Z :=
  if String.eqb lang "Unknown" then unlabelled_count repos else 0.

(** ** [max] *)

(** One step of [max(l, key=key)]: a later element replaces the best one
    only when its key is larger. *)
Definition keep_best {A : Type} (key : A -> Z) (best y : A) : A :=
  if key y >? key best then y else best.

(** ** Links between the pages *)

(** The relative links of the header that [get_base_html] puts on every
    page: the logo, Trending and Languages.  The fourth link,
    [#categories], stays on the page. *)
Definition header_hrefs : list string :=
  ["index.html"; "index.html"; "categories/index.html"].

Definition similar_hrefs (section : option (list similar_card)) : list string :=
  match section with
  | Some cards => map sim_href cards
  | None => []
  end.

(** The relative links of a page's own content: breadcrumbs, table and
    cards.  The GitHub button of a detail page leads off the site. *)
Definition content_hrefs (f : file) : list string :=
  match f with
  | IndexHtml page =>
      (map cl_href (idx_categories page) ++ map card_href (idx_trending page))%list
  | CategoriesIndexHtml entries => "../index.html" :: map le_href entries
  | CategoryHtml page => "../index.html" :: "index.html" :: map card_href (cat_cards page)
  | RepoHtml page =>
      "../index.html" :: rp_category_href page :: similar_hrefs (rp_similar page)
  | SitemapXml _ => []
  end.

Fixpoint has_slash (s : string) : bool :=
  match s with
  | EmptyString => false
  | String c s' => Ascii.eqb c "/" || has_slash s'
  end.

(** The directory of a file path: what precedes its last slash. *)
Fixpoint dirname (path : string) : string :=
  match path with
  | EmptyString => EmptyString
  | String c path' => if has_slash path' then String c (dirname path') else EmptyString
  end.

(** The path a relative link leads to from a page in directory [dir]:
    each leading [../] goes one directory up. *)
Fixpoint resolve (dir href : string) : string :=
  match href with
  | String "." (String "." (String "/" rest)) => resolve (dirname dir) rest
  | _ => path_join dir href
  end.

(** [total_pages], the page count [main] prints at the end. *)
Definition total_pages (repos : list Repo.t) : nat :=
  1 + 1 + List.length (Dict.keys (language_stats repos)) + List.length repos.

(** The path of the file [main] writes for a record. *)
Definition repo_path (r : Repo.t) : string := "output/" ++ repo_file r.

Definition category_path (lang : string) : string := "output/" ++ category_file lang.


(** A longer record set whose last record has no [full_name]. *)
Definition nameless_last : list Repo.t :=
  (get_mock_data ++ [without_full_name c_repo])%list.

(** A record set whose first record has no [full_name]. *)
Definition nameless_first : list Repo.t :=
  without_full_name c_repo :: get_mock_data.

(** The number of distinct paths among the writes [w]. *)
Definition distinct_paths (w : list (string * file)) : nat :=
  List.length (nodup string_dec (map fst w)).

(** ** Language colours *)

Definition is_hex_digit (c : ascii) : bool :=
  let n := nat_of_ascii c in
  ((48 <=? n) && (n <=? 57) || (65 <=? n) && (n <=? 70)
   || (97 <=? n) && (n <=? 102))%nat.

(** A CSS colour of the form [#rrggbb]. *)
Definition is_hex_color (s : string) : bool :=
  match s with
  | String "#" digits =>
      (String.length digits =? 6)%nat
      && forallb is_hex_digit (list_ascii_of_string digits)
  | _ => false
  end.

(** ** The ids the Similar Repositories filter reads *)

(** Every record whose language field is the display language of [repo]
    has an id, and so has [repo] if there is such a record. *)
Definition ids_present (repo : Repo.t) (all_repos : list Repo.t) : bool :=
  forallb (fun r => negb (language_is (display_language repo) r)
                    || (is_some (Repo.id r) && is_some (Repo.id repo)))
          all_repos.

(** * Properties *)

Example slugify_full_name :
  slugify "johndoe/Awesome-AI_Assistant" = "johndoe-awesome-ai-assistant".
Proof. reflexivity. Qed.

Example slugify_cpp : slugify "C++" = "c".
Proof. reflexivity. Qed.

Example slugify_edges : slugify "--Hello,  World!--" = "hello-world".
Proof. reflexivity. Qed.

Example str_of_Z_examples :
  Str.str_of_Z 0 = "0" /\ Str.str_of_Z 950 = "950" /\ Str.str_of_Z (-17) = "-17".
Proof. repeat split; reflexivity. Qed.

(** ** Slugs *)

Module SlugFacts.

Import Str Shape.

Lemma hyphen_not_alnum : is_alnum hyphen = false.
Proof. reflexivity. Qed.

Lemma collapsed_weaken b s : collapsed true s = true -> collapsed b s = true.
Proof.
  destruct s as [|c s]; simpl; [reflexivity|].
  destruct (is_alnum c); [tauto|].
  rewrite andb_false_r. discriminate.
Qed.

Lemma sub_runs_collapsed s : forall b, collapsed b (sub_runs b s) = true.
Proof.
  induction s as [|c s IH]; intros b; simpl; [reflexivity|].
  destruct (is_alnum c) eqn:Hc; simpl.
  - rewrite Hc. apply IH.
  - destruct b.
    + apply IH.
    + cbn [collapsed]. rewrite hyphen_not_alnum. simpl. apply IH.
Qed.

Lemma sub_runs_fixed s : forall b, collapsed b s = true -> sub_runs b s = s.
Proof.
  induction s as [|c s IH]; intros b H; simpl in *; [reflexivity|].
  destruct (is_alnum c) eqn:Hc.
  - f_equal. now apply IH.
  - apply andb_true_iff in H as [H Hs].
    apply andb_true_iff in H as [Hh Hb].
    apply Ascii.eqb_eq in Hh. subst c.
    destruct b; [discriminate|].
    f_equal. now apply IH.
Qed.

Lemma lower_char_alnum c : is_alnum c = true -> lower_char c = c.
Proof.
  unfold is_alnum, lower_char. intros H.
  destruct (_ || _)%N eqn:E in |- *; [|reflexivity].
  exfalso. revert H E. generalize (code c). intros n H E.
  repeat (apply orb_true_iff in H as [H|H] || apply andb_true_iff in H as [H ?]
          || apply orb_true_iff in E as [E|E] || apply andb_true_iff in E as [E ?]);
    repeat match goal with
           | H : (_ <=? _)%N = true |- _ => apply N.leb_le in H
           end; lia.
Qed.

Lemma lower_collapsed s : forall b, collapsed b s = true -> lower s = s.
Proof.
  induction s as [|c s IH]; intros b H; simpl in *; [reflexivity|].
  destruct (is_alnum c) eqn:Hc.
  - rewrite lower_char_alnum by assumption. f_equal. eauto.
  - apply andb_true_iff in H as [H Hs].
    apply andb_true_iff in H as [Hh _].
    apply Ascii.eqb_eq in Hh. subst c.
    change (lower_char hyphen) with hyphen. f_equal. eauto.
Qed.

(** Stripping on the left: of a collapsed text, what is left does not start
    with a hyphen. *)
Lemma lstrip_collapsed s b : collapsed b s = true -> collapsed true (lstrip s) = true.
Proof.
  destruct s as [|c s]; simpl; [reflexivity|].
  destruct (is_alnum c) eqn:Hc.
  - intros H.
    destruct (Ascii.eqb c hyphen) eqn:E.
    + apply Ascii.eqb_eq in E. subst c. discriminate.
    + simpl. now rewrite Hc.
  - intros H.
    apply andb_true_iff in H as [H Hs].
    apply andb_true_iff in H as [Hh _]. rewrite Hh.
    destruct s as [|d s]; simpl in *; [reflexivity|].
    destruct (is_alnum d) eqn:Hd.
    + destruct (Ascii.eqb d hyphen) eqn:E.
      * apply Ascii.eqb_eq in E. subst d. discriminate.
      * simpl. now rewrite Hd.
    + rewrite andb_false_r in Hs. discriminate.
Qed.

Lemma lstrip_fixed s : collapsed true s = true -> lstrip s = s.
Proof.
  destruct s as [|c s]; simpl; [reflexivity|].
  destruct (is_alnum c) eqn:Hc.
  - intros _. destruct (Ascii.eqb c hyphen) eqn:E; [|reflexivity].
    apply Ascii.eqb_eq in E. subst c. discriminate.
  - rewrite andb_false_r. discriminate.
Qed.

Lemma rstrip_collapsed s : forall b, collapsed b s = true -> collapsed b (rstrip s) = true.
Proof.
  induction s as [|c s IH]; intros b H; simpl in *; [reflexivity|].
  destruct (is_alnum c) eqn:Hc.
  - specialize (IH false H).
    destruct (rstrip s) as [|d t] eqn:R.
    + destruct (Ascii.eqb c hyphen); simpl; [reflexivity|]. now rewrite Hc.
    + cbn [collapsed]. now rewrite Hc.
  - apply andb_true_iff in H as [H Hs].
    apply andb_true_iff in H as [Hh Hb].
    specialize (IH true Hs).
    destruct (rstrip s) as [|d t] eqn:R.
    + rewrite Hh. reflexivity.
    + cbn [collapsed]. rewrite Hc, Hh, Hb. exact IH.
Qed.

Lemma rstrip_no_trailing s : ends_with_hyphen (rstrip s) = false.
Proof.
  induction s as [|c s IH]; simpl; [reflexivity|].
  destruct (rstrip s) as [|d t] eqn:R.
  - destruct (Ascii.eqb c hyphen) eqn:E; simpl; [reflexivity|exact E].
  - exact IH.
Qed.

Lemma rstrip_fixed s : ends_with_hyphen s = false -> rstrip s = s.
Proof.
  induction s as [|c s IH]; simpl; [reflexivity|].
  destruct s as [|d t].
  - intros H. simpl. now rewrite H.
  - intros H. rewrite (IH H). reflexivity.
Qed.

Lemma slugify_shape text : slug_shape (slugify text).
Proof.
  unfold slugify, strip, re_sub_non_alnum. split.
  - apply rstrip_collapsed. eapply lstrip_collapsed. apply sub_runs_collapsed.
  - apply rstrip_no_trailing.
Qed.

Lemma slugify_fixed s : slug_shape s -> slugify s = s.
Proof.
  intros [Hc He]. unfold slugify, strip, re_sub_non_alnum.
  rewrite (lower_collapsed s true Hc).
  rewrite (sub_runs_fixed s false (collapsed_weaken false s Hc)).
  rewrite (lstrip_fixed s Hc). now apply rstrip_fixed.
Qed.

Lemma collapsed_chars s : forall b, collapsed b s = true ->
  Forall (fun c => is_alnum c = true \/ c = hyphen) (list_ascii_of_string s).
Proof.
  induction s as [|c s IH]; intros b H; simpl in *; [constructor|].
  destruct (is_alnum c) eqn:Hc.
  - constructor; eauto.
  - apply andb_true_iff in H as [H Hs].
    apply andb_true_iff in H as [Hh _]. apply Ascii.eqb_eq in Hh.
    constructor; eauto.
Qed.

Lemma collapsed_no_leading s t : collapsed true s = true -> s <> String hyphen t.
Proof.
  intros H ->. simpl in H. discriminate.
Qed.

Lemma ends_with_hyphen_app t : ends_with_hyphen (t ++ String hyphen EmptyString) = true.
Proof.
  induction t as [|c t IH]; simpl; [reflexivity|].
  destruct (t ++ String hyphen EmptyString) eqn:E; [|exact IH].
  destruct t; discriminate.
Qed.

End SlugFacts.

(** C5. For every string [s], [slugify s] consists of the characters a-z,
    0-9 and hyphen only, neither starts nor ends with a hyphen, and
    slugifying it again gives it back. *)
Theorem slugify_charset_trim_idempotent (s : string) :
  Forall (fun c => Str.is_alnum c = true \/ c = "-"%char)
         (list_ascii_of_string (slugify s))
  /\ (forall t, slugify s <> String "-" t)
  /\ (forall t, slugify s <> t ++ "-")
  /\ slugify (slugify s) = slugify s.
Proof.
  destruct (SlugFacts.slugify_shape s) as [Hc He].
  repeat split.
  - exact (SlugFacts.collapsed_chars _ true Hc).
  - intros t. now apply SlugFacts.collapsed_no_leading.
  - intros t E. rewrite E in He.
    pose proof (SlugFacts.ends_with_hyphen_app t) as H.
    change (String Str.hyphen "") with "-" in H. congruence.
  - apply SlugFacts.slugify_fixed. now split.
Qed.

(** ** Floats: [int / int] does not overflow on the counts of a record *)

Module FloatFacts.

Import Float.

Lemma digits2_pos_size p : digits2_pos p = Pos.size p.
Proof. induction p; simpl; congruence. Qed.

Lemma Zdigits2_nonneg m : 0 <= Zdigits2 m.
Proof. destruct m; simpl; lia. Qed.

(** A number below [2^d] has at most [d] binary digits. *)
Lemma Zdigits2_le m d : 0 <= d -> 0 <= m < 2 ^ d -> Zdigits2 m <= d.
Proof.
  intros Hd [H0 Hm]. destruct m as [|p|p]; simpl; try lia.
  rewrite digits2_pos_size.
  destruct (Z.le_gt_cases (Zpos (Pos.size p)) d) as [|Hgt]; [assumption|exfalso].
  pose proof (Pos.size_le p) as Hs.
  assert (Hpow : 2 ^ Zpos (Pos.size p) <= 2 * Zpos p).
  { change 2 with (Zpos 2) at 1. rewrite <- Pos2Z.inj_pow.
    change (2 * Zpos p) with (Zpos (p~0)). now apply Pos2Z.pos_le_pos. }
  assert (2 ^ (d + 1) <= 2 ^ Zpos (Pos.size p)) by (apply Z.pow_le_mono_r; lia).
  rewrite Z.pow_add_r in H by lia. lia.
Qed.

Lemma pos_below_pow_digits (p : positive) : Zpos p < 2 ^ Zdigits2 (Zpos p).
Proof.
  simpl. rewrite digits2_pos_size.
  pose proof (Pos.size_gt p) as H.
  apply Pos2Z.pos_lt_pos in H. rewrite Pos2Z.inj_pow in H. exact H.
Qed.

Lemma iter_pos_invariant {A : Type} (f : A -> A) (P : A -> Prop) :
  (forall x, P x -> P (f x)) ->
  forall p x, P x -> P (iter_pos f p x).
Proof.
  intros Hf. induction p as [p IH|p IH|]; intros x Hx; simpl; auto.
Qed.

Lemma shr_1_bound b mrs : 0 <= shr_m mrs <= b -> 0 <= shr_m (shr_1 mrs) <= b.
Proof.
  destruct mrs as [m r s]. simpl.
  destruct m as [|[p|p|]|[p|p|]]; simpl; lia.
Qed.

Lemma shr_record_of_loc_m m l : shr_m (shr_record_of_loc m l) = m.
Proof. destruct l as [|[]]; reflexivity. Qed.

(** What [shr_fexp] leaves: a mantissa no larger, at an exponent that is
    either the old one or the canonical one. *)
Lemma shr_fexp_bound m e l mrs e' :
  0 <= m ->
  shr_fexp prec emax m e l = (mrs, e') ->
  0 <= shr_m mrs <= m /\ e' <= Z.max e (fexp prec emax (Zdigits2 m + e)).
Proof.
  intros Hm. unfold shr_fexp, shr.
  destruct (fexp prec emax (Zdigits2 m + e) - e) as [|p|p] eqn:En;
    intros E; inversion E; subst; clear E.
  - rewrite shr_record_of_loc_m. lia.
  - split; [|lia].
    apply iter_pos_invariant with (P := fun x => 0 <= shr_m x <= m).
    + intros x. apply shr_1_bound.
    + rewrite shr_record_of_loc_m. lia.
  - rewrite shr_record_of_loc_m. lia.
Qed.

Lemma round_nearest_even_bound m l :
  0 <= m -> 0 <= round_nearest_even m l <= m + 1.
Proof.
  intros Hm. unfold round_nearest_even.
  destruct l as [|[]]; try destruct (Z.even m); lia.
Qed.

Lemma fexp_mono x y : x <= y -> fexp prec emax x <= fexp prec emax y.
Proof. unfold fexp. lia. Qed.

(** Rounding a mantissa of at most 73 digits at a non-positive exponent
    stays within the binary64 range. *)
Lemma binary_round_aux_no_overflow sx mx ex lx :
  0 <= mx < 2 ^ 73 -> ex <= 0 ->
  forall s, binary_round_aux prec emax sx mx ex lx <> S754_infinity s.
Proof.
  intros Hm He s. unfold binary_round_aux.
  destruct (shr_fexp prec emax mx ex lx) as [mrs1 e1] eqn:E1.
  apply shr_fexp_bound in E1 as [Hm1 He1]; [|lia].
  pose proof (Zdigits2_le mx 73 ltac:(lia) Hm) as Hd.
  pose proof (Zdigits2_nonneg mx) as Hd0.
  set (m1 := round_nearest_even (shr_m mrs1) (loc_of_shr_record mrs1)).
  pose proof (round_nearest_even_bound (shr_m mrs1) (loc_of_shr_record mrs1)
                ltac:(lia)) as Hr. fold m1 in Hr.
  destruct (shr_fexp prec emax m1 e1 loc_Exact) as [mrs2 e2] eqn:E2.
  apply shr_fexp_bound in E2 as [Hm2 He2]; [|lia].
  assert (Hm1' : 0 <= m1 < 2 ^ 74).
  { change (2 ^ 74) with (2 * 2 ^ 73). lia. }
  pose proof (Zdigits2_le m1 74 ltac:(lia) Hm1') as Hd1.
  pose proof (Zdigits2_nonneg m1) as Hd10.
  assert (Hf1 : fexp prec emax (Zdigits2 mx + ex) <= 20).
  { unfold fexp, emin, prec, emax. lia. }
  assert (Hf2 : fexp prec emax (Zdigits2 m1 + e1) <= 41).
  { unfold fexp, emin, prec, emax in *. lia. }
  destruct (shr_m mrs2); try discriminate.
  replace (e2 <=? emax - prec) with true; [discriminate|].
  symmetry. apply Z.leb_le. unfold emax, prec. lia.
Qed.

Lemma div_core_bound a b q e l :
  0 < a < 2 ^ 64 -> 0 < b < 2 ^ 20 ->
  SFdiv_core_binary prec emax a 0 b 0 = (q, e, l) ->
  0 <= q < 2 ^ 73 /\ e <= 0.
Proof.
  intros Ha Hb. unfold SFdiv_core_binary.
  pose proof (Zdigits2_le a 64 ltac:(lia) ltac:(lia)) as Hda.
  pose proof (Zdigits2_le b 20 ltac:(lia) ltac:(lia)) as Hdb.
  assert (Hda1 : 1 <= Zdigits2 a) by (destruct a; simpl; lia).
  assert (Hdb1 : 1 <= Zdigits2 b) by (destruct b; simpl; lia).
  assert (Halt : a < 2 ^ Zdigits2 a).
  { destruct a as [|p|p]; try lia. apply pos_below_pow_digits. }
  set (e' := Z.min (fexp prec emax (Zdigits2 a + 0 - (Zdigits2 b + 0))) (0 - 0)).
  assert (He' : e' <= 0) by (unfold e'; lia).
  assert (Hs : Zdigits2 a - e' <= 73).
  { unfold e', fexp, emin, prec, emax. lia. }
  set (m' := match 0 - 0 - e' with
             | 0 => a | Zpos _ => Z.shiftl a (0 - 0 - e') | Zneg _ => 0 end).
  assert (Hm' : 0 <= m' < 2 ^ 73).
  { subst m'. destruct (0 - 0 - e') as [|p|p] eqn:Es.
    - split; [lia|].
      apply Z.lt_le_trans with (2 ^ Zdigits2 a); [assumption|].
      apply Z.pow_le_mono_r; lia.
    - rewrite Z.shiftl_mul_pow2 by lia. split; [nia|].
      apply Z.lt_le_trans with (2 ^ Zdigits2 a * 2 ^ Zpos p).
      + apply Z.mul_lt_mono_pos_r; [apply Z.pow_pos_nonneg; lia|assumption].
      + rewrite <- Z.pow_add_r by lia. apply Z.pow_le_mono_r; lia.
    - split; [lia|]. apply Z.pow_pos_nonneg; lia. }
  destruct (Z.div_eucl m' b) as [q' r'] eqn:Ed.
  intros E. inversion E; subst; clear E.
  assert (Hq : q = m' / b) by (unfold Z.div; now rewrite Ed).
  split; [|assumption].
  split.
  - rewrite Hq. apply Z.div_pos; lia.
  - rewrite Hq. apply Z.le_lt_trans with m'; [|lia].
    apply Z.div_le_upper_bound; nia.
Qed.

(** [a / b] is a float, not an exception, for a count below [2^64] and the
    two divisors of [format_number]. *)
Lemma int_true_divide_ok a b :
  0 < a < 2 ^ 64 -> 0 < b < 2 ^ 20 ->
  exists x, int_true_divide a b = Ok x.
Proof.
  intros Ha Hb. unfold int_true_divide.
  replace (b =? 0) with false by (symmetry; apply Z.eqb_neq; lia).
  replace (a =? 0) with false by (symmetry; apply Z.eqb_neq; lia).
  rewrite (Z.abs_eq a), (Z.abs_eq b) by lia.
  destruct (SFdiv_core_binary prec emax a 0 b 0) as [[q e] l] eqn:E.
  apply div_core_bound in E as [Hq He]; try assumption.
  pose proof (binary_round_aux_no_overflow (xorb (a <? 0) (b <? 0)) q e l Hq He) as H.
  destruct (binary_round_aux prec emax (xorb (a <? 0) (b <? 0)) q e l);
    eauto. exfalso. eapply H. reflexivity.
Qed.

Lemma new_location_ok b r :
  Z.even b = true -> 0 <= r < b -> loc_ok b r (new_location b r).
Proof.
  intros Hb Hr. unfold new_location, new_location_even. rewrite Hb.
  destruct (Z.eqb_spec r 0) as [->|Hne]; [reflexivity|].
  destruct (Z.compare_spec (2 * r) b); cbn [loc_ok]; lia.
Qed.

Lemma Zdigits2_ge m d : 0 < d -> 2 ^ (d - 1) <= m -> d <= Zdigits2 m.
Proof.
  intros Hd Hm.
  assert (0 < m) by (pose proof (Z.pow_pos_nonneg 2 (d - 1)); lia).
  destruct m as [|p|p]; try lia.
  pose proof (pos_below_pow_digits p) as Hp.
  destruct (Z.le_gt_cases d (Zdigits2 (Zpos p))) as [|Hgt]; [assumption|exfalso].
  assert (2 ^ Zdigits2 (Zpos p) <= 2 ^ (d - 1)).
  { apply Z.pow_le_mono_r; [lia|]. lia. }
  lia.
Qed.

Lemma Zdigits2_bounds m : 0 < m -> 2 ^ (Zdigits2 m - 1) <= m < 2 ^ Zdigits2 m.
Proof.
  intros Hm. destruct m as [|p|p]; try lia. split; [|apply pos_below_pow_digits].
  change (Zdigits2 (Zpos p)) with (Zpos (digits2_pos p)).
  rewrite digits2_pos_size.
  pose proof (Pos.size_le p) as Hs.
  assert (Hpow : 2 ^ Zpos (Pos.size p) <= 2 * Zpos p).
  { change 2 with (Zpos 2) at 1. rewrite <- Pos2Z.inj_pow.
    change (2 * Zpos p) with (Zpos (p~0)). now apply Pos2Z.pos_le_pos. }
  assert (E : 2 ^ Zpos (Pos.size p) = 2 * 2 ^ (Zpos (Pos.size p) - 1)).
  { rewrite <- Z.pow_succ_r by lia. f_equal. lia. }
  lia.
Qed.

Lemma loc_of_record_of_loc m l : loc_of_shr_record (shr_record_of_loc m l) = l.
Proof. destruct l as [|[]]; reflexivity. Qed.

(** The second normalisation: a rounded mantissa of 53 digits stays, the
    mantissa [2^53] becomes [2^52] one exponent up. *)
Lemma renormalise m1 e1 :
  2 ^ 52 <= m1 <= 2 ^ 53 -> -1074 <= e1 <= 900 ->
  exists m2 j,
    (let '(mrs, e2) := shr_fexp prec emax m1 e1 loc_Exact in
     match shr_m mrs with
     | 0 => S754_zero false
     | Zpos m => if e2 <=? emax - prec then S754_finite false m e2
                 else S754_infinity false
     | Zneg _ => S754_nan
     end) = S754_finite false m2 (e1 + j)
    /\ (j = 0 \/ j = 1) /\ Zpos m2 * 2 ^ j = m1.
Proof.
  intros Hm He.
  destruct (Z.eq_dec m1 (2 ^ 53)) as [->|Hne].
  - exists (2 ^ 52)%positive, 1. split; [|split; [now right|reflexivity]].
    unfold shr_fexp.
    replace (fexp prec emax (Zdigits2 (2 ^ 53) + e1) - e1) with 1
      by (unfold fexp, emin, prec, emax; change (Zdigits2 (2 ^ 53)) with 54; lia).
    cbn [shr shr_record_of_loc iter_pos]. 
    change (shr_m (shr_1 {| shr_m := 2 ^ 53; shr_r := false; shr_s := false |}))
      with (2 ^ 52).
    change (2 ^ 52) with (Zpos (2 ^ 52)).
    replace (e1 + 1 <=? emax - prec) with true; [reflexivity|].
    symmetry. apply Z.leb_le. unfold emax, prec. lia.
  - assert (Hd : Zdigits2 m1 = 53).
    { apply Z.le_antisymm.
      - apply Zdigits2_le; lia.
      - apply Zdigits2_ge; lia. }
    destruct m1 as [|p|p]; try lia.
    exists p, 0. split; [|split; [now left|lia]].
    unfold shr_fexp. rewrite Hd.
    replace (fexp prec emax (53 + e1) - e1) with 0
      by (unfold fexp, emin, prec, emax; lia).
    cbn [shr shr_record_of_loc shr_m].
    rewrite Z.add_0_r.
    replace (e1 <=? emax - prec) with true; [reflexivity|].
    symmetry. apply Z.leb_le. unfold emax, prec. lia.
Qed.

Lemma rne_cases m l :
  round_nearest_even m l = m \/ round_nearest_even m l = m + 1.
Proof. unfold round_nearest_even. destruct l as [|[]]; try destruct (Z.even m); auto. Qed.

(** The first rounding: the quotient [q + r/b], of 53 or 54 digits, goes to
    the nearest mantissa of 53 digits. *)
Lemma first_round q e l b r :
  2 ^ 52 <= q < 2 ^ 54 -> -1070 <= e <= 900 -> 0 <= r < b -> loc_ok b r l ->
  exists mrs i m1,
    shr_fexp prec emax q e l = (mrs, e + i)
    /\ round_nearest_even (shr_m mrs) (loc_of_shr_record mrs) = m1
    /\ (i = 0 \/ i = 1)
    /\ 2 ^ 52 <= m1 <= 2 ^ 53
    /\ Z.abs (2 * b * m1 * 2 ^ i - 2 * (b * q + r)) <= b * 2 ^ i.
Proof.
  intros Hq He Hr Hl.
  destruct (Z.lt_ge_cases q (2 ^ 53)) as [Hlt|Hge].
  - assert (Hd : Zdigits2 q = 53).
    { apply Z.le_antisymm; [apply Zdigits2_le; lia|apply Zdigits2_ge; lia]. }
    exists (shr_record_of_loc q l), 0, (round_nearest_even q l).
    split; [|split; [|split; [now left|]]].
    + unfold shr_fexp. rewrite Hd.
      replace (fexp prec emax (53 + e) - e) with 0
        by (unfold fexp, emin, prec, emax; lia).
      cbn [shr]. now rewrite Z.add_0_r.
    + now rewrite shr_record_of_loc_m, loc_of_record_of_loc.
    + change (2 ^ 0) with 1. unfold round_nearest_even.
      destruct l as [|[]]; cbn [loc_ok] in Hl;
        try destruct (Z.even q); split; lia.
  - assert (Hd : Zdigits2 q = 54).
    { apply Z.le_antisymm; [apply Zdigits2_le; lia|apply Zdigits2_ge; lia]. }
    assert (Hshift : shr_fexp prec emax q e l
                     = (shr_1 (shr_record_of_loc q l), e + 1)).
    { unfold shr_fexp. rewrite Hd.
      replace (fexp prec emax (54 + e) - e) with 1
        by (unfold fexp, emin, prec, emax; lia).
      reflexivity. }
    exists (shr_1 (shr_record_of_loc q l)), 1.
    eexists. split; [exact Hshift|]. split; [reflexivity|]. split; [now right|].
    change (2 ^ 1) with 2.
    destruct q as [|p|p]; try lia.
    destruct p as [p|p|]; try lia.
    + assert (Hp : 2 ^ 52 <= Zpos p < 2 ^ 53) by lia.
      destruct l as [|[]]; cbn [loc_ok] in Hl;
        cbn [shr_record_of_loc shr_1 shr_m loc_of_shr_record orb
             round_nearest_even];
        rewrite Pos2Z.inj_xI in *;
        try destruct (Z.even (Zpos p)); split; lia.
    + assert (Hp : 2 ^ 52 <= Zpos p < 2 ^ 53) by lia.
      destruct l as [|[]]; cbn [loc_ok] in Hl;
        cbn [shr_record_of_loc shr_1 shr_m loc_of_shr_record orb
             round_nearest_even];
        rewrite Pos2Z.inj_xO in *;
        try destruct (Z.even (Zpos p)); split; lia.
Qed.

Lemma div_core_spec a b d2 :
  0 < a -> 0 < b -> Zdigits2 b = d2 -> d2 <= 64 -> Zdigits2 a <= d2 + 50 ->
  exists q r,
    SFdiv_core_binary prec emax a 0 b 0
    = (q, Zdigits2 a - d2 - 53, new_location b r)
    /\ 0 <= r < b
    /\ b * q + r = a * 2 ^ (d2 + 53 - Zdigits2 a)
    /\ 2 ^ 52 <= q < 2 ^ 54.
Proof.
  intros Ha Hb Hd2 Hd2' Hd1.
  pose proof (Zdigits2_bounds a Ha) as Ha'.
  pose proof (Zdigits2_bounds b Hb) as Hb'. rewrite Hd2 in Hb'.
  assert (Hd1' : 1 <= Zdigits2 a) by (destruct a; simpl; lia).
  assert (Hd2'' : 1 <= d2) by (subst d2; destruct b; simpl; lia).
  set (d1 := Zdigits2 a) in *.
  set (s := d2 + 53 - d1).
  assert (Hs : 3 <= s) by (unfold s; lia).
  exists (a * 2 ^ s / b), (a * 2 ^ s mod b).
  pose proof (Z.div_mod (a * 2 ^ s) b ltac:(lia)) as Hdm.
  pose proof (Z.mod_pos_bound (a * 2 ^ s) b Hb) as Hmod.
  assert (Hpow : 2 ^ (d1 - 1) * 2 ^ s = 2 ^ 53 * 2 ^ (d2 - 1)).
  { rewrite <- !Z.pow_add_r by lia. f_equal. unfold s. lia. }
  assert (Hpow' : 2 ^ d1 * 2 ^ s = 2 ^ 54 * 2 ^ (d2 - 1)).
  { rewrite <- !Z.pow_add_r by lia. f_equal. unfold s. lia. }
  assert (Hb2 : 2 ^ d2 = 2 * 2 ^ (d2 - 1)).
  { rewrite <- Z.pow_succ_r by lia. f_equal. lia. }
  assert (HS : 0 < 2 ^ s) by (apply Z.pow_pos_nonneg; lia).
  assert (Hlo : 2 ^ 53 * 2 ^ (d2 - 1) <= a * 2 ^ s).
  { rewrite <- Hpow. apply Z.mul_le_mono_nonneg_r; lia. }
  assert (Hhi : a * 2 ^ s < 2 ^ 54 * 2 ^ (d2 - 1)).
  { rewrite <- Hpow'. apply Z.mul_lt_mono_pos_r; lia. }
  split; [|split; [assumption|split; [lia|]]].
  - unfold SFdiv_core_binary. rewrite Hd2. fold d1.
    replace (Z.min (fexp prec emax (d1 + 0 - (d2 + 0))) (0 - 0)) with (d1 - d2 - 53)
      by (unfold fexp, emin, prec, emax; lia).
    replace (0 - 0 - (d1 - d2 - 53)) with s by (unfold s; lia).
    destruct s as [|ps|ps] eqn:Es; try lia.
    rewrite Z.shiftl_mul_pow2 by lia.
    unfold Z.div, Z.modulo.
    destruct (Z.div_eucl (a * 2 ^ Zpos ps) b) as [q r]. reflexivity.
  - split.
    + apply Z.div_le_lower_bound; [lia|]. nia.
    + apply Z.div_lt_upper_bound; [lia|]. nia.
Qed.

(** [a / b] is the float nearest to the quotient: within half a unit of its
    last place. *)
Lemma int_true_divide_nearest a b d2 :
  0 < a -> 0 < b -> Z.even b = true ->
  Zdigits2 b = d2 -> d2 <= 64 -> Zdigits2 a <= d2 + 50 ->
  exists m2 e2,
    int_true_divide a b = Ok (S754_finite false m2 e2)
    /\ d2 + 51 - Zdigits2 a <= - e2 <= d2 + 53 - Zdigits2 a
    /\ Z.abs (2 * b * Zpos m2 - 2 * a * 2 ^ (- e2)) <= b.
Proof.
  intros Ha Hb Heven Hd2 Hd2' Hd1.
  assert (Hd1' : 1 <= Zdigits2 a) by (destruct a; simpl; lia).
  assert (Hd2'' : 1 <= d2) by (subst d2; destruct b; simpl; lia).
  destruct (div_core_spec a b d2 Ha Hb Hd2 Hd2' Hd1)
    as (q & r & Hdiv & Hr & Hqr & Hq).
  set (e := Zdigits2 a - d2 - 53) in *.
  destruct (first_round q e (new_location b r) b r Hq ltac:(unfold e; lia) Hr
              (new_location_ok b r Heven Hr))
    as (mrs & i & m1 & Hshift & Hm1 & Hi & Hm1b & Herr).
  destruct (renormalise m1 (e + i) Hm1b ltac:(unfold e; lia))
    as (m2 & j & Hren & Hj & Hm2).
  exists m2, (e + i + j). split; [|split].
  - unfold int_true_divide.
    replace (b =? 0) with false by (symmetry; apply Z.eqb_neq; lia).
    replace (a =? 0) with false by (symmetry; apply Z.eqb_neq; lia).
    replace (a <? 0) with false by (symmetry; apply Z.ltb_ge; lia).
    replace (b <? 0) with false by (symmetry; apply Z.ltb_ge; lia).
    rewrite (Z.abs_eq a), (Z.abs_eq b) by lia.
    rewrite Hdiv. cbn [xorb]. unfold binary_round_aux.
    rewrite Hshift, Hm1, Hren. reflexivity.
  - unfold e. lia.
  - assert (HP : 0 < 2 ^ (- (e + i + j))) by (apply Z.pow_pos_nonneg; unfold e; lia).
    assert (HS : 2 ^ (d2 + 53 - Zdigits2 a) = 2 ^ (- (e + i + j)) * 2 ^ (i + j)).
    { rewrite <- Z.pow_add_r by (unfold e; lia). f_equal. unfold e. lia. }
    rewrite HS in Hqr.
    set (P := 2 ^ (- (e + i + j))) in *.
    destruct Hi as [-> | ->], Hj as [-> | ->];
      change (2 ^ (0 + 0)) with 1 in *; change (2 ^ (0 + 1)) with 2 in *;
      change (2 ^ (1 + 0)) with 2 in *; change (2 ^ (1 + 1)) with 4 in *;
      change (2 ^ 0) with 1 in *; change (2 ^ 1) with 2 in *;
      subst m1; lia.
Qed.

Lemma tenths_nearest m e :
  e < 0 ->
  0 <= tenths m e /\ Z.abs (2 * 2 ^ (- e) * tenths m e - 20 * Zpos m) <= 2 ^ (- e).
Proof.
  intros He. destruct e as [|p|p]; try lia.
  unfold tenths. change (- Zneg p) with (Zpos p).
  assert (Hd : 0 < 2 ^ Zpos p) by (apply Z.pow_pos_nonneg; lia).
  set (d := 2 ^ Zpos p) in *.
  pose proof (Z.div_mod (10 * Zpos m) d ltac:(lia)) as Hdm.
  pose proof (Z.mod_pos_bound (10 * Zpos m) d Hd) as Hmod.
  assert (Hq : 0 <= 10 * Zpos m / d) by (apply Z.div_pos; lia).
  set (q := 10 * Zpos m / d) in *. set (r := (10 * Zpos m) mod d) in *.
  destruct (Z.compare_spec (2 * r) d); try destruct (Z.even q); split; nia.
Qed.

Lemma format_1f_finite m e :
  format_1f (S754_finite false m e) = fixed_1 (tenths m e).
Proof. reflexivity. Qed.

(** The tenths shown for [a / b] are the nearest to the exact quotient. *)
Lemma quotient_tenths_nearest a b d2 :
  0 < a -> 0 < b -> (20 | b) ->
  Zdigits2 b = d2 -> d2 <= 64 -> Zdigits2 a <= d2 + 50 ->
  b < 2 ^ (d2 + 52 - Zdigits2 a) ->
  exists x t,
    int_true_divide a b = Ok x /\ format_1f x = fixed_1 t
    /\ 0 <= t /\ Z.abs (b * t - 10 * a) <= b / 2.
Proof.
  intros Ha Hb [c Hc] Hd2 Hd2' Hd1 Hbig.
  assert (Heven : Z.even b = true).
  { subst b. rewrite Z.even_mul. apply orb_true_r. }
  destruct (int_true_divide_nearest a b d2 Ha Hb Heven Hd2 Hd2' Hd1)
    as (m2 & e2 & Hdiv & He2 & Herr).
  assert (Hd1' : 1 <= Zdigits2 a) by (destruct a; simpl; lia).
  destruct (tenths_nearest m2 e2 ltac:(lia)) as [Ht0 Ht].
  exists (S754_finite false m2 e2), (tenths m2 e2).
  split; [assumption|]. split; [apply format_1f_finite|]. split; [assumption|].
  assert (HP : 2 ^ (d2 + 51 - Zdigits2 a) <= 2 ^ (- e2))
    by (apply Z.pow_le_mono_r; lia).
  assert (HP2 : 2 ^ (d2 + 52 - Zdigits2 a) = 2 * 2 ^ (d2 + 51 - Zdigits2 a)).
  { rewrite <- Z.pow_succ_r by lia. f_equal. lia. }
  set (P := 2 ^ (- e2)) in *. set (t := tenths m2 e2) in *.
  assert (Hb2 : b / 2 = 10 * c)
    by (subst b; symmetry; apply Z.div_unique with 0; lia).
  rewrite Hb2. subst b.
  assert (Hc : 0 < c) by lia.
  destruct (Z.le_gt_cases (Z.abs (c * 20 * t - 10 * a)) (10 * c)) as [|Hgt];
    [assumption|exfalso].
  assert (Hstep : 10 * c + 10 <= Z.abs (c * 20 * t - 10 * a)).
  { replace (c * 20 * t - 10 * a) with (10 * (2 * c * t - a)) in * by ring.
    lia. }
  assert (Hmul : (10 * c + 10) * P <= Z.abs (c * 20 * t - 10 * a) * P).
  { apply Z.mul_le_mono_nonneg_r; lia. }
  assert (Habs : Z.abs (c * 20 * t - 10 * a) * P
                 = Z.abs (20 * (c * (P * t)) - 10 * (a * P))).
  { rewrite <- (Z.abs_eq P) at 1 by lia. rewrite <- Z.abs_mul. f_equal. ring. }
  rewrite Habs in Hmul.
  assert (E1 : 2 * (c * 20) * Z.pos m2 = 40 * (c * Zpos m2)) by ring.
  assert (E2 : 2 * a * P = 2 * (a * P)) by ring.
  assert (E3 : 2 * P * t = 2 * (P * t)) by ring.
  rewrite E1, E2 in Herr. rewrite E3 in Ht.
  assert (Ht' : Z.abs (2 * (c * (P * t)) - 20 * (c * Zpos m2)) <= c * P).
  { replace (2 * (c * (P * t)) - 20 * (c * Zpos m2))
      with (c * (2 * (P * t) - 20 * Zpos m2)) by ring.
    rewrite Z.abs_mul, (Z.abs_eq c) by lia.
    apply Z.mul_le_mono_nonneg_l; lia. }
  lia.
Qed.

End FloatFacts.

(** [format_number] returns a string for every count below [2^64]. *)
Lemma format_number_ok (num : Z) :
  num < 2 ^ 64 -> exists s, format_number num = Ok s.
Proof.
  intros H. unfold format_number.
  destruct (num >=? 1000000) eqn:E1.
  - apply Z.geb_le in E1.
    destruct (FloatFacts.int_true_divide_ok num 1000000) as [x Hx]; [lia|lia|].
    rewrite Hx. simpl. eauto.
  - destruct (num >=? 1000) eqn:E2.
    + apply Z.geb_le in E2.
      destruct (FloatFacts.int_true_divide_ok num 1000) as [x Hx]; [lia|lia|].
      rewrite Hx. simpl. eauto.
    + eauto.
Qed.

(** ** The error monad *)

Module ResFacts.

Lemma bind_ok {A B : Type} (m : result A) (k : A -> result B) (b : B) :
  Res.bind m k = Ok b -> exists a, m = Ok a /\ k a = Ok b.
Proof. destruct m; simpl; [eauto|discriminate]. Qed.

(** A comprehension that returns has run its body on every element. *)
Lemma mapM_ok {A B : Type} (f : A -> result B) (l : list A) (ys : list B) :
  Res.mapM f l = Ok ys -> Forall2 (fun x y => f x = Ok y) l ys.
Proof.
  revert ys. induction l as [|x l IH]; simpl; intros ys H.
  - inversion H. constructor.
  - apply bind_ok in H as (y & Hy & H).
    apply bind_ok in H as (ys' & Hys & H). inversion H; subst.
    constructor; auto.
Qed.

Lemma mapM_total {A B : Type} (f : A -> result B) (l : list A) :
  (forall x, In x l -> exists y, f x = Ok y) ->
  exists ys, Res.mapM f l = Ok ys.
Proof.
  induction l as [|x l IH]; simpl; intros H; [eauto|].
  destruct (H x (or_introl eq_refl)) as [y ->].
  destruct IH as [ys ->]; [intros; apply H; now right|].
  simpl. eauto.
Qed.

Lemma mapM_raise {A B : Type} (f : A -> result B) (l : list A) (x : A) (e : exn) :
  In x l -> f x = Raise e -> exists e', Res.mapM f l = Raise e'.
Proof.
  induction l as [|y l IH]; simpl; [tauto|].
  intros [->|Hin] Hx.
  - rewrite Hx. simpl. eauto.
  - destruct (f y); simpl; [|eauto].
    destruct (IH Hin Hx) as [e' ->]. simpl. eauto.
Qed.

Lemma Forall2_map_eq {A B C : Type} (R : A -> B -> Prop) (g : B -> C) (h : A -> C)
    (l : list A) (ys : list B) :
  (forall x y, R x y -> g y = h x) ->
  Forall2 R l ys -> map g ys = map h l.
Proof.
  intros Hgh H. induction H; simpl; [reflexivity|].
  f_equal; auto.
Qed.

(** A filter that returns has kept the elements its condition accepts. *)
Lemma filterM_ok {A : Type} (p : A -> result bool) (q : A -> bool)
    (l xs : list A) :
  (forall x b, In x l -> p x = Ok b -> b = q x) ->
  Res.filterM p l = Ok xs -> xs = filter q l.
Proof.
  revert xs. induction l as [|x l IH]; simpl; intros xs Hpq H.
  - now inversion H.
  - apply bind_ok in H as (b & Hb & H).
    apply bind_ok in H as (xs' & Hxs & H). inversion H; subst.
    rewrite <- (Hpq x b (or_introl eq_refl) Hb).
    rewrite (IH xs'); auto.
Qed.

Lemma filterM_total {A : Type} (p : A -> result bool) (l : list A) :
  (forall x, In x l -> exists b, p x = Ok b) ->
  exists xs, Res.filterM p l = Ok xs.
Proof.
  induction l as [|x l IH]; simpl; intros H; [eauto|].
  destruct (H x (or_introl eq_refl)) as [b ->].
  destruct IH as [xs ->]; [intros; apply H; now right|].
  simpl. eauto.
Qed.

Lemma filterM_raise {A : Type} (p : A -> result bool) (l : list A) (x : A) (e : exn) :
  In x l -> p x = Raise e -> exists e', Res.filterM p l = Raise e'.
Proof.
  induction l as [|y l IH]; simpl; [tauto|].
  intros [->|Hin] Hx.
  - rewrite Hx. simpl. eauto.
  - destruct (p y); simpl; [|eauto].
    destruct (IH Hin Hx) as [e' ->]. simpl. eauto.
Qed.

End ResFacts.

(** ** Stable sorting *)

Section SortFacts.

Context {A : Type}.
Variable lt : A -> A -> bool.

Lemma insert_perm x s : Permutation (insert lt x s) (x :: s).
Proof.
  induction s as [|y s IH]; simpl; [reflexivity|].
  destruct (lt y x); [|reflexivity].
  rewrite IH. apply perm_swap.
Qed.

Lemma stable_sort_perm l : Permutation (stable_sort lt l) l.
Proof.
  induction l as [|x l IH]; simpl; [reflexivity|].
  rewrite insert_perm. now constructor.
Qed.

Lemma stable_sort_in l x : In x (stable_sort lt l) <-> In x l.
Proof.
  split; apply Permutation_in; [|symmetry]; apply stable_sort_perm.
Qed.

Lemma stable_sort_length l : List.length (stable_sort lt l) = List.length l.
Proof. apply Permutation_length, stable_sort_perm. Qed.

(** Elements of one class, none of which has to come before another, keep
    their input order. *)
Section Stable.

Variable same : A -> bool.
Hypothesis same_unordered :
  forall a b, same a = true -> same b = true -> lt a b = false.

Lemma insert_filter x s :
  filter same (insert lt x s) = filter same (x :: s).
Proof.
  induction s as [|y s IH]; [reflexivity|].
  cbn [insert]. destruct (lt y x) eqn:E; [|reflexivity].
  cbn [filter] in *. rewrite IH.
  destruct (same y) eqn:Hy, (same x) eqn:Hx; try reflexivity.
  rewrite (same_unordered y x Hy Hx) in E. discriminate.
Qed.

Lemma stable_sort_filter l : filter same (stable_sort lt l) = filter same l.
Proof.
  induction l as [|x l IH]; [reflexivity|].
  cbn [stable_sort]. rewrite insert_filter. cbn [filter]. now rewrite IH.
Qed.

End Stable.

(** The output is ordered: no element has to come before its predecessor. *)
Section Ordered.

Hypothesis lt_asym : forall a b, lt a b = true -> lt b a = false.

Lemma insert_hd x s a :
  HdRel (ordered lt) a s -> ordered lt a x -> HdRel (ordered lt) a (insert lt x s).
Proof.
  destruct s as [|y s]; simpl; intros Hs Hx.
  - now constructor.
  - destruct (lt y x); constructor; auto. now inversion Hs.
Qed.

Lemma insert_sorted x s :
  Sorted (ordered lt) s -> Sorted (ordered lt) (insert lt x s).
Proof.
  induction 1 as [|y s Hs IH Hhd]; simpl.
  - repeat constructor.
  - destruct (lt y x) eqn:E.
    + constructor; [assumption|].
      apply insert_hd; [assumption|]. now apply lt_asym.
    + constructor; [now constructor|]. now constructor.
Qed.

Lemma stable_sort_sorted l : Sorted (ordered lt) (stable_sort lt l).
Proof.
  induction l as [|x l IH]; simpl; [constructor|]. now apply insert_sorted.
Qed.

End Ordered.

End SortFacts.

(** [sort_desc] : descending keys, a permutation, equal keys in input order. *)
Lemma sort_desc_sorted {A : Type} (key : A -> Z) (l : list A) :
  StronglySorted (fun a b => key a >= key b) (sort_desc key l).
Proof.
  apply Sorted_StronglySorted; [intros a b c; lia|].
  unfold sort_desc.
  eapply Sorted_ind with (P := Sorted (fun a b => key a >= key b));
    [constructor| |apply (stable_sort_sorted (fun a b => key a >? key b))].
  - intros a s _ IH Hhd. constructor; [assumption|].
    destruct Hhd as [|b s Hb]; constructor. unfold ordered in Hb.
    pose proof (Zgt_cases (key b) (key a)) as Hc. rewrite Hb in Hc. lia.
  - intros a b H.
    pose proof (Zgt_cases (key a) (key b)) as Hc. rewrite H in Hc.
    pose proof (Zgt_cases (key b) (key a)) as Hd.
    destruct (key b >? key a); [lia|reflexivity].
Qed.

Lemma sort_desc_stable {A : Type} (key : A -> Z) (l : list A) (k : Z) :
  filter (fun a => key a =? k) (sort_desc key l) = filter (fun a => key a =? k) l.
Proof.
  apply stable_sort_filter. intros a b Ha Hb.
  apply Z.eqb_eq in Ha, Hb.
  pose proof (Zgt_cases (key a) (key b)) as Hc.
  destruct (key a >? key b); [lia|reflexivity].
Qed.

Lemma sort_desc_in {A : Type} (key : A -> Z) (l : list A) (x : A) :
  In x (sort_desc key l) <-> In x l.
Proof. apply stable_sort_in. Qed.

Lemma firstn_In {A : Type} (n : nat) (l : list A) (x : A) :
  In x (firstn n l) -> In x l.
Proof.
  intros H. rewrite <- (firstn_skipn n l). apply in_or_app. now left.
Qed.

Lemma StronglySorted_firstn {A : Type} (R : A -> A -> Prop) (n : nat) (l : list A) :
  StronglySorted R l -> StronglySorted R (firstn n l).
Proof.
  revert n. induction l as [|x l IH]; intros [|n] H; simpl; try constructor.
  - inversion H; subst. auto.
  - inversion H; subst.
    apply Forall_forall. intros y Hy. apply firstn_In in Hy.
    eapply Forall_forall in H3; eauto.
Qed.

Lemma filter_firstn_prefix {A : Type} (p : A -> bool) (n : nat) (l : list A) :
  exists rest, filter p l = (filter p (firstn n l) ++ rest)%list.
Proof.
  exists (filter p (skipn n l)).
  rewrite <- filter_app. now rewrite firstn_skipn.
Qed.

(** ** Number formatting *)

(** From 1000 up to 999999 the digits shown are the tenths nearest to
    [n / 1000]. *)
Lemma format_number_thousands n :
  1000 <= n < 1000000 ->
  exists t, format_number n = Ok (Float.fixed_1 t ++ "k")%string
            /\ 0 <= t /\ Z.abs (100 * t - n) <= 50.
Proof.
  intros Hn.
  pose proof (FloatFacts.Zdigits2_le n 20 ltac:(lia) ltac:(lia)) as Hd.
  assert (Hd1 : 1 <= SpecFloat.Zdigits2 n) by (destruct n; simpl; lia).
  destruct (FloatFacts.quotient_tenths_nearest n 1000 10) as (x & t & Hx & Hf & Ht0 & Ht);
    try lia; try reflexivity.
  - exists 50. reflexivity.
  - apply Z.lt_le_trans with (2 ^ 42); [reflexivity|].
    apply Z.pow_le_mono_r; lia.
  - exists t. split; [|split; [assumption|]].
    + unfold format_number.
      replace (n >=? 1000000) with false
        by (symmetry; rewrite Z.geb_leb; apply Z.leb_gt; lia).
      replace (n >=? 1000) with true
        by (symmetry; rewrite Z.geb_leb; apply Z.leb_le; lia).
      rewrite Hx. cbn [Res.bind]. now rewrite Hf.
    + change (1000 / 2) with 500 in Ht. lia.
Qed.

(** From 1000000 up to [2^52] the digits shown are the tenths nearest to
    [n / 1000000]. *)
Lemma format_number_millions n :
  1000000 <= n < 2 ^ 52 ->
  exists t, format_number n = Ok (Float.fixed_1 t ++ "m")%string
            /\ 0 <= t /\ Z.abs (100000 * t - n) <= 50000.
Proof.
  intros Hn.
  pose proof (FloatFacts.Zdigits2_le n 52 ltac:(lia) ltac:(lia)) as Hd.
  assert (Hd1 : 1 <= SpecFloat.Zdigits2 n) by (destruct n; simpl; lia).
  destruct (FloatFacts.quotient_tenths_nearest n 1000000 20) as (x & t & Hx & Hf & Ht0 & Ht);
    try lia; try reflexivity.
  - exists 50000. reflexivity.
  - apply Z.lt_le_trans with (2 ^ 20); [reflexivity|].
    apply Z.pow_le_mono_r; lia.
  - exists t. split; [|split; [assumption|]].
    + unfold format_number.
      replace (n >=? 1000000) with true
        by (symmetry; rewrite Z.geb_leb; apply Z.leb_le; lia).
      rewrite Hx. cbn [Res.bind]. now rewrite Hf.
    + change (1000000 / 2) with 500000 in Ht. lia.
Qed.

(** C4, as stated, fails: [1250000 / 1000000] is exactly [1.25], and the
    [.1f] format resolves the tie to the even digit. *)
Lemma format_number_1250000_is_not_1_3m :
  format_number 1250000 = Ok "1.2m" /\ format_number 1250000 <> Ok "1.3m".
Proof. split; [vm_compute; reflexivity|vm_compute; discriminate]. Qed.

(** C4, amended. [format_number n] is the decimal string of [n] below 1000;
    from 1000 up to 999999 it shows, followed by "k", the tenths nearest to
    [n / 1000], and from 1000000 up to [2^52], followed by "m", the tenths
    nearest to [n / 1000000]: the [.1f] format of the binary64 quotient,
    which resolves a tie of the binary value to the even digit.  From
    1000000 on it is the quotient [n / 1000000] in that format followed by
    "m", a string for every [n] below [2^64].  In particular 950, 999,
    1000, 12500, 999999, 1000000 and 1250000 give "950", "999", "1.0k",
    "12.5k", "1000.0k", "1.0m" and "1.2m". *)
Theorem format_number_branches_and_examples :
  (forall n, n < 1000 -> format_number n = Ok (Str.str_of_Z n))
  /\ (forall n, 1000 <= n < 1000000 ->
        exists t, format_number n = Ok (Float.fixed_1 t ++ "k")
                  /\ 0 <= t /\ Z.abs (100 * t - n) <= 50)
  /\ (forall n, 1000000 <= n < 2 ^ 52 ->
        exists t, format_number n = Ok (Float.fixed_1 t ++ "m")
                  /\ 0 <= t /\ Z.abs (100000 * t - n) <= 50000)
  /\ (forall n, 1000000 <= n ->
        format_number n =
        Res.bind (Float.int_true_divide n 1000000)
                 (fun x => Ok (Float.format_1f x ++ "m")))
  /\ (forall n, n < 2 ^ 64 -> exists s, format_number n = Ok s)
  /\ format_number 950 = Ok "950"
  /\ format_number 999 = Ok "999"
  /\ format_number 1000 = Ok "1.0k"
  /\ format_number 12500 = Ok "12.5k"
  /\ format_number 999999 = Ok "1000.0k"
  /\ format_number 1000000 = Ok "1.0m"
  /\ format_number 1250000 = Ok "1.2m".
Proof.
  split; [|split; [|split; [|split; [|split]]]].
  - intros n H. unfold format_number.
    replace (n >=? 1000000) with false
      by (symmetry; rewrite Z.geb_leb; apply Z.leb_gt; lia).
    replace (n >=? 1000) with false
      by (symmetry; rewrite Z.geb_leb; apply Z.leb_gt; lia).
    reflexivity.
  - exact format_number_thousands.
  - exact format_number_millions.
  - intros n H. unfold format_number.
    replace (n >=? 1000000) with true
      by (symmetry; rewrite Z.geb_leb; apply Z.leb_le; lia).
    reflexivity.
  - exact format_number_ok.
  - repeat split; vm_compute; reflexivity.
Qed.

Lemma format_number_branches_and_examples_witness :
  exists t, format_number 8900 = Ok (Float.fixed_1 t ++ "k")
            /\ 0 <= t /\ Z.abs (100 * t - 8900) <= 50.
Proof.
  apply (proj1 (proj2 format_number_branches_and_examples) 8900).
  split; [discriminate|reflexivity].
Defined.

(** ** Similar repositories *)

Lemma display_language_nonempty r : display_language r <> "".
Proof.
  unfold display_language, get_or.
  destruct (Repo.language r) as [l|]; [|discriminate].
  destruct (String.eqb l "") eqn:E; [discriminate|].
  now apply String.eqb_neq in E.
Qed.

(** A record whose raw language is a display language shows that
    language. *)
Lemma language_is_display repo r :
  language_is (display_language repo) r = true ->
  display_language r = display_language repo.
Proof.
  unfold language_is. intros H.
  destruct (Repo.language r) as [l|] eqn:El; [|discriminate].
  apply String.eqb_eq in H.
  unfold display_language at 1. rewrite El. unfold get_or.
  destruct (String.eqb l "") eqn:E; [|assumption].
  apply String.eqb_eq in E. exfalso.
  apply (display_language_nonempty repo). congruence.
Qed.

Lemma similar_repos_ok repo all_repos sims :
  similar_repos repo all_repos = Ok sims ->
  sims = sort_desc stars (filter (is_candidate repo) all_repos).
Proof.
  unfold similar_repos. intros H.
  apply ResFacts.bind_ok in H as (cands & Hc & H). inversion H; subst; clear H.
  f_equal. eapply ResFacts.filterM_ok; [|exact Hc].
  intros x b _. unfold is_candidate, same_id.
  destruct (language_is (display_language repo) x); [|now intros [= <-]].
  destruct (Repo.id x) as [a|]; [|discriminate].
  destruct (Repo.id repo) as [c|]; [|discriminate].
  simpl. now intros [= <-].
Qed.

Lemma similar_repos_total repo all_repos :
  (forall r, In r (repo :: all_repos) -> Repo.id r <> None) ->
  exists sims, similar_repos repo all_repos = Ok sims.
Proof.
  intros Hid. unfold similar_repos.
  destruct (ResFacts.filterM_total
              (fun r =>
                 if language_is (display_language repo) r then
                   r_id <- Res.getitem "id" (Repo.id r) ;;
                   repo_id <- Res.getitem "id" (Repo.id repo) ;;
                   Ok (negb (r_id =? repo_id))
                 else Ok false) all_repos) as [xs Hxs].
  - intros x Hx.
    destruct (language_is (display_language repo) x); [|eauto].
    pose proof (Hid x (or_intror Hx)) as H1.
    pose proof (Hid repo (or_introl eq_refl)) as H2.
    destruct (Repo.id x); [|congruence].
    destruct (Repo.id repo); [|congruence].
    simpl. eauto.
  - rewrite Hxs. simpl. eauto.
Qed.

(** C3. The similar set of [repo] in [all_repos], the first four of
    [similar_repos], holds records of [all_repos] none of which has
    [repo]'s id, has at most 4 members, all of [repo]'s display language,
    in descending order of stars, and the members with any one star count
    are the first of the candidates with that count, in input order.  It is
    computed whenever every record has an id. *)
Theorem similar_set_properties (repo : Repo.t) (all_repos : list Repo.t) :
  (forall sims, similar_repos repo all_repos = Ok sims ->
     let shown := firstn 4 sims in
     (forall m, In m shown ->
        In m all_repos /\ Repo.id m <> Repo.id repo
        /\ display_language m = display_language repo)
     /\ (List.length shown <= 4)%nat
     /\ StronglySorted (fun a b => stars a >= stars b) shown
     /\ (forall k, exists rest,
           filter (fun r => stars r =? k) (filter (is_candidate repo) all_repos)
           = (filter (fun r => stars r =? k) shown ++ rest)%list))
  /\ ((forall r, In r (repo :: all_repos) -> Repo.id r <> None) ->
      exists sims, similar_repos repo all_repos = Ok sims).
Proof.
  split; [|apply similar_repos_total].
  intros sims H shown. apply similar_repos_ok in H. subst shown.
  split; [|split; [|split]].
  - intros m Hm. apply firstn_In in Hm. rewrite H in Hm.
    apply sort_desc_in in Hm. apply filter_In in Hm as [Hin Hc].
    unfold is_candidate in Hc. apply andb_true_iff in Hc as [Hl Hi].
    split; [assumption|]. split; [|now apply language_is_display].
    intros E. unfold same_id in Hi. rewrite E in Hi.
    destruct (Repo.id repo); [rewrite Z.eqb_refl in Hi|]; discriminate.
  - apply firstn_le_length.
  - apply StronglySorted_firstn. rewrite H. apply sort_desc_sorted.
  - intros k.
    destruct (filter_firstn_prefix (fun r => stars r =? k) 4 sims) as [rest Hr].
    exists rest. rewrite <- Hr, H. symmetry. apply sort_desc_stable.
Qed.

(** ** Language statistics *)

Module DictFacts.

Lemma get_set d k v k' default :
  Dict.get (Dict.set d k v) k' default
  = if String.eqb k k' then v else Dict.get d k' default.
Proof.
  induction d as [|[k0 v0] d IH]; simpl.
  - reflexivity.
  - destruct (String.eqb k0 k) eqn:E; simpl.
    + apply String.eqb_eq in E. subst k0. now destruct (String.eqb k k').
    + destruct (String.eqb k0 k') eqn:E'; [|exact IH].
      apply String.eqb_eq in E'. subst k0. now rewrite String.eqb_sym, E.
Qed.

Lemma keys_set d k v :
  Dict.keys (Dict.set d k v)
  = if Dict.mem k (Dict.keys d) then Dict.keys d else (Dict.keys d ++ [k])%list.
Proof.
  unfold Dict.keys, Dict.mem. induction d as [|[k0 v0] d IH]; simpl.
  - reflexivity.
  - rewrite (String.eqb_sym k k0).
    destruct (String.eqb k0 k) eqn:E; simpl; [reflexivity|].
    rewrite IH. now destruct (existsb (String.eqb k) (map fst d)).
Qed.

Lemma mem_in k ks : Dict.mem k ks = true <-> In k ks.
Proof.
  unfold Dict.mem. rewrite existsb_exists. split.
  - intros (x & Hx & E). apply String.eqb_eq in E. now subst.
  - intros H. exists k. split; [assumption|apply String.eqb_refl].
Qed.

Lemma mem_app k ks ks' : Dict.mem k (ks ++ ks') = Dict.mem k ks || Dict.mem k ks'.
Proof. apply existsb_app. Qed.

(** A dict with distinct keys lists each key with its value. *)
Lemma items_of_keys d :
  NoDup (Dict.keys d) ->
  Dict.items d = map (fun k => (k, Dict.get d k 0)) (Dict.keys d).
Proof.
  unfold Dict.items, Dict.keys. induction d as [|[k v] d IH]; simpl; intros H.
  - reflexivity.
  - inversion H as [|? ? Hk Hd]; subst. rewrite String.eqb_refl. f_equal.
    transitivity (map (fun k => (k, Dict.get d k 0)) (map fst d));
      [now apply IH|].
    apply map_ext_in. intros k' Hin.
    destruct (String.eqb k k') eqn:E; [|reflexivity].
    apply String.eqb_eq in E. now subst k'.
Qed.

End DictFacts.

Module StatsFacts.

Import DictFacts.

Lemma filter_filter {A : Type} (p q : A -> bool) (l : list A) :
  filter p (filter q l) = filter (fun x => q x && p x) l.
Proof.
  induction l as [|x l IH]; simpl; [reflexivity|].
  destruct (q x); simpl; [destruct (p x)|]; now rewrite IH.
Qed.

Lemma keys_fold repos : forall d,
  Dict.keys (fold_left language_stats_step repos d)
  = (Dict.keys d
     ++ filter (fun l => negb (Dict.mem l (Dict.keys d)))
               (first_occurrences (map display_language repos)))%list.
Proof.
  induction repos as [|r repos IH]; intros d; simpl.
  - now rewrite app_nil_r.
  - rewrite IH.
    set (lang := display_language r).
    set (X := first_occurrences (map display_language repos)).
    assert (Hk : Dict.keys (language_stats_step d r)
                 = if Dict.mem lang (Dict.keys d) then Dict.keys d
                   else (Dict.keys d ++ [lang])%list) by apply keys_set.
    rewrite Hk. clear Hk.
    destruct (Dict.mem lang (Dict.keys d)) eqn:E; simpl.
    + f_equal. rewrite filter_filter. apply filter_ext_in. intros x _.
      destruct (String.eqb x lang) eqn:Ex; [|reflexivity].
      apply String.eqb_eq in Ex. subst x. now rewrite E.
    + rewrite <- app_assoc. simpl. f_equal. f_equal.
      rewrite filter_filter. apply filter_ext. intros x.
      rewrite mem_app. unfold Dict.mem at 2. simpl. rewrite orb_false_r.
      now rewrite negb_orb, andb_comm.
Qed.

Lemma get_fold repos : forall d k,
  Dict.get (fold_left language_stats_step repos d) k 0 = Dict.get d k 0 + language_count k repos.
Proof.
  unfold language_count.
  induction repos as [|r repos IH]; intros d k; simpl; [lia|].
  rewrite IH.
  assert (Hg : Dict.get (language_stats_step d r) k 0
               = if String.eqb (display_language r) k
                 then Dict.get d (display_language r) 0 + 1
                 else Dict.get d k 0) by apply get_set.
  rewrite Hg. clear Hg.
  destruct (String.eqb (display_language r) k) eqn:E; simpl.
  - apply String.eqb_eq in E. subst k. lia.
  - lia.
Qed.

Lemma first_occurrences_in l x : In x (first_occurrences l) <-> In x l.
Proof.
  induction l as [|y l IH]; simpl; [tauto|].
  rewrite filter_In, IH. split.
  - intros [H|[H _]]; auto.
  - intros [H|H]; [now left|].
    destruct (String.eqb x y) eqn:E.
    + apply String.eqb_eq in E. now left.
    + right. now split.
Qed.

Lemma NoDup_filter {A : Type} (p : A -> bool) (l : list A) :
  NoDup l -> NoDup (filter p l).
Proof.
  induction 1 as [|x l Hx Hl IH]; simpl; [constructor|].
  destruct (p x); [|assumption].
  constructor; [|assumption]. rewrite filter_In. tauto.
Qed.

Lemma first_occurrences_nodup l : NoDup (first_occurrences l).
Proof.
  induction l as [|x l IH]; simpl; constructor.
  - rewrite filter_In. intros [_ H]. now rewrite String.eqb_refl in H.
  - now apply NoDup_filter.
Qed.

(** [language_stats] lists the display languages in the order of their
    first record, each with the number of its records. *)
Lemma language_stats_keys repos :
  Dict.keys (language_stats repos) = first_occurrences (map display_language repos).
Proof.
  unfold language_stats.
  rewrite keys_fold. simpl.
  induction (first_occurrences _) as [|x l IH]; simpl; congruence.
Qed.

Lemma language_stats_get repos k :
  Dict.get (language_stats repos) k 0 = language_count k repos.
Proof.
  unfold language_stats.
  now rewrite get_fold.
Qed.

Lemma language_stats_items repos :
  Dict.items (language_stats repos)
  = map (fun l => (l, language_count l repos))
        (first_occurrences (map display_language repos)).
Proof.
  rewrite items_of_keys.
  - rewrite language_stats_keys. apply map_ext. intros l.
    now rewrite language_stats_get.
  - rewrite language_stats_keys. apply first_occurrences_nodup.
Qed.

Lemma sum_shift l : forall a, fold_left Z.add l a = a + sum l.
Proof.
  unfold sum. induction l as [|x l IH]; intros a; simpl; [lia|].
  rewrite IH, (IH x). lia.
Qed.

Lemma sum_cons x l : sum (x :: l) = x + sum l.
Proof. unfold sum. simpl. now rewrite sum_shift. Qed.

Lemma sum_app l l' : sum (l ++ l') = sum l + sum l'.
Proof.
  induction l as [|x l IH]; simpl; [reflexivity|].
  rewrite !sum_cons, IH. lia.
Qed.

Lemma sum_values_set d k :
  sum (map snd (Dict.set d k (Dict.get d k 0 + 1))) = sum (map snd d) + 1.
Proof.
  induction d as [|[k0 v0] d IH]; simpl; [reflexivity|].
  destruct (String.eqb k0 k); simpl; rewrite !sum_cons; [lia|].
  rewrite IH. lia.
Qed.

(** The counts of [language_stats] add up to the number of records. *)
Lemma language_stats_sum repos :
  sum (map snd (language_stats repos)) = Z.of_nat (List.length repos).
Proof.
  unfold language_stats.
  assert (H : forall d, sum (map snd (fold_left language_stats_step repos d))
                        = sum (map snd d) + Z.of_nat (List.length repos)).
  { induction repos as [|r repos IH]; intros d; simpl List.length; simpl fold_left.
    - simpl. lia.
    - rewrite IH. unfold language_stats_step. rewrite sum_values_set. lia. }
  rewrite H. reflexivity.
Qed.

(** A record with a non-empty language is a member of the page of its
    display language and of no other. *)
Lemma lang_repos_member repos r lang l :
  Repo.language r = Some l -> l <> "" ->
  In r (lang_repos lang repos) <-> In r repos /\ display_language r = lang.
Proof.
  intros Hl Hne. unfold lang_repos. rewrite sort_desc_in, filter_In.
  unfold language_is, display_language, get_or. rewrite Hl.
  apply String.eqb_neq in Hne. rewrite Hne.
  now rewrite String.eqb_eq.
Qed.

End StatsFacts.

(** ** Language groups *)

(** A record whose language is null or empty is a member of the page of no
    language of [language_stats]. *)
Lemma unknown_language_in_no_group repos r lang :
  Repo.language r = None \/ Repo.language r = Some "" ->
  In lang (Dict.keys (language_stats repos)) ->
  ~ In r (lang_repos lang repos).
Proof.
  intros Hr Hlang Hin. unfold lang_repos in Hin.
  apply sort_desc_in in Hin. apply filter_In in Hin as [_ Hin].
  unfold language_is in Hin. destruct Hr as [Hr|Hr]; rewrite Hr in Hin;
    [discriminate|].
  apply String.eqb_eq in Hin. subst lang.
  rewrite StatsFacts.language_stats_keys in Hlang.
  apply (proj1 (StatsFacts.first_occurrences_in _ _)) in Hlang.
  apply in_map_iff in Hlang as (r' & Hr' & _).
  now apply display_language_nonempty in Hr'.
Qed.

(** C2, at a record with a null language.  Its display language is
    "Unknown" and [language_stats] counts it there, but the member list of
    no language page holds it: the page of "Unknown" is written with no
    member. *)
Theorem null_language_record_is_in_no_group :
  display_language null_language_repo = "Unknown"
  /\ language_stats [null_language_repo] = [("Unknown", 1)]
  /\ In null_language_repo [null_language_repo]
  /\ (forall lang, lang_repos lang [null_language_repo] = [])
  /\ (forall now, exists log,
        main now [null_language_repo] = (log, Ok tt)
        /\ Run.file_at log "output/categories/unknown.html"
           = Some (CategoryHtml {| cat_language := "Unknown";
                                   cat_count := 0;
                                   cat_cards := [] |})).
Proof.
  split; [reflexivity|]. split; [reflexivity|]. split; [now left|].
  split; [reflexivity|].
  intros now. eexists. split; [vm_compute; reflexivity|]. reflexivity.
Qed.

(** ** The two language orders *)

Lemma StronglySorted_map {A B : Type} (R : B -> B -> Prop) (f : A -> B) (l : list A) :
  StronglySorted (fun a b => R (f a) (f b)) l -> StronglySorted R (map f l).
Proof.
  induction 1 as [|x l Hl IH Hx]; simpl; constructor; [assumption|].
  apply Forall_forall. intros y Hy. apply in_map_iff in Hy as (a & <- & Ha).
  eapply Forall_forall in Hx; eauto.
Qed.

Lemma filter_map {A B : Type} (p : B -> bool) (f : A -> B) (l : list A) :
  filter p (map f l) = map f (filter (fun a => p (f a)) l).
Proof.
  induction l as [|x l IH]; simpl; [reflexivity|].
  destruct (p (f x)); simpl; now rewrite IH.
Qed.

Lemma index_categories_map stats :
  index_categories stats = map category_link_of (sort_desc snd (Dict.items stats)).
Proof.
  unfold index_categories. apply map_ext. now intros [l n].
Qed.

Lemma ltb_asym a b : String.ltb a b = true -> String.ltb b a = false.
Proof.
  unfold String.ltb. rewrite (String.compare_antisym a b).
  now destruct (String.compare b a).
Qed.

Lemma sorted_strings_sorted l :
  Sorted (fun a b => String.leb a b = true) (sorted_strings l).
Proof.
  unfold sorted_strings.
  eapply Sorted_ind with (P := Sorted (fun a b => String.leb a b = true));
    [constructor| |apply (stable_sort_sorted String.ltb ltb_asym)].
  intros a s _ IH Hhd. constructor; [assumption|].
  destruct Hhd as [|b s Hb]; constructor.
  unfold ordered, String.ltb in Hb. unfold String.leb.
  rewrite (String.compare_antisym a b).
  now destruct (String.compare b a).
Qed.

(** C9. The Browse-by-Language table of the home page lists the display
    languages by descending record count, languages of equal count in the
    order of their first record; the language index lists the same
    languages in ascending string order.  On the first five records of the
    fallback data the first is TypeScript, Python, Rust, Go and the second
    Go, Python, Rust, TypeScript. *)
Theorem home_table_and_language_index_orders :
  (forall repos,
     let table := index_categories (language_stats repos) in
     StronglySorted (fun a b => cl_count a >= cl_count b) table
     /\ (forall c, In c table -> cl_count c = language_count (cl_language c) repos)
     /\ (forall k,
           map cl_language (filter (fun c => cl_count c =? k) table)
           = filter (fun l => language_count l repos =? k)
                    (first_occurrences (map display_language repos)))
     /\ (forall page, generate_index_page repos (language_stats repos) = Ok page ->
           idx_categories page = table))
  /\ (forall repos,
        let languages := Dict.keys (language_stats repos) in
        let order := sorted_strings languages in
        Sorted (fun a b => String.leb a b = true) order
        /\ Permutation order (first_occurrences (map display_language repos))
        /\ (forall entries,
              generate_categories_index_page languages (language_stats repos) repos
              = Ok entries ->
              map le_language entries = order))
  /\ map cl_language (index_categories (language_stats mixed_languages))
     = ["TypeScript"; "Python"; "Rust"; "Go"]
  /\ sorted_strings (Dict.keys (language_stats mixed_languages))
     = ["Go"; "Python"; "Rust"; "TypeScript"].
Proof.
  split; [|split; [|split; reflexivity]].
  - intros repos table. subst table. rewrite index_categories_map.
    rewrite StatsFacts.language_stats_items.
    split; [|split; [|split]].
    + apply StronglySorted_map. simpl. apply sort_desc_sorted.
    + intros c Hc. apply in_map_iff in Hc as ([l n] & <- & Hin).
      apply sort_desc_in in Hin. apply in_map_iff in Hin as (l' & E & _).
      inversion E; subst. reflexivity.
    + intros k. rewrite filter_map. simpl. rewrite map_map. simpl.
      rewrite sort_desc_stable. rewrite filter_map. simpl.
      rewrite map_map. simpl. apply map_id.
    + intros page H. unfold generate_index_page in H.
      repeat (apply ResFacts.bind_ok in H as (? & _ & H)).
      inversion H; subst; clear H. simpl.
      rewrite index_categories_map.
      now rewrite StatsFacts.language_stats_items.
  - intros repos languages order. subst languages order.
    split; [apply sorted_strings_sorted|]. split.
    + rewrite <- StatsFacts.language_stats_keys. apply stable_sort_perm.
    + intros entries H. unfold generate_categories_index_page in H.
      apply ResFacts.mapM_ok in H.
      rewrite <- (map_id (sorted_strings _)).
      eapply ResFacts.Forall2_map_eq; [|exact H].
      intros l e He. unfold language_entry_of in He.
      apply ResFacts.bind_ok in He as (? & _ & He). now inversion He.
Qed.

(** ** Topics *)

Lemma index_card_topics repo card :
  index_card repo = Ok card -> card_topics card = card_topics_block repo.
Proof.
  unfold index_card. intros H.
  repeat (apply ResFacts.bind_ok in H as (? & _ & H)). now inversion H.
Qed.

Lemma category_card_topics lang repo card :
  category_card lang repo = Ok card -> card_topics card = card_topics_block repo.
Proof.
  unfold category_card. intros H.
  repeat (apply ResFacts.bind_ok in H as (? & _ & H)). now inversion H.
Qed.

(** C10. A card of the home page or of a language page has no topics block
    when its record has no topics and else the first four topics, in
    order; the detail page has no topics block when the record has no
    topics and else all of them.  The cards of the home page are those of
    the first 20 records, the cards of a language page those of its
    members. *)
Theorem topics_on_cards_and_detail_pages :
  (forall repo,
     match topics_of repo with
     | [] => card_topics_block repo = None /\ detail_topics_block repo = None
     | ts => card_topics_block repo = Some (firstn 4 ts)
             /\ detail_topics_block repo = Some ts
     end)
  /\ (forall repos stats page,
        generate_index_page repos stats = Ok page ->
        map card_topics (idx_trending page) = map card_topics_block (firstn 20 repos))
  /\ (forall lang repos languages page,
        generate_category_page lang repos languages = Ok page ->
        map card_topics (cat_cards page)
        = map card_topics_block (lang_repos lang repos))
  /\ (forall repo repos page,
        generate_repo_page repo repos = Ok page ->
        rp_topics page = detail_topics_block repo).
Proof.
  split; [|split; [|split]].
  - intros repo. unfold topics_of, card_topics_block, detail_topics_block.
    destruct (get_default (Repo.topics repo) []); split; reflexivity.
  - intros repos stats page H. unfold generate_index_page in H.
    apply ResFacts.bind_ok in H as (? & _ & H).
    apply ResFacts.bind_ok in H as (? & _ & H).
    apply ResFacts.bind_ok in H as (? & _ & H).
    apply ResFacts.bind_ok in H as (cards & Hc & H).
    inversion H; subst; clear H. simpl.
    apply ResFacts.mapM_ok in Hc.
    eapply ResFacts.Forall2_map_eq; [|exact Hc].
    intros r c. apply index_card_topics.
  - intros lang repos languages page H. unfold generate_category_page in H.
    apply ResFacts.bind_ok in H as (cards & Hc & H).
    inversion H; subst; clear H. simpl.
    apply ResFacts.mapM_ok in Hc.
    eapply ResFacts.Forall2_map_eq; [|exact Hc].
    intros r c. apply category_card_topics.
  - intros repo repos page H. unfold generate_repo_page in H.
    repeat (apply ResFacts.bind_ok in H as (? & _ & H)).
    now inversion H.
Qed.

(** ** Complete records *)

Module BuildFacts.

Lemma is_some_inv {A : Type} (v : option A) : is_some v = true -> exists a, v = Some a.
Proof. destruct v; [eauto|discriminate]. Qed.

Lemma complete_inv r :
  complete r = true ->
  (exists i, Repo.id r = Some i)
  /\ (exists n, Repo.name r = Some n)
  /\ (exists fn, Repo.full_name r = Some fn)
  /\ (exists u, Repo.html_url r = Some u)
  /\ (exists o lg av, Repo.owner r = Some o /\ Repo.login o = Some lg
                      /\ Repo.avatar_url o = Some av)
  /\ stars r < 2 ^ 64
  /\ get_default (Repo.forks_count r) 0 < 2 ^ 64
  /\ get_default (Repo.open_issues_count r) 0 < 2 ^ 64.
Proof.
  unfold complete, count_bound. intros H.
  repeat (apply andb_true_iff in H as [H ?]).
  repeat match goal with
         | H : (_ <? _) = true |- _ => apply Z.ltb_lt in H
         | H : is_some _ = true |- _ => apply is_some_inv in H
         end.
  repeat split; try assumption.
  destruct (Repo.owner r) as [o|]; [|discriminate].
  match goal with
  | H : _ && _ = true |- _ => apply andb_true_iff in H as [Hlg Hav]
  end.
  apply is_some_inv in Hlg as [lg Hlg]. apply is_some_inv in Hav as [av Hav].
  now exists o, lg, av.
Qed.

Lemma well_formed_inv repos :
  well_formed repos = true ->
  (forall r, In r repos -> complete r = true)
  /\ Z.of_nat (List.length repos) < 2 ^ 64
  /\ sum (map stars repos) < 2 ^ 64
  /\ sum (map (fun r => get_default (Repo.forks_count r) 0) repos) < 2 ^ 64.
Proof.
  unfold well_formed, count_bound. intros H.
  repeat (apply andb_true_iff in H as [H ?]).
  repeat match goal with
         | H : (_ <? _) = true |- _ => apply Z.ltb_lt in H
         end.
  repeat split; try assumption.
  now apply forallb_forall.
Qed.

(** Rewrites a [format_number] call on a bounded count to its string. *)
Ltac format_ok x :=
  let s := fresh "s" in
  let Hs := fresh "Hs" in
  destruct (format_number_ok x) as [s Hs]; [assumption|rewrite Hs; cbn [Res.bind]].

Lemma index_card_total r :
  complete r = true -> exists card, index_card r = Ok card.
Proof.
  intros H. apply complete_inv in H
    as (_ & _ & [fn Hfn] & _ & _ & Hs & Hf & Hi).
  unfold index_card. rewrite Hfn. cbn [Res.getitem Res.bind].
  format_ok (stars r).
  format_ok (get_default (Repo.forks_count r) 0).
  format_ok (get_default (Repo.open_issues_count r) 0).
  eauto.
Qed.

Lemma category_card_total lang r :
  complete r = true -> exists card, category_card lang r = Ok card.
Proof.
  intros H. apply complete_inv in H
    as (_ & _ & [fn Hfn] & _ & _ & Hs & Hf & Hi).
  unfold category_card. rewrite Hfn. cbn [Res.getitem Res.bind].
  format_ok (stars r).
  format_ok (get_default (Repo.forks_count r) 0).
  format_ok (get_default (Repo.open_issues_count r) 0).
  eauto.
Qed.

Lemma similar_card_total r :
  complete r = true -> exists card, similar_card_of r = Ok card.
Proof.
  intros H. apply complete_inv in H
    as (_ & _ & [fn Hfn] & _ & _ & Hs & _ & _).
  unfold similar_card_of. rewrite Hfn. cbn [Res.getitem Res.bind].
  format_ok (stars r). eauto.
Qed.

Lemma generate_index_page_total repos stats :
  well_formed repos = true ->
  exists page, generate_index_page repos stats = Ok page.
Proof.
  intros H. apply well_formed_inv in H as (Hc & Hn & Hs & Hf).
  unfold generate_index_page.
  format_ok (Z.of_nat (List.length repos)).
  format_ok (sum (map stars repos)).
  format_ok (sum (map (fun r => get_default (Repo.forks_count r) 0) repos)).
  destruct (ResFacts.mapM_total index_card (firstn 20 repos)) as [cards Hcards].
  - intros r Hr. apply index_card_total. apply Hc. now apply firstn_In in Hr.
  - rewrite Hcards. cbn [Res.bind]. eauto.
Qed.

Lemma max_by_in {A : Type} (key : A -> Z) (l : list A) (x : A) :
  max_by key l = Some x -> In x l.
Proof.
  destruct l as [|y l]; simpl; [discriminate|]. intros [= <-].
  revert y. induction l as [|z l IH]; intros y; simpl; [now left|].
  destruct (IH (if key z >? key y then z else y)) as [H|H]; [|tauto].
  rewrite <- H. destruct (key z >? key y); tauto.
Qed.

Lemma language_entry_total stats repos lang :
  (forall r, In r repos -> complete r = true) ->
  exists entry, language_entry_of stats repos lang = Ok entry.
Proof.
  intros Hc. unfold language_entry_of.
  destruct (max_by stars (filter (language_is lang) repos)) as [top|] eqn:E.
  - apply max_by_in in E. apply filter_In in E as [Hin _].
    apply Hc, complete_inv in Hin as (_ & _ & _ & _ & _ & Hs & _ & _).
    format_ok (stars top). eauto.
  - cbn [Res.bind]. eauto.
Qed.

Lemma generate_categories_index_page_total languages stats repos :
  (forall r, In r repos -> complete r = true) ->
  exists entries, generate_categories_index_page languages stats repos = Ok entries.
Proof.
  intros Hc. unfold generate_categories_index_page.
  apply ResFacts.mapM_total. intros lang _. now apply language_entry_total.
Qed.

Lemma generate_category_page_total lang repos languages :
  (forall r, In r repos -> complete r = true) ->
  exists page, generate_category_page lang repos languages = Ok page.
Proof.
  intros Hc. unfold generate_category_page.
  destruct (ResFacts.mapM_total (category_card lang) (lang_repos lang repos))
    as [cards Hcards].
  - intros r Hr. apply category_card_total. apply Hc.
    unfold lang_repos in Hr. apply sort_desc_in in Hr.
    now apply filter_In in Hr as [Hr _].
  - rewrite Hcards. cbn [Res.bind]. eauto.
Qed.

Lemma generate_repo_page_total repo repos :
  complete repo = true ->
  (forall r, In r repos -> complete r = true) ->
  exists page, generate_repo_page repo repos = Ok page.
Proof.
  intros Hr Hc.
  destruct (similar_repos_total repo repos) as [sims Hsims].
  { intros r [<-|Hin]; [|apply Hc in Hin];
      [apply complete_inv in Hr as ([i Hi] & _)
      |apply complete_inv in Hin as ([i Hi] & _)]; congruence. }
  pose proof (similar_repos_ok _ _ _ Hsims) as Heq.
  apply complete_inv in Hr
    as (_ & [n Hn] & [fn Hfn] & [u Hu] & (o & lg & av & Ho & Hlg & Hav)
        & Hs & Hf & Hi).
  unfold generate_repo_page.
  rewrite Hfn, Hsims, Hn, Ho, Hu. cbn [Res.getitem Res.bind].
  format_ok (stars repo).
  rewrite Hav, Hlg. cbn [Res.getitem Res.bind].
  format_ok (get_default (Repo.forks_count repo) 0).
  format_ok (get_default (Repo.open_issues_count repo) 0).
  destruct sims as [|x sims']; [cbn [Res.getitem Res.bind]; eauto|].
  destruct (ResFacts.mapM_total similar_card_of (firstn 4 (x :: sims')))
    as [cards Hcards].
  - intros r Hin. apply similar_card_total. apply Hc.
    apply firstn_In in Hin. rewrite Heq in Hin.
    apply sort_desc_in in Hin. now apply filter_In in Hin as [Hin _].
  - rewrite Hcards. cbn [Res.getitem Res.bind]. eauto.
Qed.

End BuildFacts.

(** ** Runs *)

Module RunFacts.

Lemma bind_lift_ok {A B : Type} (a : A) (k : A -> run B) :
  Run.bind (Run.lift (Ok a)) k = k a.
Proof. unfold Run.bind, Run.lift. now destruct (k a). Qed.

Lemma bind_lift_raise {A B : Type} (e : exn) (k : A -> run B) :
  Run.bind (Run.lift (Raise e)) k = ([], Raise e).
Proof. reflexivity. Qed.

Lemma bind_done {A B : Type} (w : list (string * file)) (a : A) (k : A -> run B) :
  Run.bind (w, Ok a) k = ((w ++ fst (k a))%list, snd (k a)).
Proof. unfold Run.bind. now destruct (k a). Qed.

(** A loop whose every round writes one file writes them in order. *)
Lemma for_each_writes {A : Type} (body : A -> run unit) (l : list A)
    (ws : list (string * file)) :
  Forall2 (fun x w => body x = ([w], Ok tt)) l ws ->
  Run.for_each body l = (ws, Ok tt).
Proof.
  induction 1 as [|x w l ws Hx _ IH]; simpl; [reflexivity|].
  rewrite Hx, bind_done, IH. reflexivity.
Qed.

Lemma Forall2_exists {A B : Type} (R : A -> B -> Prop) (l : list A) :
  (forall x, In x l -> exists y, R x y) -> exists ys, Forall2 R l ys.
Proof.
  induction l as [|x l IH]; intros H.
  - exists []. constructor.
  - destruct (H x (or_introl eq_refl)) as [y Hy].
    destruct IH as [ys Hys]; [intros; apply H; now right|].
    exists (y :: ys). now constructor.
Qed.

Lemma file_at_app w1 w2 path :
  Run.file_at (w1 ++ w2) path
  = match Run.file_at w2 path with
    | Some f => Some f
    | None => Run.file_at w1 path
    end.
Proof.
  induction w1 as [|[p f] w1 IH]; simpl.
  - now destruct (Run.file_at w2 path).
  - rewrite IH. now destruct (Run.file_at w2 path).
Qed.

Lemma file_at_none w path :
  (forall p f, In (p, f) w -> p <> path) -> Run.file_at w path = None.
Proof.
  induction w as [|[p f] w IH]; simpl; intros H; [reflexivity|].
  rewrite IH by (intros; eapply H; eauto).
  destruct (String.eqb p path) eqn:E; [|reflexivity].
  apply String.eqb_eq in E. exfalso. eapply H; eauto.
Qed.

(** The last write to a path is what the path holds. *)
Lemma file_at_last pre path f post :
  (forall p' f', In (p', f') post -> p' <> path) ->
  Run.file_at (pre ++ (path, f) :: post) path = Some f.
Proof.
  intros H. rewrite file_at_app. cbn [Run.file_at].
  rewrite (file_at_none post path H). now rewrite String.eqb_refl.
Qed.

Lemma raises_bind_l {A B : Type} (m : run A) (k : A -> run B) :
  raises m -> raises (Run.bind m k).
Proof.
  intros [e He]. destruct m as [w [a|e']]; simpl in *; [discriminate|].
  now exists e'.
Qed.

Lemma raises_bind_r {A B : Type} (m : run A) (k : A -> run B) :
  (forall a, raises (k a)) -> raises (Run.bind m k).
Proof.
  intros H. destruct m as [w [a|e']]; simpl.
  - destruct (H a) as [e He]. destruct (k a) as [w' r]. now exists e.
  - now exists e'.
Qed.

Lemma raises_for_each {A : Type} (body : A -> run unit) (l : list A) (x : A) :
  In x l -> raises (body x) -> raises (Run.for_each body l).
Proof.
  induction l as [|y l IH]; simpl; [tauto|].
  intros [->|Hin] Hx.
  - now apply raises_bind_l.
  - apply raises_bind_r. intros _. now apply IH.
Qed.

End RunFacts.

(** ** Paths *)

Module PathFacts.

Lemma append_inv_head p a b : p ++ a = p ++ b -> a = b.
Proof.
  induction p as [|c p IH]; simpl; [auto|]. intros [= H]. auto.
Qed.

Lemma list_of_append a b :
  list_ascii_of_string (a ++ b)
  = (list_ascii_of_string a ++ list_ascii_of_string b)%list.
Proof. induction a as [|c a IH]; simpl; congruence. Qed.

Lemma append_inv_tail a b s : a ++ s = b ++ s -> a = b.
Proof.
  intros H. apply (f_equal list_ascii_of_string) in H.
  rewrite !list_of_append in H. apply app_inv_tail in H.
  rewrite <- (string_of_list_ascii_of_string a),
          <- (string_of_list_ascii_of_string b). now f_equal.
Qed.

Lemma in_map_prefix p rel rels :
  In (p ++ rel) (map (fun r => p ++ r) rels) <-> In rel rels.
Proof.
  rewrite in_map_iff. split.
  - intros (r & E & Hr). apply append_inv_head in E. now subst.
  - intros H. now exists rel.
Qed.

Lemma repo_path_inj s s' :
  "output/repos/" ++ s ++ ".html" = "output/repos/" ++ s' ++ ".html" -> s = s'.
Proof. intros H. apply append_inv_head in H. now apply append_inv_tail in H. Qed.

Lemma category_path_inj s s' :
  "output/categories/" ++ s ++ ".html" = "output/categories/" ++ s' ++ ".html"
  -> s = s'.
Proof. intros H. apply append_inv_head in H. now apply append_inv_tail in H. Qed.

End PathFacts.

(** The addresses of a sitemap are those of [page_files], in order. *)
Lemma generate_sitemap_locs now base_url repos languages urls :
  generate_sitemap now base_url repos languages = Ok urls ->
  map loc urls
  = map (fun rel => base_url ++ "/" ++ rel)
        ("index.html" :: "categories/index.html"
         :: map category_file languages ++ map repo_file repos)%list.
Proof.
  unfold generate_sitemap. intros H.
  apply ResFacts.bind_ok in H as (repo_urls & Hr & H).
  inversion H; subst; clear H.
  cbn [map app]. f_equal. f_equal.
  rewrite !map_app, !map_map. f_equal.
  apply ResFacts.mapM_ok in Hr.
  eapply ResFacts.Forall2_map_eq; [|exact Hr].
  intros r u Hu. cbn beta in Hu. unfold repo_file.
  destruct (Repo.full_name r) as [fn|]; [|discriminate].
  cbn in Hu. now inversion Hu.
Qed.

Lemma generate_sitemap_total now base_url repos languages :
  (forall r, In r repos -> complete r = true) ->
  exists urls, generate_sitemap now base_url repos languages = Ok urls.
Proof.
  intros Hc. unfold generate_sitemap.
  match goal with
  | |- context [Res.mapM ?f repos] =>
      destruct (ResFacts.mapM_total f repos) as [us Hus]
  end.
  - intros r Hr. apply Hc, BuildFacts.complete_inv in Hr
      as (_ & _ & [fn Hfn] & _). rewrite Hfn. cbn. eauto.
  - rewrite Hus. cbn [Res.bind]. eauto.
Qed.

(** What [main] writes for a well-formed record set. *)
Lemma main_writes now repos :
  well_formed repos = true ->
  let stats := language_stats repos in
  let languages := Dict.keys stats in
  exists idx cidx cats rps urls,
    generate_index_page repos stats = Ok idx
    /\ generate_categories_index_page languages stats repos = Ok cidx
    /\ Forall2 (fun lang w =>
                  exists page,
                    generate_category_page lang repos languages = Ok page
                    /\ w = ("output/" ++ category_file lang, CategoryHtml page))
               languages cats
    /\ Forall2 (fun r w =>
                  exists page,
                    generate_repo_page r repos = Ok page
                    /\ w = ("output/" ++ repo_file r, RepoHtml page))
               repos rps
    /\ generate_sitemap now BASE_URL repos languages = Ok urls
    /\ main now repos
       = ((("output/index.html", IndexHtml idx)
           :: ("output/categories/index.html", CategoriesIndexHtml cidx)
           :: cats ++ rps ++ [("output/sitemap.xml", SitemapXml urls)])%list,
          Ok tt).
Proof.
  intros Hwf stats languages.
  pose proof (BuildFacts.well_formed_inv repos Hwf) as (Hc & _).
  destruct (BuildFacts.generate_index_page_total repos stats Hwf) as [idx Hidx].
  destruct (BuildFacts.generate_categories_index_page_total languages stats repos Hc)
    as [cidx Hcidx].
  destruct (RunFacts.Forall2_exists
              (fun lang w =>
                 exists page,
                   generate_category_page lang repos languages = Ok page
                   /\ w = ("output/" ++ category_file lang, CategoryHtml page))
              languages) as [cats Hcats].
  { intros lang _.
    destruct (BuildFacts.generate_category_page_total lang repos languages Hc)
      as [page Hp]. eauto. }
  destruct (RunFacts.Forall2_exists
              (fun r w =>
                 exists page,
                   generate_repo_page r repos = Ok page
                   /\ w = ("output/" ++ repo_file r, RepoHtml page))
              repos) as [rps Hrps].
  { intros r Hr.
    destruct (BuildFacts.generate_repo_page_total r repos (Hc r Hr) Hc)
      as [page Hp]. eauto. }
  destruct (generate_sitemap_total now BASE_URL repos languages Hc) as [urls Hurls].
  exists idx, cidx, cats, rps, urls.
  repeat (split; [assumption|]).
  unfold main. fold stats. fold languages.
  rewrite Hidx, RunFacts.bind_lift_ok.
  rewrite Hcidx.
  erewrite (RunFacts.for_each_writes _ languages cats).
  2:{ eapply Forall2_impl; [|exact Hcats].
      intros lang w (page & Hp & ->). cbn beta zeta.
      rewrite Hp, RunFacts.bind_lift_ok. reflexivity. }
  erewrite (RunFacts.for_each_writes _ repos rps).
  2:{ eapply Forall2_impl; [|exact Hrps].
      intros r w (page & Hp & ->). cbn beta zeta.
      assert (Hfn : exists fn, Repo.full_name r = Some fn).
      { unfold generate_repo_page in Hp.
        destruct (Repo.full_name r); [eauto|discriminate]. }
      destruct Hfn as [fn Hfn].
      unfold repo_file. rewrite Hfn. cbn [Res.getitem get_default].
      rewrite RunFacts.bind_lift_ok, Hp, RunFacts.bind_lift_ok. reflexivity. }
  rewrite Hurls.
  reflexivity.
Qed.

(** ** The sitemap and the pages *)

Lemma eqb_prefix p a b : String.eqb (p ++ a) (p ++ b) = String.eqb a b.
Proof.
  induction p as [|c p IH]; simpl; [reflexivity|].
  now rewrite Ascii.eqb_refl.
Qed.

Lemma occurrences_prefix p rel rels :
  occurrences (p ++ rel) (map (fun r => p ++ r) rels) = occurrences rel rels.
Proof.
  unfold occurrences. induction rels as [|r rels IH]; simpl; [reflexivity|].
  rewrite eqb_prefix. destruct (String.eqb rel r); simpl; now rewrite IH.
Qed.

Lemma main_pages now repos :
  well_formed repos = true ->
  exists pages urls,
    main now repos = ((pages ++ [("output/sitemap.xml", SitemapXml urls)])%list, Ok tt)
    /\ map fst pages = map (fun rel => "output/" ++ rel) (page_files repos)
    /\ map loc urls = map (fun rel => BASE_URL ++ "/" ++ rel) (page_files repos).
Proof.
  intros Hwf.
  destruct (main_writes now repos Hwf)
    as (idx & cidx & cats & rps & urls & _ & _ & Hcats & Hrps & Hurls & Hmain).
  exists (("output/index.html", IndexHtml idx)
          :: ("output/categories/index.html", CategoriesIndexHtml cidx)
          :: cats ++ rps)%list, urls.
  split; [|split].
  - rewrite Hmain. cbn [app]. now rewrite <- app_assoc.
  - unfold page_files. cbn [map fst]. f_equal. f_equal.
    rewrite !map_app, !map_map. f_equal.
    + eapply ResFacts.Forall2_map_eq; [|exact Hcats].
      now intros lang w (page & _ & ->).
    + eapply ResFacts.Forall2_map_eq; [|exact Hrps].
      now intros r w (page & _ & ->).
  - now apply generate_sitemap_locs in Hurls.
Qed.

Lemma mapM_raise_inv {A B : Type} (f : A -> result B) (l : list A) (e : exn) :
  Res.mapM f l = Raise e -> exists x, In x l /\ f x = Raise e.
Proof.
  induction l as [|x l IH]; simpl; [discriminate|].
  destruct (f x) as [y|e'] eqn:Hx; simpl.
  - destruct (Res.mapM f l) as [ys|e'']; simpl; [discriminate|].
    intros [= <-]. destruct (IH eq_refl) as (x' & Hin & Hx'). eauto.
  - intros [= <-]. eauto.
Qed.

(** The writes of a run, whatever the records *)

Module StopFacts.

(** A loop whose rounds write one file each, or nothing when they raise,
    writes the files of the rounds before the first that raises. *)
Lemma for_each_prefix {A : Type} (body : A -> run unit) (path_of : A -> string)
    (l : list A) :
  (forall x, (exists f, body x = ([(path_of x, f)], Ok tt))
             \/ (exists e, body x = ([], Raise e))) ->
  exists ws done rest,
    fst (Run.for_each body l) = ws
    /\ l = (done ++ rest)%list
    /\ map fst ws = map path_of done
    /\ (rest = [] /\ snd (Run.for_each body l) = Ok tt
         /\ (forall x, In x l -> exists f, body x = ([(path_of x, f)], Ok tt))
        \/ rest <> [] /\ exists e, snd (Run.for_each body l) = Raise e).
Proof.
  intros Hbody. induction l as [|x l IH].
  - exists [], [], []. cbn. repeat (split; [reflexivity|]). left.
    repeat split. intros x [].
  - destruct IH as (ws & done & rest & Hws & Hl & Hpaths & Hres).
    cbn [Run.for_each]. destruct (Hbody x) as [[f Hx]|[e Hx]]; rewrite Hx.
    + rewrite RunFacts.bind_done. cbn [fst snd app].
      exists ((path_of x, f) :: ws), (x :: done), rest.
      split; [now rewrite Hws|]. split; [now rewrite Hl|].
      split; [cbn; now rewrite Hpaths|].
      destruct Hres as [(Hr & Hok & Hall)|Hres]; [left|now right].
      repeat split; try assumption.
      intros y [<-|Hy]; [eauto|now apply Hall].
    + exists [], [], (x :: l). cbn. repeat (split; [reflexivity|]).
      right. split; [discriminate|eauto].
Qed.

Lemma category_round repos languages lang :
  let body := fun lang =>
    (cat_html <- Run.lift (generate_category_page lang repos languages) ;;
     Run.write (path_join CATEGORIES_DIR (slugify lang ++ ".html"))
       (CategoryHtml cat_html))%run in
  (exists f, body lang = ([(category_path lang, f)], Ok tt))
  \/ (exists e, body lang = ([], Raise e)).
Proof.
  cbv beta zeta. destruct (generate_category_page lang repos languages) as [page|e].
  - left. eexists. reflexivity.
  - right. eexists. reflexivity.
Qed.

Lemma repo_round repos r :
  let body := fun repo =>
    (full_name <- Run.lift (Res.getitem "full_name" (Repo.full_name repo)) ;;
     repo_html <- Run.lift (generate_repo_page repo repos) ;;
     Run.write (path_join REPOS_DIR (slugify full_name ++ ".html"))
       (RepoHtml repo_html))%run in
  (exists f, body r = ([(repo_path r, f)], Ok tt))
  \/ (exists e, body r = ([], Raise e)).
Proof.
  cbv beta zeta. unfold repo_path, repo_file.
  destruct (Repo.full_name r) as [fn|]; cbn [Res.getitem get_default].
  - destruct (generate_repo_page r repos) as [page|e].
    + left. eexists. reflexivity.
    + right. eexists. reflexivity.
  - right. eexists. reflexivity.
Qed.

(** The writes of [main], whatever the records: the page files in the
    order of [page_files] up to the first page that cannot be built, and
    the sitemap after them exactly when the run completes. *)
Lemma main_log now repos :
  exists pages done rest,
    page_files repos = (done ++ rest)%list
    /\ map fst pages = map (fun rel => "output/" ++ rel) done
    /\ ((exists urls,
           rest = []
           /\ generate_sitemap now BASE_URL repos (Dict.keys (language_stats repos))
              = Ok urls
           /\ main now repos
              = ((pages ++ [("output/sitemap.xml", SitemapXml urls)])%list, Ok tt))
        \/ (rest <> [] /\ exists e, main now repos = (pages, Raise e))).
Proof.
  unfold main, page_files.
  set (stats := language_stats repos). set (languages := Dict.keys stats).
  destruct (generate_index_page repos stats) as [idx|e].
  2:{ exists [], [], ("index.html" :: "categories/index.html"
                     :: map category_file languages ++ map repo_file repos)%list.
      split; [reflexivity|]. split; [reflexivity|]. right.
      split; [discriminate|]. eexists. reflexivity. }
  rewrite RunFacts.bind_lift_ok.
  destruct (generate_categories_index_page languages stats repos) as [cidx|e].
  2:{ exists [("output/index.html", IndexHtml idx)], ["index.html"],
        ("categories/index.html"
         :: map category_file languages ++ map repo_file repos)%list.
      split; [reflexivity|]. split; [reflexivity|]. right.
      split; [discriminate|]. eexists. reflexivity. }
  unfold Run.write at 1 2. rewrite RunFacts.bind_done.
  rewrite RunFacts.bind_lift_ok, RunFacts.bind_done.
  match goal with
  | |- context [Run.bind (Run.for_each ?b languages) _] =>
      destruct (for_each_prefix b category_path languages
                  (category_round repos languages))
        as (cats & cdone & crest & Hcats & Hcl & Hcp & Hcres);
      destruct (Run.for_each b languages) as [cw cr]
  end.
  cbn [fst snd] in *. subst cw.
  destruct Hcres as [(-> & -> & _)|[Hne [e ->]]].
  2:{ exists (("output/index.html", IndexHtml idx)
              :: ("output/categories/index.html", CategoriesIndexHtml cidx) :: cats),
        ("index.html" :: "categories/index.html" :: map category_file cdone),
        (map category_file crest ++ map repo_file repos)%list.
      split; [rewrite Hcl, map_app; cbn [app]; now rewrite <- app_assoc|].
      split; [cbn [map fst]; rewrite Hcp, map_map; reflexivity|].
      right. split; [|eexists; reflexivity].
      destruct crest; [contradiction|discriminate]. }
  rewrite app_nil_r in Hcl. subst cdone.
  rewrite RunFacts.bind_done.
  match goal with
  | |- context [Run.bind (Run.for_each ?b repos) _] =>
      destruct (for_each_prefix b repo_path repos (repo_round repos))
        as (rps & rdone & rrest & Hrps & Hrl & Hrp & Hrres);
      destruct (Run.for_each b repos) as [rw rr]
  end.
  cbn [fst snd] in *. subst rw.
  destruct Hrres as [(-> & -> & Hall)|[Hne [e ->]]].
  2:{ exists (("output/index.html", IndexHtml idx)
              :: ("output/categories/index.html", CategoriesIndexHtml cidx)
              :: cats ++ rps)%list,
        ("index.html" :: "categories/index.html"
         :: map category_file languages ++ map repo_file rdone)%list,
        (map repo_file rrest).
      split; [rewrite Hrl at 1; rewrite map_app; cbn [app];
              now rewrite <- app_assoc|].
      split; [cbn [map fst]; rewrite !map_app, Hcp, Hrp, !map_map; reflexivity|].
      right. split; [|eexists; reflexivity].
      destruct rrest; [contradiction|discriminate]. }
  rewrite app_nil_r in Hrl. subst rdone.
  rewrite RunFacts.bind_done.
  destruct (generate_sitemap now BASE_URL repos languages) as [urls|e] eqn:Hsm.
  - exists (("output/index.html", IndexHtml idx)
            :: ("output/categories/index.html", CategoriesIndexHtml cidx)
            :: cats ++ rps)%list,
      ("index.html" :: "categories/index.html"
       :: map category_file languages ++ map repo_file repos)%list, [].
    split; [now rewrite app_nil_r|].
    split; [cbn [map fst]; rewrite !map_app, Hcp, Hrp, !map_map; reflexivity|].
    left. exists urls. split; [reflexivity|]. split; [reflexivity|].
    rewrite RunFacts.bind_lift_ok. cbn. now rewrite <- !app_assoc.
  - exfalso. unfold generate_sitemap in Hsm.
    destruct (Res.mapM _ repos) as [us|e'] eqn:Hus; [discriminate|].
    apply mapM_raise_inv in Hus as (r & Hr & Hraise).
    destruct (Hall r Hr) as [f Hf].
    destruct (Repo.full_name r); discriminate.
Qed.

End StopFacts.

Lemma occurrences_count_occ x l : occurrences x l = count_occ string_dec l x.
Proof.
  unfold occurrences. induction l as [|y l IH]; simpl; [reflexivity|].
  destruct (string_dec y x) as [->|Hne].
  - rewrite String.eqb_refl. simpl. now rewrite IH.
  - replace (String.eqb x y) with false; [assumption|].
    symmetry. apply String.eqb_neq. congruence.
Qed.

(** Every listed string is listed once exactly when none is repeated. *)
Lemma occurrences_once_iff_nodup l :
  (forall x, In x l -> occurrences x l = 1%nat) <-> NoDup l.
Proof.
  rewrite (NoDup_count_occ' string_dec). split; intros H x Hx.
  - rewrite <- occurrences_count_occ. now apply H.
  - rewrite occurrences_count_occ. now apply H.
Qed.

(** C1, as stated, fails.  With one C repository before the fallback data,
    whose record 23 is in C++, the record set is well-formed and the run
    completes, but the page [categories/c.html] has two sitemap entries,
    one for each of the two languages with the slug "c". *)
Lemma colliding_languages_are_listed_twice :
  well_formed (c_repo :: get_mock_data) = true
  /\ exists pages urls,
       main "2025-01-28" (c_repo :: get_mock_data)
       = ((pages ++ [("output/sitemap.xml", SitemapXml urls)])%list, Ok tt)
       /\ In "output/categories/c.html" (map fst pages)
       /\ occurrences (BASE_URL ++ "/categories/c.html") (map loc urls) = 2%nat.
Proof.
  assert (Hwf : well_formed (c_repo :: get_mock_data) = true)
    by (vm_compute; reflexivity).
  split; [exact Hwf|].
  destruct (main_pages "2025-01-28" (c_repo :: get_mock_data) Hwf)
    as (pages & urls & Hmain & Hp & Hu).
  exists pages, urls. split; [exact Hmain|]. rewrite Hp, Hu. split.
  - vm_compute. tauto.
  - vm_compute. reflexivity.
Qed.

(** C1, amended.  A run over a well-formed record set completes.  Whenever
    a run completes, for every record set, it has written the pages and
    then the sitemap; the pages are the files of [page_files] (home,
    language index, one per language of [language_stats], one per record)
    under [output/], and the sitemap lists the same files under the base
    address, in the same order.  So an address is listed if and only if its
    page is written, and as often as the page is written; every page has
    exactly one sitemap entry if and only if no two pages have the same
    file name. *)
Theorem sitemap_matches_generated_pages (now : string) (repos : list Repo.t) :
  (well_formed repos = true -> exists log, main now repos = (log, Ok tt))
  /\ forall log,
       main now repos = (log, Ok tt) ->
       exists pages urls,
         log = (pages ++ [("output/sitemap.xml", SitemapXml urls)])%list
         /\ map fst pages = map (fun rel => "output/" ++ rel) (page_files repos)
         /\ map loc urls = map (fun rel => BASE_URL ++ "/" ++ rel) (page_files repos)
         /\ (forall rel,
               In ("output/" ++ rel) (map fst pages)
               <-> In (BASE_URL ++ "/" ++ rel) (map loc urls))
         /\ (forall rel,
               occurrences ("output/" ++ rel) (map fst pages)
               = occurrences (BASE_URL ++ "/" ++ rel) (map loc urls))
         /\ ((forall rel,
                In ("output/" ++ rel) (map fst pages) ->
                occurrences (BASE_URL ++ "/" ++ rel) (map loc urls) = 1%nat)
             <-> NoDup (page_files repos)).
Proof.
  split.
  { intros Hwf. destruct (main_pages now repos Hwf) as (pages & urls & Hmain & _).
    eauto. }
  intros log Hmain.
  destruct (StopFacts.main_log now repos)
    as (pages & done & rest & Hsplit & Hp
        & [(urls & -> & Hsm & Hrun)|(_ & e & Hrun)]);
    rewrite Hrun in Hmain; inversion Hmain; subst log; clear Hmain.
  rewrite app_nil_r in Hsplit. subst done.
  pose proof (generate_sitemap_locs _ _ _ _ _ Hsm) as Hu.
  fold (page_files repos) in Hu.
  assert (Hin : forall rel,
            In ("output/" ++ rel) (map fst pages) <-> In rel (page_files repos)).
  { intros rel. rewrite Hp. apply (PathFacts.in_map_prefix "output/"). }
  assert (Hocc : forall rel,
            occurrences (BASE_URL ++ "/" ++ rel) (map loc urls)
            = occurrences rel (page_files repos)).
  { intros rel. rewrite Hu.
    change (fun rel0 => BASE_URL ++ "/" ++ rel0)
      with (fun rel0 => (BASE_URL ++ "/") ++ rel0).
    change (BASE_URL ++ "/" ++ rel) with ((BASE_URL ++ "/") ++ rel).
    apply occurrences_prefix. }
  exists pages, urls. split; [reflexivity|]. split; [exact Hp|]. split; [exact Hu|].
  split; [|split].
  - intros rel. rewrite Hin, Hu.
    change (fun rel0 => BASE_URL ++ "/" ++ rel0)
      with (fun rel0 => (BASE_URL ++ "/") ++ rel0).
    change (BASE_URL ++ "/" ++ rel) with ((BASE_URL ++ "/") ++ rel).
    now rewrite PathFacts.in_map_prefix.
  - intros rel. rewrite Hocc, Hp. apply (occurrences_prefix "output/").
  - rewrite <- occurrences_once_iff_nodup. split; intros H rel Hrel.
    + rewrite <- Hocc. apply H, Hin, Hrel.
    + rewrite Hocc. apply H, Hin, Hrel.
Qed.

Lemma sitemap_matches_generated_pages_witness :
  exists log pages urls,
    main "2025-01-28" get_mock_data = (log, Ok tt)
    /\ log = (pages ++ [("output/sitemap.xml", SitemapXml urls)])%list
    /\ map fst pages = map (fun rel => "output/" ++ rel) (page_files get_mock_data)
    /\ map loc urls = map (fun rel => BASE_URL ++ "/" ++ rel) (page_files get_mock_data)
    /\ (forall rel,
          In ("output/" ++ rel) (map fst pages)
          <-> In (BASE_URL ++ "/" ++ rel) (map loc urls))
    /\ (forall rel,
          occurrences ("output/" ++ rel) (map fst pages)
          = occurrences (BASE_URL ++ "/" ++ rel) (map loc urls))
    /\ ((forall rel,
           In ("output/" ++ rel) (map fst pages) ->
           occurrences (BASE_URL ++ "/" ++ rel) (map loc urls) = 1%nat)
        <-> NoDup (page_files get_mock_data)).
Proof.
  destruct (main "2025-01-28" get_mock_data) as [log [[]|e]] eqn:E;
    [|vm_compute in E; discriminate E].
  destruct (proj2 (sitemap_matches_generated_pages "2025-01-28" get_mock_data) log E)
    as (pages & urls & H).
  exists log, pages, urls. split; [reflexivity|exact H].
Defined.

(** ** Colliding slugs *)

Lemma Forall2_in_r {A B : Type} (R : A -> B -> Prop) (l : list A) (ws : list B) (w : B) :
  Forall2 R l ws -> In w ws -> exists x, In x l /\ R x w.
Proof.
  induction 1 as [|x y l ws Hxy _ IH]; simpl; [tauto|].
  intros [<-|Hin]; [eauto|].
  destruct (IH Hin) as (x' & Hx' & HR). eauto.
Qed.

Lemma Forall2_split_l {A B : Type} (R : A -> B -> Prop)
    (before : list A) (x : A) (after : list A) (ws : list B) :
  Forall2 R (before ++ x :: after) ws ->
  exists ws_before w ws_after,
    ws = (ws_before ++ w :: ws_after)%list
    /\ R x w /\ Forall2 R after ws_after.
Proof.
  intros H. apply Forall2_app_inv_l in H as (wb & w' & _ & H & ->).
  inversion H; subst. eauto 6.
Qed.

Lemma generate_repo_page_full_name r repos page :
  generate_repo_page r repos = Ok page -> exists fn, Repo.full_name r = Some fn.
Proof.
  unfold generate_repo_page.
  destruct (Repo.full_name r); [eauto|discriminate].
Qed.

(** Three languages of the colour table, "C", "C++" and "C#", have one
    slug. *)
Example c_family_slugs :
  slugify "C" = "c" /\ slugify "C++" = "c" /\ slugify "C#" = "c".
Proof. repeat split; reflexivity. Qed.

(** C6, as stated, fails.  With one C repository before the fallback data,
    whose record 23 is in C++, the two languages have the slug "c": the run
    completes, and [categories/c.html] holds the C++ page only. *)
Lemma c_and_cpp_pages_collide_silently :
  "C" <> "C++" /\ slugify "C" = slugify "C++"
  /\ In "C" (Dict.keys (language_stats (c_repo :: get_mock_data)))
  /\ In "C++" (Dict.keys (language_stats (c_repo :: get_mock_data)))
  /\ exists log page,
       main "2025-01-28" (c_repo :: get_mock_data) = (log, Ok tt)
       /\ Run.file_at log "output/categories/c.html" = Some (CategoryHtml page)
       /\ cat_language page = "C++"
       /\ map card_full_name (cat_cards page) = ["gamedev/cpp-game-engine"].
Proof.
  split; [discriminate|]. split; [reflexivity|].
  split; [vm_compute; tauto|]. split; [vm_compute; tauto|].
  eexists. eexists. split; [vm_compute; reflexivity|].
  split; [vm_compute; reflexivity|]. split; reflexivity.
Qed.

Lemma log_split_repo (a b : string * file) (cats wb : list (string * file))
    (w : string * file) (wa : list (string * file)) (s : string * file) :
  (a :: b :: cats ++ (wb ++ w :: wa) ++ [s])%list
  = ((a :: b :: cats ++ wb) ++ w :: (wa ++ [s]))%list.
Proof. cbn [app]. now rewrite <- !app_assoc. Qed.

Lemma log_split_category (a b : string * file) (wb : list (string * file))
    (w : string * file) (wa rps : list (string * file)) (s : string * file) :
  (a :: b :: (wb ++ w :: wa) ++ rps ++ [s])%list
  = ((a :: b :: wb) ++ w :: (wa ++ rps ++ [s]))%list.
Proof. cbn [app]. now rewrite <- !app_assoc. Qed.

(** C6, amended.  [main] has no check on slugs: for every well-formed
    record set it completes, and the path of a slug holds the page of the
    last record, or of the last language, with that slug; pages written
    there before are overwritten. *)
Theorem colliding_slugs_are_overwritten (now : string) (repos : list Repo.t) :
  well_formed repos = true ->
  exists log,
    main now repos = (log, Ok tt)
    /\ (forall before r after fn,
          repos = (before ++ r :: after)%list ->
          Repo.full_name r = Some fn ->
          (forall r' fn', In r' after -> Repo.full_name r' = Some fn' ->
                          slugify fn' <> slugify fn) ->
          exists page,
            generate_repo_page r repos = Ok page
            /\ Run.file_at log ("output/repos/" ++ slugify fn ++ ".html")
               = Some (RepoHtml page))
    /\ (forall before lang after,
          Dict.keys (language_stats repos) = (before ++ lang :: after)%list ->
          (forall lang', In lang' after -> slugify lang' <> slugify lang) ->
          exists page,
            generate_category_page lang repos (Dict.keys (language_stats repos))
            = Ok page
            /\ Run.file_at log ("output/categories/" ++ slugify lang ++ ".html")
               = Some (CategoryHtml page)).
Proof.
  intros Hwf.
  destruct (main_writes now repos Hwf)
    as (idx & cidx & cats & rps & urls & _ & _ & Hcats & Hrps & _ & Hmain).
  eexists. split; [exact Hmain|]. split.
  - intros before r after fn Hsplit Hfn Hlast.
    rewrite Hsplit in Hrps at 1.
    apply Forall2_split_l in Hrps
      as (wb & w & wa & -> & (page & Hp & ->) & Hafter).
    exists page. split; [assumption|].
    unfold repo_file. rewrite Hfn. cbn [get_default].
    rewrite log_split_repo.
    apply RunFacts.file_at_last.
    intros p f Hin. apply in_app_or in Hin as [Hin|Hin].
    + destruct (Forall2_in_r _ _ _ _ Hafter Hin)
        as (r' & Hr' & page' & Hp' & [= -> ->]).
      destruct (generate_repo_page_full_name _ _ _ Hp') as [fn' Hfn'].
      unfold repo_file. rewrite Hfn'. cbn [get_default].
      intros E. apply PathFacts.repo_path_inj in E.
      now apply (Hlast r' fn' Hr' Hfn').
    + destruct Hin as [[= <- <-]|[]]. discriminate.
  - intros before lang after Hsplit Hlast.
    rewrite Hsplit in Hcats at 1.
    apply Forall2_split_l in Hcats
      as (wb & w & wa & -> & (page & Hp & ->) & Hafter).
    exists page. split; [assumption|].
    rewrite log_split_category.
    apply RunFacts.file_at_last.
    intros p f Hin. apply in_app_or in Hin as [Hin|Hin];
      [|apply in_app_or in Hin as [Hin|Hin]].
    + destruct (Forall2_in_r _ _ _ _ Hafter Hin)
        as (lang' & Hl' & page' & Hp' & [= -> ->]).
      unfold category_file.
      intros E. apply PathFacts.category_path_inj in E.
      now apply (Hlast lang' Hl').
    + destruct (Forall2_in_r _ _ _ _ Hrps Hin)
        as (r' & Hr' & page' & Hp' & [= -> ->]).
      discriminate.
    + destruct Hin as [[= <- <-]|[]]. discriminate.
Qed.

Lemma colliding_slugs_are_overwritten_witness :
  exists log,
    main "2025-01-28" (c_repo :: get_mock_data) = (log, Ok tt)
    /\ exists page,
         generate_category_page "C++" (c_repo :: get_mock_data)
           (Dict.keys (language_stats (c_repo :: get_mock_data))) = Ok page
         /\ Run.file_at log ("output/categories/" ++ slugify "C++" ++ ".html")
            = Some (CategoryHtml page).
Proof.
  destruct (colliding_slugs_are_overwritten "2025-01-28" (c_repo :: get_mock_data))
    as (log & Hmain & _ & Hcat); [vm_compute; reflexivity|].
  exists log. split; [exact Hmain|].
  apply (Hcat ["C"; "Python"; "Rust"; "TypeScript"; "Go"; "Vue"; "JavaScript";
               "Dart"; "Elixir"; "Clojure"; "Zig"; "PHP"; "Swift"; "Kotlin"]
              "C++" ["Ruby"; "Haskell"]).
  - vm_compute. reflexivity.
  - intros lang' [<-|[<-|[]]]; vm_compute; discriminate.
Defined.

(** ** Records without identity *)

(** C7, as stated, fails.  A record without [id] and with a null language
    goes through: after the fallback data the run completes, and the page
    of the record is written. *)
Lemma record_without_id_is_accepted :
  Repo.id (without_id null_language_repo) = None
  /\ exists log page,
       main "2025-01-28" (get_mock_data ++ [without_id null_language_repo])
       = (log, Ok tt)
       /\ Run.file_at log "output/repos/alice-dotfiles.html" = Some (RepoHtml page)
       /\ rp_full_name page = "alice/dotfiles".
Proof.
  split; [reflexivity|].
  eexists. eexists. split; [vm_compute; reflexivity|].
  split; [vm_compute; reflexivity|reflexivity].
Qed.

Lemma generate_repo_page_raises r repos :
  In r repos -> lacks_identity r = true ->
  exists e, generate_repo_page r repos = Raise e.
Proof.
  intros Hin H. unfold lacks_identity in H. unfold generate_repo_page.
  destruct (Repo.full_name r) as [fn|]; [|cbn; eauto].
  cbn [Res.getitem Res.bind].
  destruct (Repo.id r) as [i|] eqn:Hid; [discriminate|].
  unfold similar_repos.
  match goal with
  | |- context [Res.filterM ?p repos] =>
      destruct (ResFacts.filterM_raise p repos r (KeyError "id") Hin) as [e He]
  end.
  - rewrite H, Hid. reflexivity.
  - rewrite He. cbn. eauto.
Qed.

(** C7, amended.  When a record lacks [full_name], or lacks [id] and has a
    non-empty language, [main] stops on an exception: it neither skips the
    record nor completes.  The exception is the uncaught [KeyError] of the
    subscript (or an earlier exception), which names a key and no
    position. *)
Theorem record_without_identity_aborts (now : string) (repos : list Repo.t) :
  existsb lacks_identity repos = true ->
  exists log e, main now repos = (log, Raise e).
Proof.
  intros H. apply existsb_exists in H as (r & Hin & Hr).
  assert (Hraise : raises (main now repos)).
  { unfold main.
    apply RunFacts.raises_bind_r. intros index_html.
    apply RunFacts.raises_bind_r. intros _.
    apply RunFacts.raises_bind_r. intros categories_index.
    apply RunFacts.raises_bind_r. intros _.
    apply RunFacts.raises_bind_r. intros _.
    apply RunFacts.raises_bind_l.
    apply RunFacts.raises_for_each with (x := r); [assumption|].
    destruct (Repo.full_name r) as [fn|] eqn:Hfn.
    - cbn [Res.getitem]. rewrite RunFacts.bind_lift_ok.
      destruct (generate_repo_page_raises r repos Hin Hr) as [e He].
      rewrite He. exists e. reflexivity.
    - exists (KeyError "full_name"). reflexivity. }
  destruct Hraise as [e He]. destruct (main now repos) as [log res].
  simpl in He. subst res. eauto.
Qed.

Lemma record_without_identity_aborts_witness :
  exists log e,
    main "2025-01-28" (get_mock_data ++ [without_full_name null_language_repo])
    = (log, Raise e).
Proof.
  apply (record_without_identity_aborts "2025-01-28"
           (get_mock_data ++ [without_full_name null_language_repo])).
  vm_compute. reflexivity.
Defined.

Example record_without_full_name_trace :
  main "2025-01-28" [without_full_name null_language_repo]
  = ([], Raise (KeyError "full_name")).
Proof. vm_compute. reflexivity. Qed.

Example record_without_id_trace :
  snd (main "2025-01-28" [without_id c_repo]) = Raise (KeyError "id").
Proof. vm_compute. reflexivity. Qed.

(** ** The empty record set *)

(** C8. On the empty record set [main] completes: the statistics and the
    language list are empty, the home page shows 0 repositories, 0 stars,
    0 forks and 0 languages with no language link and no card, the
    language index has no entry, and the sitemap lists the two fixed
    pages. *)
Theorem empty_record_set_renders (now : string) :
  language_stats [] = []
  /\ Dict.keys (language_stats []) = []
  /\ firstn 20 (@nil Repo.t) = []
  /\ generate_index_page [] (language_stats [])
     = Ok {| idx_repositories := "0";
             idx_total_stars := "0";
             idx_total_forks := "0";
             idx_languages := 0;
             idx_categories := [];
             idx_trending := [] |}
  /\ main now []
     = ([("output/index.html",
          IndexHtml {| idx_repositories := "0";
                       idx_total_stars := "0";
                       idx_total_forks := "0";
                       idx_languages := 0;
                       idx_categories := [];
                       idx_trending := [] |});
         ("output/categories/index.html", CategoriesIndexHtml []);
         ("output/sitemap.xml",
          SitemapXml
            [{| loc := BASE_URL ++ "/index.html"; lastmod := now;
                changefreq := "daily"; priority := "1.0" |};
             {| loc := BASE_URL ++ "/categories/index.html"; lastmod := now;
                changefreq := "daily"; priority := "0.9" |}])],
        Ok tt).
Proof. repeat split; reflexivity. Qed.

(** ** Instances on the fallback data *)

(** The similar set of [pythonista/fastapi-starter-template]: the three
    other Python records, by stars. *)
Example fastapi_similar_ids :
  Res.bind (similar_repos fastapi get_mock_data)
           (fun sims => Ok (map Repo.id (firstn 4 sims)))
  = Ok [Some 1; Some 15; Some 6].
Proof. vm_compute. reflexivity. Qed.

Lemma similar_set_properties_witness :
  exists sims, similar_repos fastapi get_mock_data = Ok sims.
Proof.
  apply (proj2 (similar_set_properties fastapi get_mock_data)).
  intros r Hr.
  assert (H : forallb (fun r => is_some (Repo.id r)) (fastapi :: get_mock_data) = true)
    by (vm_compute; reflexivity).
  rewrite forallb_forall in H. specialize (H r Hr).
  destruct (Repo.id r); [discriminate|discriminate H].
Defined.

Lemma slugify_charset_trim_idempotent_witness :
  slugify (slugify "C++ Game Engine!") = slugify "C++ Game Engine!".
Proof.
  apply (proj2 (proj2 (proj2 (slugify_charset_trim_idempotent "C++ Game Engine!")))).
Defined.

Lemma home_table_and_language_index_orders_witness :
  exists page,
    generate_index_page get_mock_data (language_stats get_mock_data) = Ok page
    /\ idx_categories page = index_categories (language_stats get_mock_data).
Proof.
  destruct (generate_index_page get_mock_data (language_stats get_mock_data))
    as [page|e] eqn:E.
  - exists page. split; [reflexivity|].
    apply (proj1 home_table_and_language_index_orders get_mock_data). exact E.
  - vm_compute in E. discriminate E.
Defined.

Lemma topics_on_cards_and_detail_pages_witness :
  exists page,
    generate_repo_page fastapi get_mock_data = Ok page
    /\ rp_topics page = detail_topics_block fastapi.
Proof.
  destruct (generate_repo_page fastapi get_mock_data) as [page|e] eqn:E.
  - exists page. split; [reflexivity|].
    apply (proj2 (proj2 (proj2 topics_on_cards_and_detail_pages))
             fastapi get_mock_data page E).
  - vm_compute in E. discriminate E.
Defined.

(** The scenario of the fallback data: 16 languages, 25 records, 140900
    stars. *)
Example fallback_data_statistics :
  sorted_strings (Dict.keys (language_stats get_mock_data))
  = ["C++"; "Clojure"; "Dart"; "Elixir"; "Go"; "Haskell"; "JavaScript";
     "Kotlin"; "PHP"; "Python"; "Ruby"; "Rust"; "Swift"; "TypeScript";
     "Vue"; "Zig"]
  /\ sum (map snd (language_stats get_mock_data)) = 25
  /\ sum (map stars get_mock_data) = 140900
  /\ format_number 140900 = Ok "140.9k".
Proof. repeat split; vm_compute; reflexivity. Qed.

(** * Further properties *)

(** ** Number formatting, away from ties *)

(** X1. From 1000 up to 999999, when [n] is not half-way between two
    tenths of a thousand, [format_number n] shows [n / 1000] rounded to the
    nearest tenth, [(n + 50) / 100] tenths, followed by "k"; likewise in
    millions from 1000000 up to [2^52]. *)
Theorem format_number_rounds_to_nearest_tenth (n : Z) :
  (1000 <= n < 1000000 -> n mod 100 <> 50 ->
   format_number n = Ok (Float.fixed_1 ((n + 50) / 100) ++ "k"))
  /\ (1000000 <= n < 2 ^ 52 -> n mod 100000 <> 50000 ->
      format_number n = Ok (Float.fixed_1 ((n + 50000) / 100000) ++ "m")).
Proof.
  split.
  - intros Hn Htie.
    destruct (format_number_thousands n Hn) as (t & Hf & _ & Ht).
    replace ((n + 50) / 100) with t; [assumption|].
    Z.to_euclidean_division_equations. lia.
  - intros Hn Htie.
    destruct (format_number_millions n Hn) as (t & Hf & _ & Ht).
    replace ((n + 50000) / 100000) with t; [assumption|].
    Z.to_euclidean_division_equations. lia.
Qed.

Lemma format_number_rounds_to_nearest_tenth_witness :
  format_number 8949 = Ok (Float.fixed_1 ((8949 + 50) / 100) ++ "k").
Proof.
  apply (proj1 (format_number_rounds_to_nearest_tenth 8949)).
  - split; [discriminate|reflexivity].
  - discriminate.
Defined.

(** X2. The thousands do not roll over into millions: every count from
    999951 to 999999 is shown as "1000.0k". *)
Theorem format_number_just_below_a_million (n : Z) :
  999950 < n < 1000000 -> format_number n = Ok "1000.0k".
Proof.
  intros Hn.
  destruct (format_number_thousands n ltac:(lia)) as (t & Hf & _ & Ht).
  assert (t = 10000) by lia. subst t. exact Hf.
Qed.

Lemma format_number_just_below_a_million_witness :
  format_number 999951 = Ok "1000.0k".
Proof.
  apply (format_number_just_below_a_million 999951).
  split; reflexivity.
Defined.

(** ** Slugs as joined words *)

Module WordFacts.

Import Str Shape.

Lemma split_not_nil s : split_non_alnum s <> [].
Proof.
  destruct s as [|c s]; simpl; [discriminate|].
  destruct (is_alnum c); [|discriminate].
  destruct (split_non_alnum s); discriminate.
Qed.

Lemma split_cons_alnum c s :
  is_alnum c = true ->
  split_non_alnum (String c s)
  = String c (hd "" (split_non_alnum s)) :: tl (split_non_alnum s).
Proof.
  intros H. simpl. rewrite H.
  pose proof (split_not_nil s). destruct (split_non_alnum s); [contradiction|reflexivity].
Qed.

Lemma split_cons_other c s :
  is_alnum c = false -> split_non_alnum (String c s) = "" :: split_non_alnum s.
Proof. intros H. simpl. now rewrite H. Qed.

Lemma split_hd_tl s :
  split_non_alnum s = hd "" (split_non_alnum s) :: tl (split_non_alnum s).
Proof.
  pose proof (split_not_nil s). destruct (split_non_alnum s); [contradiction|reflexivity].
Qed.

(** Two splits with the same first piece and the same words have the same
    words after the first piece. *)
Lemma words_tl s t :
  hd "" (split_non_alnum s) = hd "" (split_non_alnum t) ->
  alnum_words s = alnum_words t ->
  filter non_empty (tl (split_non_alnum s)) = filter non_empty (tl (split_non_alnum t)).
Proof.
  unfold alnum_words.
  pose proof (split_not_nil s). pose proof (split_not_nil t).
  destruct (split_non_alnum s) as [|w ws]; [contradiction|].
  destruct (split_non_alnum t) as [|w' ws']; [contradiction|].
  cbn [hd tl filter]. intros -> E. destruct (non_empty w'); congruence.
Qed.

Lemma words_cons_alnum c s t :
  is_alnum c = true ->
  hd "" (split_non_alnum s) = hd "" (split_non_alnum t) ->
  alnum_words s = alnum_words t ->
  alnum_words (String c s) = alnum_words (String c t)
  /\ hd "" (split_non_alnum (String c s)) = hd "" (split_non_alnum (String c t)).
Proof.
  intros Hc Hhd Hw. unfold alnum_words.
  rewrite !split_cons_alnum by assumption.
  change (filter non_empty (String c ?x :: ?l))
    with (String c x :: filter non_empty l).
  cbn [hd]. rewrite Hhd, (words_tl s t Hhd Hw). now split.
Qed.

Lemma words_cons_other c s :
  is_alnum c = false -> alnum_words (String c s) = alnum_words s.
Proof. intros H. unfold alnum_words. now rewrite split_cons_other. Qed.

(** Replacing the runs keeps the words. *)
Lemma sub_runs_words s : forall b,
  alnum_words (sub_runs b s) = alnum_words s
  /\ (b = false ->
      hd "" (split_non_alnum (sub_runs b s)) = hd "" (split_non_alnum s)).
Proof.
  induction s as [|c s IH]; intros b; [now split|].
  cbn [sub_runs]. destruct (is_alnum c) eqn:Hc.
  - destruct (IH false) as [Hw Hhd]. specialize (Hhd eq_refl).
    destruct (words_cons_alnum c _ _ Hc Hhd Hw). now split.
  - destruct (IH true) as [Hw _]. rewrite (words_cons_other c s Hc).
    destruct b.
    + split; [assumption|discriminate].
    + rewrite (words_cons_other hyphen _ SlugFacts.hyphen_not_alnum).
      split; [assumption|]. intros _.
      now rewrite (split_cons_other c s Hc),
                  (split_cons_other hyphen _ SlugFacts.hyphen_not_alnum).
Qed.

Lemma lstrip_words s : alnum_words (lstrip s) = alnum_words s.
Proof.
  induction s as [|c s IH]; [reflexivity|]. cbn [lstrip].
  destruct (Ascii.eqb c hyphen) eqn:E; [|reflexivity].
  apply Ascii.eqb_eq in E. subst c.
  now rewrite (words_cons_other hyphen s SlugFacts.hyphen_not_alnum).
Qed.

Lemma rstrip_words s :
  alnum_words (rstrip s) = alnum_words s
  /\ hd "" (split_non_alnum (rstrip s)) = hd "" (split_non_alnum s).
Proof.
  induction s as [|c s [Hw Hhd]]; [now split|].
  cbn [rstrip]. destruct (rstrip s) as [|d t] eqn:R.
  - destruct (Ascii.eqb c hyphen) eqn:E.
    + apply Ascii.eqb_eq in E. subst c.
      rewrite (words_cons_other hyphen s SlugFacts.hyphen_not_alnum).
      rewrite (split_cons_other hyphen s SlugFacts.hyphen_not_alnum).
      now split.
    + destruct (is_alnum c) eqn:Hc.
      * exact (words_cons_alnum c _ _ Hc Hhd Hw).
      * rewrite !(words_cons_other c _ Hc), !(split_cons_other c _ Hc).
        now split.
  - destruct (is_alnum c) eqn:Hc.
    + exact (words_cons_alnum c _ _ Hc Hhd Hw).
    + rewrite !(words_cons_other c _ Hc), !(split_cons_other c _ Hc).
      now split.
Qed.

Lemma slugify_words s : alnum_words (slugify s) = alnum_words (lower s).
Proof.
  unfold slugify, strip, re_sub_non_alnum.
  rewrite (proj1 (rstrip_words _)), lstrip_words.
  apply (proj1 (sub_runs_words _ false)).
Qed.

Lemma concat_cons_char c w ws :
  String.concat "-" (String c w :: ws) = String c (String.concat "-" (w :: ws)).
Proof. destruct ws; reflexivity. Qed.

(** Joining the pieces of a text of [[a-z0-9-]] gives the text back. *)
Lemma join_split s : forall b,
  collapsed b s = true -> String.concat "-" (split_non_alnum s) = s.
Proof.
  induction s as [|c s IH]; intros b H; [reflexivity|].
  cbn [collapsed] in H. destruct (is_alnum c) eqn:Hc.
  - rewrite (split_cons_alnum c s Hc), concat_cons_char, <- split_hd_tl.
    f_equal. eauto.
  - apply andb_true_iff in H as [H Hs].
    apply andb_true_iff in H as [Hh _]. apply Ascii.eqb_eq in Hh. subst c.
    rewrite (split_cons_other hyphen s SlugFacts.hyphen_not_alnum).
    pose proof (IH true Hs) as IHs. pose proof (split_not_nil s) as Hnil.
    destruct (split_non_alnum s) as [|w ws]; [contradiction|].
    change (String.concat "-" ("" :: w :: ws))
      with ("" ++ "-" ++ String.concat "-" (w :: ws)).
    rewrite IHs. reflexivity.
Qed.

(** In a slug no piece after the first is empty, and the first is not
    when the slug starts with a letter or digit. *)
Lemma split_pieces s : forall b,
  collapsed b s = true -> ends_with_hyphen s = false ->
  forallb non_empty (tl (split_non_alnum s)) = true
  /\ (b = true -> s <> "" -> non_empty (hd "" (split_non_alnum s)) = true).
Proof.
  induction s as [|c s IH]; intros b H He; [split; [reflexivity|congruence]|].
  cbn [collapsed] in H. destruct (is_alnum c) eqn:Hc.
  - assert (He' : ends_with_hyphen s = false).
    { destruct s; [reflexivity|exact He]. }
    destruct (IH false H He') as [Htl _].
    rewrite (split_cons_alnum c s Hc). cbn [tl hd]. split; [assumption|].
    reflexivity.
  - apply andb_true_iff in H as [H Hs].
    apply andb_true_iff in H as [Hh Hb]. apply Ascii.eqb_eq in Hh. subst c.
    destruct b; [discriminate|].
    assert (Hne : s <> "").
    { intros ->. discriminate He. }
    assert (He' : ends_with_hyphen s = false).
    { destruct s; [contradiction|exact He]. }
    destruct (IH true Hs He') as [Htl Hhd].
    rewrite (split_cons_other hyphen s SlugFacts.hyphen_not_alnum). cbn [tl].
    split; [|discriminate].
    specialize (Hhd eq_refl Hne). pose proof (split_not_nil s) as Hnil.
    destruct (split_non_alnum s) as [|w ws]; [contradiction|].
    cbn [forallb hd tl] in *. now rewrite Htl, Hhd.
Qed.

Lemma join_words s : slug_shape s -> String.concat "-" (alnum_words s) = s.
Proof.
  intros [Hc He]. destruct s as [|c s]; [reflexivity|].
  destruct (split_pieces _ true Hc He) as [Htl Hhd].
  specialize (Hhd eq_refl ltac:(discriminate)).
  unfold alnum_words.
  replace (filter non_empty (split_non_alnum (String c s)))
    with (split_non_alnum (String c s)); [now apply (join_split _ true)|].
  pose proof (split_not_nil (String c s)) as Hnil.
  destruct (split_non_alnum (String c s)) as [|w ws]; [contradiction|].
  cbn [filter hd tl] in *. rewrite Hhd. f_equal.
  symmetry. apply forallb_filter_id. exact Htl.
Qed.

End WordFacts.

(** X3. A slug is the words of the lowercased text, its maximal runs of
    letters a-z and digits, joined by single hyphens:
    ['-'.join(re.findall('[a-z0-9]+', text.lower()))]. *)
Theorem slugify_joins_words (text : string) :
  slugify text = String.concat "-" (alnum_words (Str.lower text)).
Proof.
  rewrite <- (WordFacts.slugify_words text).
  symmetry. apply WordFacts.join_words. apply SlugFacts.slugify_shape.
Qed.

(** X4. Two texts have the same slug exactly when their lowercased forms
    have the same words: case, punctuation and spacing make no
    difference, and nothing else is lost. *)
Theorem slugify_collision_iff (a b : string) :
  slugify a = slugify b
  <-> alnum_words (Str.lower a) = alnum_words (Str.lower b).
Proof.
  split; intros H.
  - rewrite <- !WordFacts.slugify_words. now rewrite H.
  - rewrite <- (WordFacts.join_words (slugify a)), <- (WordFacts.join_words (slugify b))
      by apply SlugFacts.slugify_shape.
    now rewrite !WordFacts.slugify_words, H.
Qed.

Lemma slugify_collision_iff_witness :
  slugify "Foo/Bar.js" = slugify "foo--bar js".
Proof.
  apply (proj2 (slugify_collision_iff "Foo/Bar.js" "foo--bar js")).
  reflexivity.
Defined.

Lemma alnum_words_nil_iff s : alnum_words s = [] <-> exists_alnum s = false.
Proof.
  induction s as [|c s IH]; [split; reflexivity|].
  cbn [exists_alnum]. destruct (Str.is_alnum c) eqn:Hc.
  - unfold alnum_words. rewrite (WordFacts.split_cons_alnum c s Hc).
    split; discriminate.
  - now rewrite (WordFacts.words_cons_other c s Hc).
Qed.

(** X5. The slug is empty exactly when the lowercased text has no letter
    a-z and no digit; the file of such a name is [.html]. *)
Theorem slugify_empty_iff (text : string) :
  slugify text = "" <-> exists_alnum (Str.lower text) = false.
Proof.
  rewrite <- alnum_words_nil_iff, <- WordFacts.slugify_words. split.
  - now intros ->.
  - intros H. rewrite <- (WordFacts.join_words (slugify text))
      by apply SlugFacts.slugify_shape.
    now rewrite H.
Qed.

Lemma slugify_empty_iff_witness : slugify "+++ !" = "".
Proof. apply (proj2 (slugify_empty_iff "+++ !")). reflexivity. Defined.

(** ** Language statistics *)

Lemma sum_perm l l' : Permutation l l' -> sum l = sum l'.
Proof.
  induction 1 as [|x l l' _ IH|x y l|l l' l'' _ IH1 _ IH2];
    rewrite ?StatsFacts.sum_cons; lia.
Qed.

Lemma language_count_pos repos lang :
  In lang (map display_language repos) -> 1 <= language_count lang repos.
Proof.
  intros H. apply in_map_iff in H as (r & Hr & Hin).
  unfold language_count.
  assert (Hf : In r (filter (fun r => String.eqb (display_language r) lang) repos)).
  { apply filter_In. split; [assumption|]. now apply String.eqb_eq. }
  destruct (filter _ repos); [contradiction|]. simpl List.length. lia.
Qed.

(** X6. [language_stats] has one item for each display language of the
    record set, in the order of first occurrence; the value of a language
    is the number of its records, at least 1, and the values add up to the
    number of records. *)
Theorem language_stats_counts_every_record_once (repos : list Repo.t) :
  Dict.keys (language_stats repos) = first_occurrences (map display_language repos)
  /\ NoDup (Dict.keys (language_stats repos))
  /\ (forall r, In r repos -> In (display_language r) (Dict.keys (language_stats repos)))
  /\ (forall lang n, In (lang, n) (Dict.items (language_stats repos)) ->
        n = language_count lang repos /\ 1 <= n)
  /\ sum (map snd (Dict.items (language_stats repos))) = Z.of_nat (List.length repos).
Proof.
  split; [apply StatsFacts.language_stats_keys|]. split; [|split; [|split]].
  - rewrite StatsFacts.language_stats_keys. apply StatsFacts.first_occurrences_nodup.
  - intros r Hr. rewrite StatsFacts.language_stats_keys.
    apply StatsFacts.first_occurrences_in. now apply in_map.
  - intros lang n H. rewrite StatsFacts.language_stats_items in H.
    apply in_map_iff in H as (l & [= <- <-] & Hl).
    split; [reflexivity|]. apply language_count_pos.
    now apply StatsFacts.first_occurrences_in.
  - apply StatsFacts.language_stats_sum.
Qed.

(** ** The home page *)

Lemma index_card_fields r c :
  index_card r = Ok c ->
  Repo.full_name r = Some (card_full_name c)
  /\ card_href c = "repos/" ++ slugify (card_full_name c) ++ ".html"
  /\ format_number (stars r) = Ok (card_stars c)
  /\ card_language c = display_language r
  /\ card_description c = get_or (Repo.description r) "No description available".
Proof.
  unfold index_card. intros H.
  apply ResFacts.bind_ok in H as (fn & Hfn & H).
  apply ResFacts.bind_ok in H as (s1 & Hs1 & H).
  apply ResFacts.bind_ok in H as (s2 & Hs2 & H).
  apply ResFacts.bind_ok in H as (s3 & Hs3 & H).
  inversion H; subst; clear H. cbn.
  destruct (Repo.full_name r); [|discriminate]. inversion Hfn; subst.
  repeat split; assumption.
Qed.

(** X7. The Trending cards of the home page are those of the first 20
    records, in input order and not ranked again; the four statistics are
    the number of records, the two totals, all three through
    [format_number], and the number of items of the statistics; the counts
    of the Browse-by-Language table add up to the number of records. *)
Theorem home_page_shows_first_twenty_and_totals
    (repos : list Repo.t) (page : index_page) :
  generate_index_page repos (language_stats repos) = Ok page ->
  List.length (idx_trending page) = Nat.min 20 (List.length repos)
  /\ Forall2 (fun r c =>
                Repo.full_name r = Some (card_full_name c)
                /\ card_href c = "repos/" ++ slugify (card_full_name c) ++ ".html"
                /\ format_number (stars r) = Ok (card_stars c))
             (firstn 20 repos) (idx_trending page)
  /\ format_number (Z.of_nat (List.length repos)) = Ok (idx_repositories page)
  /\ format_number (sum (map stars repos)) = Ok (idx_total_stars page)
  /\ format_number (sum (map (fun r => get_default (Repo.forks_count r) 0) repos))
     = Ok (idx_total_forks page)
  /\ idx_languages page
     = Z.of_nat (List.length (first_occurrences (map display_language repos)))
  /\ sum (map cl_count (idx_categories page)) = Z.of_nat (List.length repos).
Proof.
  unfold generate_index_page. intros H.
  apply ResFacts.bind_ok in H as (s1 & Hs1 & H).
  apply ResFacts.bind_ok in H as (s2 & Hs2 & H).
  apply ResFacts.bind_ok in H as (s3 & Hs3 & H).
  apply ResFacts.bind_ok in H as (cards & Hc & H).
  inversion H; subst; clear H. cbn.
  apply ResFacts.mapM_ok in Hc.
  split; [|split; [|split; [|split; [|split; [|split]]]]]; try assumption.
  - rewrite <- (Forall2_length Hc). apply length_firstn.
  - eapply Forall2_impl; [|exact Hc].
    intros r c Hrc. apply index_card_fields in Hrc. tauto.
  - rewrite <- StatsFacts.language_stats_keys. unfold Dict.keys.
    now rewrite length_map.
  - rewrite index_categories_map, map_map. cbn.
    rewrite <- (StatsFacts.language_stats_sum repos).
    apply sum_perm. apply Permutation_map. apply stable_sort_perm.
Qed.

Lemma home_page_shows_first_twenty_and_totals_witness :
  exists page,
    generate_index_page get_mock_data (language_stats get_mock_data) = Ok page
    /\ List.length (idx_trending page) = 20%nat
    /\ idx_total_stars page = "140.9k".
Proof.
  destruct (generate_index_page get_mock_data (language_stats get_mock_data))
    as [page|e] eqn:E.
  - exists page. split; [reflexivity|].
    destruct (home_page_shows_first_twenty_and_totals get_mock_data page E)
      as (Hlen & _ & _ & Hstars & _).
    split; [exact Hlen|].
    vm_compute in Hstars. now inversion Hstars.
  - vm_compute in E. discriminate E.
Defined.

(** ** Language pages *)

Lemma category_card_fields lang r c :
  category_card lang r = Ok c ->
  Repo.full_name r = Some (card_full_name c)
  /\ card_href c = "../repos/" ++ slugify (card_full_name c) ++ ".html"
  /\ format_number (stars r) = Ok (card_stars c)
  /\ card_language c = lang
  /\ card_description c = get_or (Repo.description r) "No description available".
Proof.
  unfold category_card. intros H.
  apply ResFacts.bind_ok in H as (fn & Hfn & H).
  apply ResFacts.bind_ok in H as (s1 & Hs1 & H).
  apply ResFacts.bind_ok in H as (s2 & Hs2 & H).
  apply ResFacts.bind_ok in H as (s3 & Hs3 & H).
  inversion H; subst; clear H. cbn.
  destruct (Repo.full_name r); [|discriminate]. inversion Hfn; subst.
  repeat split; assumption.
Qed.

(** X8. The cards of a language page are the records whose language field
    is that language, each once, by descending stars, records of equal
    stars in input order; the count in the heading is the number of
    cards. *)
Theorem language_page_ranks_its_members
    (lang : string) (repos : list Repo.t) (languages : list string)
    (page : category_page) :
  generate_category_page lang repos languages = Ok page ->
  let members := lang_repos lang repos in
  Permutation members (filter (language_is lang) repos)
  /\ StronglySorted (fun a b => stars a >= stars b) members
  /\ (forall k, filter (fun r => stars r =? k) members
                = filter (fun r => stars r =? k) (filter (language_is lang) repos))
  /\ Forall2 (fun r c =>
                Repo.full_name r = Some (card_full_name c)
                /\ card_href c = "../repos/" ++ slugify (card_full_name c) ++ ".html"
                /\ format_number (stars r) = Ok (card_stars c))
             members (cat_cards page)
  /\ cat_count page = Z.of_nat (List.length (cat_cards page)).
Proof.
  intros H members. unfold generate_category_page in H.
  apply ResFacts.bind_ok in H as (cards & Hc & H).
  inversion H; subst; clear H. cbn.
  apply ResFacts.mapM_ok in Hc. subst members.
  split; [apply stable_sort_perm|]. split; [apply sort_desc_sorted|].
  split; [intros k; apply sort_desc_stable|]. split.
  - eapply Forall2_impl; [|exact Hc].
    intros r c Hrc. apply category_card_fields in Hrc. tauto.
  - f_equal. exact (Forall2_length Hc).
Qed.

Lemma language_page_ranks_its_members_witness :
  exists page,
    generate_category_page "Python" get_mock_data
      (Dict.keys (language_stats get_mock_data)) = Ok page
    /\ cat_count page = Z.of_nat (List.length (cat_cards page)).
Proof.
  destruct (generate_category_page "Python" get_mock_data
              (Dict.keys (language_stats get_mock_data))) as [page|e] eqn:E.
  - exists page. split; [reflexivity|].
    apply (language_page_ranks_its_members _ _ _ page E).
  - vm_compute in E. discriminate E.
Defined.

(** ** The language index *)

Section MaxBy.

Context {A : Type}.
Variable key : A -> Z.

Lemma fold_keep_ge l : forall a, key a <= key (fold_left (keep_best key) l a).
Proof.
  induction l as [|y l IH]; intros a; cbn [fold_left]; [lia|].
  specialize (IH (keep_best key a y)). unfold keep_best in *.
  pose proof (Zgt_cases (key y) (key a)).
  destruct (key y >? key a); lia.
Qed.

Lemma fold_keep_step l : forall x y,
  fold_left (keep_best key) l (keep_best key x y)
  = if key (fold_left (keep_best key) l y) >? key x then fold_left (keep_best key) l y else x.
Proof.
  induction l as [|z l IH]; intros x y; cbn [fold_left]; [reflexivity|].
  assert (E : keep_best key x y = if key y >? key x then y else x) by reflexivity.
  rewrite E. clear E.
  pose proof (Zgt_cases (key y) (key x)) as Hyx.
  destruct (key y >? key x).
  - pose proof (fold_keep_ge l (keep_best key y z)) as H1.
    assert (H2 : key y <= key (keep_best key y z)).
    { unfold keep_best. pose proof (Zgt_cases (key z) (key y)).
      destruct (key z >? key y); lia. }
    pose proof (Zgt_cases (key (fold_left (keep_best key) l (keep_best key y z))) (key x)).
    destruct (key (fold_left (keep_best key) l (keep_best key y z)) >? key x); [reflexivity|lia].
  - rewrite (IH x z), (IH y z).
    pose proof (Zgt_cases (key (fold_left (keep_best key) l z)) (key y)) as H1.
    pose proof (Zgt_cases (key (fold_left (keep_best key) l z)) (key x)) as H2.
    destruct (key (fold_left (keep_best key) l z) >? key y).
    + reflexivity.
    + pose proof (Zgt_cases (key y) (key x)) as H3.
      destruct (key (fold_left (keep_best key) l z) >? key x); [lia|].
      destruct (key y >? key x); [lia|reflexivity].
Qed.

(** [max] of a list with one more element in front. *)
Lemma max_by_cons (x : A) (l : list A) :
  max_by key (x :: l)
  = Some match max_by key l with
         | None => x
         | Some m => if key m >? key x then m else x
         end.
Proof.
  unfold max_by. f_equal. destruct l as [|y l]; [reflexivity|].
  cbn [fold_left]. apply fold_keep_step.
Qed.

(** [max] picks what the descending stable sort puts first. *)
Lemma max_by_is_first_sorted (l : list A) :
  max_by key l = hd_error (sort_desc key l).
Proof.
  induction l as [|x l IH]; [reflexivity|].
  rewrite max_by_cons, IH. unfold sort_desc. cbn [stable_sort].
  destruct (stable_sort (fun a b => key a >? key b) l) as [|y s]; [reflexivity|].
  cbn [insert hd_error]. now destruct (key y >? key x).
Qed.

End MaxBy.

(** X10. An entry of the language index shows the count of its language
    in the statistics and, as Top, the stars of the first member of the
    language's page, which no member exceeds; a language without member on
    its page shows "0".  The entries follow the sorted languages. *)
Theorem language_index_top_is_first_member
    (languages : list string) (stats : Dict.t) (repos : list Repo.t)
    (entries : list language_entry) :
  generate_categories_index_page languages stats repos = Ok entries ->
  Forall2 (fun lang e =>
             le_language e = lang
             /\ le_href e = slugify lang ++ ".html"
             /\ le_count e = Dict.get stats lang 0
             /\ match lang_repos lang repos with
                | [] => le_top_stars e = "0"
                | top :: _ =>
                    format_number (stars top) = Ok (le_top_stars e)
                    /\ forall r, In r (lang_repos lang repos) -> stars r <= stars top
                end)
          (sorted_strings languages) entries.
Proof.
  unfold generate_categories_index_page. intros H.
  apply ResFacts.mapM_ok in H.
  eapply Forall2_impl; [|exact H].
  intros lang e He. unfold language_entry_of in He.
  apply ResFacts.bind_ok in He as (top_stars & Htop & He).
  inversion He; subst; clear He. cbn.
  repeat (split; [reflexivity|]).
  rewrite max_by_is_first_sorted in Htop. fold (lang_repos lang repos) in Htop.
  pose proof (sort_desc_sorted stars (filter (language_is lang) repos)) as Hs.
  fold (lang_repos lang repos) in Hs.
  destruct (lang_repos lang repos) as [|top members]; cbn [hd_error] in Htop.
  - now inversion Htop.
  - split; [assumption|]. intros r [<-|Hr]; [lia|].
    inversion Hs as [|? ? _ Hall]; subst.
    eapply Forall_forall in Hall; eauto. lia.
Qed.

Lemma language_index_top_is_first_member_witness :
  exists entries,
    generate_categories_index_page
      (Dict.keys (language_stats get_mock_data)) (language_stats get_mock_data)
      get_mock_data = Ok entries
    /\ List.length entries = 16%nat.
Proof.
  destruct (generate_categories_index_page
              (Dict.keys (language_stats get_mock_data))
              (language_stats get_mock_data) get_mock_data) as [entries|e] eqn:E.
  - exists entries. split; [reflexivity|].
    rewrite <- (Forall2_length
                  (language_index_top_is_first_member _ _ _ entries E)).
    vm_compute. reflexivity.
  - vm_compute in E. discriminate E.
Defined.

(** ** Detail pages *)


Lemma similar_card_fields r c :
  similar_card_of r = Ok c ->
  Repo.full_name r = Some (sim_full_name c)
  /\ sim_href c = slugify (sim_full_name c) ++ ".html"
  /\ format_number (stars r) = Ok (sim_stars c)
  /\ sim_language c = display_language r
  /\ sim_description c = get_or (Repo.description r) "No description".
Proof.
  unfold similar_card_of. intros H.
  apply ResFacts.bind_ok in H as (fn & Hfn & H).
  apply ResFacts.bind_ok in H as (s1 & Hs1 & H).
  inversion H; subst; clear H. cbn.
  destruct (Repo.full_name r); [|discriminate]. inversion Hfn; subst.
  repeat split; assumption.
Qed.

(** What a detail page that is built holds. *)
Lemma generate_repo_page_fields repo all_repos page :
  generate_repo_page repo all_repos = Ok page ->
  exists sims,
    similar_repos repo all_repos = Ok sims
    /\ Repo.full_name repo = Some (rp_full_name page)
    /\ Repo.name repo = Some (rp_name page)
    /\ Repo.html_url repo = Some (rp_html_url page)
    /\ rp_category_href page
       = "../categories/" ++ slugify (display_language repo) ++ ".html"
    /\ rp_language page = display_language repo
    /\ rp_description page
       = get_or (Repo.description repo) "No description available"
    /\ rp_created page = substring 0 10 (get_default (Repo.created_at repo) "")
    /\ rp_updated page = substring 0 10 (get_default (Repo.updated_at repo) "")
    /\ match sims with
       | [] => rp_similar page = None
       | _ => exists cards,
                rp_similar page = Some cards
                /\ Forall2 (fun r c => similar_card_of r = Ok c) (firstn 4 sims) cards
       end.
Proof.
  unfold generate_repo_page. intros H.
  apply ResFacts.bind_ok in H as (fn & Hfn & H).
  apply ResFacts.bind_ok in H as (sims & Hsims & H).
  apply ResFacts.bind_ok in H as (s1 & Hs1 & H).
  apply ResFacts.bind_ok in H as (nm & Hnm & H).
  apply ResFacts.bind_ok in H as (ow & How & H).
  apply ResFacts.bind_ok in H as (av & Hav & H).
  apply ResFacts.bind_ok in H as (lg & Hlg & H).
  apply ResFacts.bind_ok in H as (s2 & Hs2 & H).
  apply ResFacts.bind_ok in H as (s3 & Hs3 & H).
  apply ResFacts.bind_ok in H as (url & Hurl & H).
  apply ResFacts.bind_ok in H as (sec & Hsec & H).
  inversion H; subst; clear H. cbn.
  exists sims. split; [assumption|].
  destruct (Repo.full_name repo); [|discriminate]. inversion Hfn; subst.
  destruct (Repo.name repo); [|discriminate]. inversion Hnm; subst.
  destruct (Repo.html_url repo); [|discriminate]. inversion Hurl; subst.
  repeat (split; [reflexivity|]).
  destruct sims as [|x sims'].
  - now inversion Hsec.
  - apply ResFacts.bind_ok in Hsec as (cards & Hcards & Hsec).
    inversion Hsec; subst. exists cards. split; [reflexivity|].
    now apply ResFacts.mapM_ok.
Qed.


(** X11. A detail page has a Similar Repositories section exactly when
    some record has the page's display language as its language field and
    another id; the section then has the first four of them by stars, at
    most 4 and never none, each linked to the file of its own slug. *)
Theorem similar_section_present_iff_candidates
    (repo : Repo.t) (all_repos : list Repo.t) (page : repo_page) :
  generate_repo_page repo all_repos = Ok page ->
  (rp_similar page = None <-> filter (is_candidate repo) all_repos = [])
  /\ (forall cards, rp_similar page = Some cards ->
        List.length cards
        = Nat.min 4 (List.length (filter (is_candidate repo) all_repos))
        /\ (1 <= List.length cards <= 4)%nat
        /\ Forall2 (fun r c =>
                      Repo.full_name r = Some (sim_full_name c)
                      /\ sim_href c = slugify (sim_full_name c) ++ ".html")
                   (firstn 4 (sort_desc stars (filter (is_candidate repo) all_repos)))
                   cards).
Proof.
  intros H. apply generate_repo_page_fields in H
    as (sims & Hsims & _ & _ & _ & _ & _ & _ & _ & _ & Hsec).
  apply similar_repos_ok in Hsims.
  assert (Hlen : List.length sims
                 = List.length (filter (is_candidate repo) all_repos)).
  { rewrite Hsims. apply stable_sort_length. }
  destruct sims as [|x sims'].
  - assert (Hnil : filter (is_candidate repo) all_repos = []).
    { destruct (filter _ all_repos); [reflexivity|discriminate Hlen]. }
    split; [now split|]. intros cards Hc. congruence.
  - destruct Hsec as (cards & Hc & Hcards).
    split.
    + split; intros E; [congruence|].
      rewrite E in Hlen. discriminate Hlen.
    + intros cards' Hc'. assert (cards' = cards) by congruence. subst cards'.
      pose proof (Forall2_length Hcards) as Hl.
      rewrite length_firstn, Hlen in Hl.
      split; [now symmetry|]. split.
      * rewrite <- Hl. rewrite <- Hlen. cbn [List.length]. lia.
      * rewrite <- Hsims. eapply Forall2_impl; [|exact Hcards].
        intros r c Hrc. apply similar_card_fields in Hrc. tauto.
Qed.

Lemma similar_section_present_iff_candidates_witness :
  exists page cards,
    generate_repo_page fastapi get_mock_data = Ok page
    /\ rp_similar page = Some cards
    /\ List.length cards = 3%nat.
Proof.
  destruct (generate_repo_page fastapi get_mock_data) as [page|e] eqn:E;
    [|vm_compute in E; discriminate E].
  destruct (rp_similar page) as [cards|] eqn:Hs.
  - exists page, cards. split; [reflexivity|]. split; [exact Hs|].
    destruct (proj2 (similar_section_present_iff_candidates _ _ page E) cards Hs)
      as [Hlen _].
    rewrite Hlen. vm_compute. reflexivity.
  - apply (proj1 (similar_section_present_iff_candidates _ _ page E)) in Hs.
    vm_compute in Hs. discriminate Hs.
Defined.



(** ** The sitemap *)

Lemma Forall2_in_l {A B : Type} (R : A -> B -> Prop) (l : list A) (ws : list B) (x : A) :
  Forall2 R l ws -> In x l -> exists w, In w ws /\ R x w.
Proof.
  induction 1 as [|x' y l ws Hxy _ IH]; simpl; [tauto|].
  intros [<-|Hin]; [eauto|].
  destruct (IH Hin) as (w & Hw & HR). eauto.
Qed.

Lemma prefix_append p s : prefix p (p ++ s) = true.
Proof.
  induction p as [|c p IH]; simpl; [now destruct s|].
  destruct (ascii_dec c c); [assumption|contradiction].
Qed.

Lemma prefix_append2 p q s : prefix (p ++ q) (p ++ q ++ s) = true.
Proof.
  induction p as [|c p IH]; simpl; [apply prefix_append|].
  destruct (ascii_dec c c); [assumption|contradiction].
Qed.

(** X13. [generate_sitemap] returns an entry for the home page, one for the
    language index, one per language and one per record, in this order:
    [2 + len(languages) + len(repos)] entries, each dated [now], each
    address under the base address, with the fixed frequency and priority
    of its kind.  It fails only on a record without [full_name], with
    [KeyError('full_name')], and then always. *)
Theorem sitemap_entries_or_key_error
    (now base_url : string) (repos : list Repo.t) (languages : list string) :
  (forallb (fun r => is_some (Repo.full_name r)) repos = true ->
   exists urls,
     generate_sitemap now base_url repos languages = Ok urls
     /\ List.length urls = (2 + List.length languages + List.length repos)%nat
     /\ Forall (fun u => lastmod u = now
                         /\ prefix (base_url ++ "/") (loc u) = true) urls
     /\ map (fun u => (changefreq u, priority u)) urls
        = (("daily", "1.0") :: ("daily", "0.9")
           :: map (fun _ => ("daily", "0.8")) languages
           ++ map (fun _ => ("weekly", "0.7")) repos)%list)
  /\ (forallb (fun r => is_some (Repo.full_name r)) repos = false ->
      generate_sitemap now base_url repos languages = Raise (KeyError "full_name"))
  /\ (forall e, generate_sitemap now base_url repos languages = Raise e ->
                e = KeyError "full_name").
Proof.
  set (entry := fun repo : Repo.t =>
         full_name <- Res.getitem "full_name" (Repo.full_name repo) ;;
         Ok {| loc := base_url ++ "/repos/" ++ slugify full_name ++ ".html";
               lastmod := now; changefreq := "weekly"; priority := "0.7" |}).
  assert (Hentry : forall r u, entry r = Ok u ->
            lastmod u = now /\ prefix (base_url ++ "/") (loc u) = true
            /\ (changefreq u, priority u) = ("weekly", "0.7")).
  { intros r u. unfold entry. destruct (Repo.full_name r); [|discriminate].
    cbn. intros [= <-]. cbn. split; [reflexivity|]. split; [|reflexivity].
    exact (prefix_append2 base_url "/" ("repos/" ++ slugify s ++ ".html")). }
  assert (Hraise : forall e, generate_sitemap now base_url repos languages = Raise e ->
                             e = KeyError "full_name").
  { intros e H. unfold generate_sitemap in H. fold entry in H.
    destruct (Res.mapM entry repos) as [us|e'] eqn:E; [discriminate|].
    cbn in H. inversion H; subst.
    apply mapM_raise_inv in E as (r & _ & Hr). unfold entry in Hr.
    destruct (Repo.full_name r); [discriminate|]. cbn in Hr. now inversion Hr. }
  split; [|split; [|exact Hraise]].
  - intros Hall. rewrite forallb_forall in Hall.
    destruct (ResFacts.mapM_total entry repos) as [us Hus].
    { intros r Hr. specialize (Hall r Hr). unfold entry.
      destruct (Repo.full_name r); [cbn; eauto|discriminate]. }
    eexists. split; [unfold generate_sitemap; fold entry; rewrite Hus; reflexivity|].
    apply ResFacts.mapM_ok in Hus.
    split; [|split].
    + cbn [List.length app]. rewrite length_app, length_map.
      rewrite <- (Forall2_length Hus). lia.
    + repeat constructor; try apply prefix_append.
      * exact (prefix_append2 base_url "/" "index.html").
      * exact (prefix_append2 base_url "/" "categories/index.html").
      * apply Forall_app. split.
        -- apply Forall_forall. intros u Hu. apply in_map_iff in Hu as (l & <- & _).
           cbn. split; [reflexivity|].
           exact (prefix_append2 base_url "/" ("categories/" ++ slugify l ++ ".html")).
        -- apply Forall_forall. intros u Hu.
           destruct (Forall2_in_r _ _ _ _ Hus Hu) as (r & _ & Hr).
           apply Hentry in Hr. tauto.
    + cbn [map app]. f_equal. f_equal. rewrite map_app, map_map. f_equal.
      eapply ResFacts.Forall2_map_eq; [|exact Hus].
      intros r u Hr. apply Hentry in Hr. tauto.
  - intros Hsome.
    destruct (generate_sitemap now base_url repos languages) as [urls|e] eqn:E.
    + exfalso. unfold generate_sitemap in E. fold entry in E.
      destruct (Res.mapM entry repos) as [us|e'] eqn:Eu; [|discriminate].
      apply ResFacts.mapM_ok in Eu.
      assert (Hall : forallb (fun r => is_some (Repo.full_name r)) repos = true).
      { apply forallb_forall. intros r Hr.
        destruct (Forall2_in_l _ _ _ _ Eu Hr) as (u & _ & Hu).
        unfold entry in Hu. now destruct (Repo.full_name r). }
      congruence.
    + f_equal. now apply Hraise.
Qed.

Lemma sitemap_entries_or_key_error_witness :
  exists urls,
    generate_sitemap "2025-01-28" BASE_URL get_mock_data ["Python"; "Go"] = Ok urls
    /\ List.length urls = 29%nat.
Proof.
  destruct (sitemap_entries_or_key_error "2025-01-28" BASE_URL get_mock_data
              ["Python"; "Go"]) as (Hok & _).
  destruct Hok as (urls & Hurls & Hlen & _); [vm_compute; reflexivity|].
  exists urls. split; [exact Hurls|exact Hlen].
Defined.

(** ** Links between the pages *)

Module LinkFacts.

Lemma file_at_in (w : list (string * file)) (path : string) :
  In path (map fst w) -> Run.file_at w path <> None.
Proof.
  induction w as [|[p f] w IH]; simpl; [tauto|].
  intros [->|Hin].
  - destruct (Run.file_at w path); [discriminate|].
    now rewrite String.eqb_refl.
  - destruct (Run.file_at w path); [discriminate|]. now apply IH in Hin.
Qed.

Lemma file_at_not_in (w : list (string * file)) (path : string) :
  ~ In path (map fst w) -> Run.file_at w path = None.
Proof.
  intros H. apply RunFacts.file_at_none. intros p f Hin ->.
  apply H. apply in_map_iff. now exists (path, f).
Qed.

Lemma has_slash_app a b : has_slash (a ++ b) = has_slash a || has_slash b.
Proof.
  induction a as [|c a IH]; simpl; [reflexivity|].
  now rewrite IH, orb_assoc.
Qed.

Lemma slug_no_slash text : has_slash (slugify text) = false.
Proof.
  destruct (SlugFacts.slugify_shape text) as [Hc _].
  apply SlugFacts.collapsed_chars in Hc.
  induction (slugify text) as [|c s IH]; simpl in *; [reflexivity|].
  inversion Hc as [|? ? Hhd Htl]; subst.
  rewrite (IH Htl), orb_false_r.
  destruct (Ascii.eqb c "/") eqn:E; [|reflexivity].
  apply Ascii.eqb_eq in E. subst c. destruct Hhd as [H|H]; discriminate H.
Qed.

Lemma slug_file_no_slash text : has_slash (slugify text ++ ".html") = false.
Proof. now rewrite has_slash_app, slug_no_slash. Qed.

Lemma dirname_join dir name :
  has_slash name = false -> dirname (dir ++ "/" ++ name) = dir.
Proof.
  intros Hn. change (dir ++ "/" ++ name) with (dir ++ String "/" name).
  induction dir as [|c dir IH]; cbn [append dirname].
  - now rewrite Hn.
  - rewrite has_slash_app, IH. cbn [has_slash].
    change (Ascii.eqb "/" "/") with true. now rewrite orb_true_r.
Qed.

(** A link that starts with a slug does not go up. *)
Lemma resolve_slug dir text :
  resolve dir (slugify text ++ ".html") = dir ++ "/" ++ slugify text ++ ".html".
Proof.
  destruct (SlugFacts.slugify_shape text) as [Hc _].
  apply SlugFacts.collapsed_chars in Hc.
  destruct (slugify text) as [|c s]; [reflexivity|].
  inversion Hc as [|? ? Hhd _]; subst.
  destruct c as [[] [] [] [] [] [] [] []]; try reflexivity;
    destruct Hhd as [H|H]; discriminate H.
Qed.

Lemma category_page_dir text :
  dirname ("output/" ++ category_file text) = "output/categories".
Proof.
  exact (dirname_join "output/categories" (slugify text ++ ".html")
           (slug_file_no_slash text)).
Qed.

Lemma repo_page_dir r :
  dirname ("output/" ++ repo_file r) = "output/repos".
Proof.
  exact (dirname_join "output/repos" _ (slug_file_no_slash _)).
Qed.

Lemma generate_index_page_parts repos stats page :
  generate_index_page repos stats = Ok page ->
  idx_categories page = index_categories stats
  /\ Forall2 (fun r c => index_card r = Ok c) (firstn 20 repos) (idx_trending page).
Proof.
  unfold generate_index_page. intros H.
  apply ResFacts.bind_ok in H as (s1 & _ & H).
  apply ResFacts.bind_ok in H as (s2 & _ & H).
  apply ResFacts.bind_ok in H as (s3 & _ & H).
  apply ResFacts.bind_ok in H as (cards & Hcards & H).
  inversion H; subst; clear H. cbn. split; [reflexivity|].
  now apply ResFacts.mapM_ok.
Qed.

Lemma generate_category_page_parts lang repos languages page :
  generate_category_page lang repos languages = Ok page ->
  Forall2 (fun r c => category_card lang r = Ok c) (lang_repos lang repos)
          (cat_cards page).
Proof.
  unfold generate_category_page. intros H.
  apply ResFacts.bind_ok in H as (cards & Hcards & H).
  inversion H; subst; clear H. cbn. now apply ResFacts.mapM_ok.
Qed.

Lemma language_entry_href stats repos lang entry :
  language_entry_of stats repos lang = Ok entry ->
  le_href entry = slugify lang ++ ".html" /\ le_language entry = lang.
Proof.
  unfold language_entry_of. intros H.
  apply ResFacts.bind_ok in H as (s & _ & H). now inversion H.
Qed.

End LinkFacts.

Lemma sorted_strings_in l x : In x (sorted_strings l) <-> In x l.
Proof. apply stable_sort_in. Qed.

Lemma display_language_is_key repos r :
  In r repos -> In (display_language r) (Dict.keys (language_stats repos)).
Proof.
  intros Hr. rewrite StatsFacts.language_stats_keys, StatsFacts.first_occurrences_in.
  now apply in_map.
Qed.

(** ** Counts on the home page and on the language pages *)

Lemma language_count_split (repos : list Repo.t) (lang : string) :
  lang <> "" ->
  language_count lang repos
  = Z.of_nat (List.length (lang_repos lang repos)) + unlabelled_share lang repos.
Proof.
  intros Hne. unfold lang_repos, sort_desc. rewrite stable_sort_length.
  unfold language_count, unlabelled_share, unlabelled_count.
  induction repos as [|r repos IH]; [now destruct (String.eqb lang "Unknown")|].
  cbn [filter].
  unfold display_language at 1, get_or, language_is at 1, unlabelled at 1.
  destruct (Repo.language r) as [l|].
  - destruct (String.eqb l "") eqn:El.
    + apply String.eqb_eq in El. subst l.
      replace (String.eqb "" lang) with false
        by (symmetry; apply String.eqb_neq; congruence).
      rewrite (String.eqb_sym "Unknown" lang).
      destruct (String.eqb lang "Unknown"); cbn [List.length] in *; lia.
    + destruct (String.eqb l lang); destruct (String.eqb lang "Unknown");
        cbn [List.length] in *; lia.
  - rewrite (String.eqb_sym "Unknown" lang).
    destruct (String.eqb lang "Unknown"); cbn [List.length] in *; lia.
Qed.

Lemma language_key_nonempty repos lang :
  In lang (Dict.keys (language_stats repos)) -> lang <> "".
Proof.
  rewrite StatsFacts.language_stats_keys, StatsFacts.first_occurrences_in.
  intros H. apply in_map_iff in H as (r & <- & _). apply display_language_nonempty.
Qed.

Lemma generate_category_page_count lang repos languages page :
  generate_category_page lang repos languages = Ok page ->
  cat_count page = Z.of_nat (List.length (lang_repos lang repos)).
Proof.
  unfold generate_category_page. intros H.
  apply ResFacts.bind_ok in H as (cards & _ & H). now inversion H.
Qed.

(** X9. With the statistics and languages of [main]: the count
    [language_stats] gives a language, which is the count of its row in the
    Browse-by-Language table of the home page and of its entry in the
    language index, is the member count of the language's page, except for
    "Unknown": there it is larger by the number of records whose language
    is null or empty.  These records are members of the page of no
    language. *)
Theorem home_count_and_page_count
    (repos : list Repo.t) (home : index_page) (entries : list language_entry) :
  let stats := language_stats repos in
  let languages := Dict.keys stats in
  generate_index_page repos stats = Ok home ->
  generate_categories_index_page languages stats repos = Ok entries ->
  (forall lang, In lang languages ->
     Dict.get stats lang 0
     = Z.of_nat (List.length (lang_repos lang repos)) + unlabelled_share lang repos)
  /\ (forall row page,
        In row (idx_categories home) ->
        generate_category_page (cl_language row) repos languages = Ok page ->
        In (cl_language row) languages
        /\ cl_count row = cat_count page + unlabelled_share (cl_language row) repos)
  /\ (forall entry page,
        In entry entries ->
        generate_category_page (le_language entry) repos languages = Ok page ->
        In (le_language entry) languages
        /\ le_count entry = cat_count page + unlabelled_share (le_language entry) repos)
  /\ (forall r lang,
        In r repos -> unlabelled r = true -> In lang languages ->
        ~ In r (lang_repos lang repos)).
Proof.
  intros stats languages Hhome Hentries.
  assert (Hget : forall lang, In lang languages ->
            Dict.get stats lang 0
            = Z.of_nat (List.length (lang_repos lang repos))
              + unlabelled_share lang repos).
  { intros lang Hl. unfold stats. rewrite StatsFacts.language_stats_get.
    apply language_count_split. exact (language_key_nonempty repos lang Hl). }
  split; [exact Hget|]. split; [|split].
  - intros row page Hrow Hpage.
    apply LinkFacts.generate_index_page_parts in Hhome as [Hc _].
    rewrite Hc, index_categories_map in Hrow.
    apply in_map_iff in Hrow as ([l n] & <- & Hln).
    apply sort_desc_in in Hln. cbn [category_link_of cl_language cl_count fst snd] in *.
    assert (Hl : In l languages).
    { unfold languages, Dict.keys. apply in_map_iff. exists (l, n). now split. }
    split; [exact Hl|].
    rewrite (generate_category_page_count _ _ _ _ Hpage), <- (Hget l Hl).
    unfold stats in Hln. rewrite StatsFacts.language_stats_items in Hln.
    apply in_map_iff in Hln as (l' & [= <- <-] & _).
    unfold stats. now rewrite StatsFacts.language_stats_get.
  - intros entry page Hentry Hpage.
    apply ResFacts.mapM_ok in Hentries.
    destruct (Forall2_in_r _ _ _ _ Hentries Hentry) as (lang & Hl & He).
    apply (proj1 (sorted_strings_in _ _)) in Hl.
    unfold language_entry_of in He.
    apply ResFacts.bind_ok in He as (top & _ & He).
    inversion He; subst entry; clear He. cbn [le_language le_count] in *.
    split; [exact Hl|].
    rewrite (generate_category_page_count _ _ _ _ Hpage). exact (Hget lang Hl).
  - intros r lang Hr Hun Hl.
    apply unknown_language_in_no_group; [|exact Hl].
    unfold unlabelled in Hun. destruct (Repo.language r) as [l|]; [right|now left].
    apply String.eqb_eq in Hun. now subst l.
Qed.

Lemma home_count_and_page_count_witness :
  exists home entries page,
    generate_index_page [null_language_repo; c_repo]
      (language_stats [null_language_repo; c_repo]) = Ok home
    /\ generate_categories_index_page
         (Dict.keys (language_stats [null_language_repo; c_repo]))
         (language_stats [null_language_repo; c_repo])
         [null_language_repo; c_repo] = Ok entries
    /\ generate_category_page "Unknown" [null_language_repo; c_repo]
         (Dict.keys (language_stats [null_language_repo; c_repo])) = Ok page
    /\ Dict.get (language_stats [null_language_repo; c_repo]) "Unknown" 0 = 1
    /\ cat_count page = 0
    /\ ~ In null_language_repo (lang_repos "Unknown" [null_language_repo; c_repo]).
Proof.
  destruct (generate_index_page [null_language_repo; c_repo]
              (language_stats [null_language_repo; c_repo])) as [home|e] eqn:Eh;
    [|vm_compute in Eh; discriminate Eh].
  destruct (generate_categories_index_page
              (Dict.keys (language_stats [null_language_repo; c_repo]))
              (language_stats [null_language_repo; c_repo])
              [null_language_repo; c_repo]) as [entries|e] eqn:Ee;
    [|vm_compute in Ee; discriminate Ee].
  destruct (generate_category_page "Unknown" [null_language_repo; c_repo]
              (Dict.keys (language_stats [null_language_repo; c_repo])))
    as [page|e] eqn:Ep; [|vm_compute in Ep; discriminate Ep].
  destruct (home_count_and_page_count [null_language_repo; c_repo] home entries Eh Ee)
    as (Hget & _ & _ & Hno).
  exists home, entries, page.
  split; [reflexivity|]. split; [reflexivity|]. split; [reflexivity|].
  split; [rewrite Hget; [vm_compute; reflexivity|vm_compute; tauto]|].
  split; [vm_compute in Ep; now inversion Ep|].
  apply Hno; [now left|reflexivity|vm_compute; tauto].
Defined.

(** ** Links that lead to pages *)

(** X14. In a completed run over a well-formed record set every link in
    the content of a written page (the language table and the cards of the
    home page, the breadcrumbs, the entries of the language index, the
    cards of a language page, the language link and the Similar
    Repositories cards of a detail page) leads, from the directory of the
    page, to a file the run has written. *)
Theorem content_links_lead_to_written_files (now : string) (repos : list Repo.t) :
  well_formed repos = true ->
  exists log,
    main now repos = (log, Ok tt)
    /\ forall path f href,
         In (path, f) log -> In href (content_hrefs f) ->
         Run.file_at log (resolve (dirname path) href) <> None.
Proof.
  intros Hwf.
  destruct (main_writes now repos Hwf)
    as (idx & cidx & cats & rps & urls & Hidx & Hcidx & Hcats & Hrps & _ & Hmain).
  cbv zeta in *.
  set (languages := Dict.keys (language_stats repos)) in *.
  eexists. split; [exact Hmain|].
  set (log := (_ :: _ :: _)%list).
  assert (Hhome : Run.file_at log "output/index.html" <> None).
  { apply LinkFacts.file_at_in. now left. }
  assert (Hlidx : Run.file_at log "output/categories/index.html" <> None).
  { apply LinkFacts.file_at_in. right. now left. }
  assert (Hcat : forall lang, In lang languages ->
            Run.file_at log ("output/" ++ category_file lang) <> None).
  { intros lang Hl. apply LinkFacts.file_at_in.
    destruct (Forall2_in_l _ _ _ _ Hcats Hl) as (w & Hw & page & _ & ->).
    subst log. cbn [map fst]. right. right. rewrite map_app. apply in_or_app. left.
    apply in_map_iff. eexists. split; [|exact Hw]. reflexivity. }
  assert (Hrepo : forall r, In r repos ->
            Run.file_at log ("output/" ++ repo_file r) <> None).
  { intros r Hr. apply LinkFacts.file_at_in.
    destruct (Forall2_in_l _ _ _ _ Hrps Hr) as (w & Hw & page & _ & ->).
    subst log. cbn [map fst]. right. right. rewrite !map_app.
    apply in_or_app. right. apply in_or_app. left.
    apply in_map_iff. eexists. split; [|exact Hw]. reflexivity. }
  assert (Hfile : forall r name, In r repos -> Repo.full_name r = Some name ->
            Run.file_at log ("output/repos/" ++ slugify name ++ ".html") <> None).
  { intros r name Hr Hn. specialize (Hrepo r Hr). unfold repo_file in Hrepo.
    rewrite Hn in Hrepo. exact Hrepo. }
  intros path f href Hin Hhref. unfold log in Hin.
  destruct Hin as [E|[E|Hin]].
  - (* the home page *)
    inversion E; subst path f; clear E. cbn [content_hrefs] in Hhref.
    change (dirname "output/index.html") with "output".
    destruct (LinkFacts.generate_index_page_parts _ _ _ Hidx) as [Hc Ht].
    apply in_app_or in Hhref as [Hh|Hh].
    + rewrite Hc, index_categories_map in Hh.
      apply in_map_iff in Hh as (cl & <- & Hcl).
      apply in_map_iff in Hcl as ([l n] & <- & Hln).
      apply sort_desc_in in Hln.
      change (resolve "output" (cl_href (category_link_of (l, n))))
        with ("output/" ++ category_file l).
      apply Hcat. unfold languages, Dict.keys. apply in_map_iff.
      exists (l, n). split; [reflexivity|exact Hln].
    + apply in_map_iff in Hh as (c & <- & Hc').
      destruct (Forall2_in_r _ _ _ _ Ht Hc') as (r & Hr & Hcard).
      apply index_card_fields in Hcard as (Hfn & Hhref & _). rewrite Hhref.
      exact (Hfile r _ (firstn_In _ _ _ Hr) Hfn).
  - (* the language index *)
    inversion E; subst path f; clear E. cbn [content_hrefs] in Hhref.
    change (dirname "output/categories/index.html") with "output/categories".
    destruct Hhref as [<-|Hh]; [exact Hhome|].
    apply in_map_iff in Hh as (entry & <- & He).
    apply ResFacts.mapM_ok in Hcidx.
    destruct (Forall2_in_r _ _ _ _ Hcidx He) as (lang & Hl & Hentry).
    apply LinkFacts.language_entry_href in Hentry as [Hhref _].
    rewrite Hhref, LinkFacts.resolve_slug.
    apply (proj1 (sorted_strings_in _ _)) in Hl. exact (Hcat lang Hl).
  - apply in_app_or in Hin as [Hin|Hin]; [|apply in_app_or in Hin as [Hin|Hin]].
    + (* a language page *)
      destruct (Forall2_in_r _ _ _ _ Hcats Hin) as (lang & Hl & page & Hp & E).
      inversion E; subst path f; clear E.
      change (Run.file_at log (resolve (dirname ("output/" ++ category_file lang)) href)
              <> None).
      rewrite LinkFacts.category_page_dir. cbn [content_hrefs] in Hhref.
      destruct Hhref as [<-|[<-|Hh]]; [exact Hhome|exact Hlidx|].
      apply in_map_iff in Hh as (c & <- & Hc).
      apply LinkFacts.generate_category_page_parts in Hp.
      destruct (Forall2_in_r _ _ _ _ Hp Hc) as (r & Hr & Hcard).
      apply category_card_fields in Hcard as (Hfn & Hhref & _). rewrite Hhref.
      apply sort_desc_in, filter_In in Hr as [Hr _].
      exact (Hfile r _ Hr Hfn).
    + (* a detail page *)
      destruct (Forall2_in_r _ _ _ _ Hrps Hin) as (r & Hr & page & Hp & E).
      inversion E; subst path f; clear E.
      change (Run.file_at log (resolve (dirname ("output/" ++ repo_file r)) href)
              <> None).
      rewrite LinkFacts.repo_page_dir. cbn [content_hrefs] in Hhref.
      apply generate_repo_page_fields in Hp
        as (sims & Hsims & _ & _ & _ & Hlink & _ & _ & _ & _ & Hsim).
      destruct Hhref as [<-|[<-|Hh]]; [exact Hhome| |].
      * rewrite Hlink. exact (Hcat _ (display_language_is_key repos r Hr)).
      * apply similar_repos_ok in Hsims.
        destruct sims as [|s0 sims']; [rewrite Hsim in Hh; contradiction|].
        destruct Hsim as (cards & Hsec & Hcards). rewrite Hsec in Hh.
        apply in_map_iff in Hh as (c & <- & Hc).
        destruct (Forall2_in_r _ _ _ _ Hcards Hc) as (r' & Hr' & Hcard).
        apply similar_card_fields in Hcard as (Hfn & Hhref & _).
        rewrite Hhref, LinkFacts.resolve_slug.
        apply firstn_In in Hr'. rewrite Hsims in Hr'.
        apply sort_desc_in, filter_In in Hr' as [Hr' _].
        exact (Hfile r' _ Hr' Hfn).
    + (* the sitemap *)
      destruct Hin as [E|[]]. inversion E; subst path f. contradiction.
Qed.

Lemma content_links_lead_to_written_files_witness :
  well_formed get_mock_data = true
  /\ exists log,
       main "2025-01-28" get_mock_data = (log, Ok tt)
       /\ forall path f href,
            In (path, f) log -> In href (content_hrefs f) ->
            Run.file_at log (resolve (dirname path) href) <> None.
Proof.
  split; [vm_compute; reflexivity|].
  apply (content_links_lead_to_written_files "2025-01-28" get_mock_data).
  vm_compute. reflexivity.
Defined.

(** Every page file lies in the output directory itself or directly in
    one of its two subdirectories. *)
Lemma page_files_place repos rel :
  In rel (page_files repos) ->
  rel = "index.html"
  \/ exists dir name,
       (dir = "categories" \/ dir = "repos")
       /\ rel = dir ++ "/" ++ name /\ has_slash name = false.
Proof.
  unfold page_files. intros [<-|[<-|H]]; [now left| |].
  - right. exists "categories", "index.html". auto.
  - right. apply in_app_or in H as [H|H]; apply in_map_iff in H as (x & <- & _).
    + exists "categories", (slugify x ++ ".html").
      split; [now left|]. split; [reflexivity|apply LinkFacts.slug_file_no_slash].
    + exists "repos", (slugify (get_default (Repo.full_name x) "") ++ ".html").
      split; [now right|]. split; [reflexivity|apply LinkFacts.slug_file_no_slash].
Qed.

(** No page file lies in a directory below [categories/] or [repos/]. *)
Lemma no_nested_page_file repos dir name :
  dir = "categories" \/ dir = "repos" ->
  has_slash name = true ->
  ~ In (dir ++ "/" ++ name) (page_files repos).
Proof.
  intros Hdir Hname Hin.
  apply page_files_place in Hin as [E|(dir' & name' & Hdir' & E & Hname')].
  - destruct Hdir as [-> | ->]; discriminate E.
  - destruct Hdir as [-> | ->], Hdir' as [-> | ->]; try discriminate E.
    + apply (PathFacts.append_inv_head "categories/") in E. congruence.
    + apply (PathFacts.append_inv_head "repos/") in E. congruence.
Qed.

Lemma main_paths now repos :
  well_formed repos = true ->
  exists log,
    main now repos = (log, Ok tt)
    /\ map fst log
       = app (map (fun rel => "output/" ++ rel) (page_files repos))
             ["output/sitemap.xml"].
Proof.
  intros Hwf. destruct (main_pages now repos Hwf) as (pages & urls & Hmain & Hp & _).
  eexists. split; [exact Hmain|]. now rewrite map_app, Hp.
Qed.

(** X15. The header of every page links to [index.html] and
    [categories/index.html] relative to the page.  From the home page these
    lead to written files.  From every other page of a completed run (the
    language index, the language pages, the detail pages) the Languages
    link leads to a path below [categories/] or [repos/] that the run never
    writes; from a detail page the logo and Trending links lead to
    [repos/index.html], which is written only if some record has the slug
    [index]. *)
Theorem header_links_break_below_the_home_page (now : string) (repos : list Repo.t) :
  well_formed repos = true ->
  exists log,
    main now repos = (log, Ok tt)
    /\ (forall href, In href header_hrefs ->
          Run.file_at log (resolve (dirname "output/index.html") href) <> None)
    /\ (forall path f,
          In (path, f) log ->
          path <> "output/index.html" -> path <> "output/sitemap.xml" ->
          Run.file_at log (resolve (dirname path) "categories/index.html") = None)
    /\ (forall r,
          In r repos ->
          Run.file_at log (resolve (dirname ("output/" ++ repo_file r)) "index.html")
          <> None ->
          exists r', In r' repos /\ repo_file r' = "repos/index.html").
Proof.
  intros Hwf. destruct (main_paths now repos Hwf) as (log & Hmain & Hpaths).
  exists log. split; [exact Hmain|].
  assert (Hdead : forall dir, dir = "categories" \/ dir = "repos" ->
            Run.file_at log ("output/" ++ dir ++ "/" ++ "categories/index.html") = None).
  { intros dir Hdir. apply LinkFacts.file_at_not_in. rewrite Hpaths. intros Hin.
    apply in_app_or in Hin as [Hin|[E|[]]].
    - apply in_map_iff in Hin as (rel & E & Hrel).
      apply (PathFacts.append_inv_head "output/") in E. subst rel.
      now apply no_nested_page_file in Hrel.
    - destruct Hdir as [-> | ->]; discriminate E. }
  assert (Hplace : forall path f, In (path, f) log ->
            path = "output/index.html" \/ path = "output/sitemap.xml"
            \/ exists dir, (dir = "categories" \/ dir = "repos")
                           /\ dirname path = "output/" ++ dir).
  { intros path f Hin. apply (in_map fst) in Hin. rewrite Hpaths in Hin. cbn [fst] in Hin.
    apply in_app_or in Hin as [Hin|[<-|[]]]; [|now right; left].
    apply in_map_iff in Hin as (rel & <- & Hrel).
    apply page_files_place in Hrel as [->|(dir & name & Hdir & -> & Hname)];
      [now left|].
    right. right. exists dir. split; [assumption|].
    destruct Hdir as [-> | ->].
    - exact (LinkFacts.dirname_join "output/categories" name Hname).
    - exact (LinkFacts.dirname_join "output/repos" name Hname). }
  split; [|split].
  - intros href Hh. apply LinkFacts.file_at_in. rewrite Hpaths.
    apply in_or_app. left. unfold page_files. cbn [map].
    destruct Hh as [<-|[<-|[<-|[]]]]; [now left|now left|right; now left].
  - intros path f Hin Hhome Hmap.
    destruct (Hplace path f Hin) as [E|[E|(dir & Hdir & E)]]; [contradiction..|].
    rewrite E. specialize (Hdead dir Hdir).
    destruct Hdir as [-> | ->]; exact Hdead.
  - intros r Hr Hw. rewrite LinkFacts.repo_page_dir in Hw.
    change (resolve "output/repos" "index.html") with ("output/" ++ "repos/index.html") in Hw.
    destruct (in_dec string_dec ("output/" ++ "repos/index.html") (map fst log))
      as [Hin|Hout]; [|now apply LinkFacts.file_at_not_in in Hout].
    rewrite Hpaths in Hin. apply in_app_or in Hin as [Hin|[E|[]]]; [|discriminate E].
    apply in_map_iff in Hin as (rel & E & Hrel).
    apply (PathFacts.append_inv_head "output/") in E. subst rel.
    unfold page_files in Hrel. destruct Hrel as [E|[E|Hrel]]; [discriminate E..|].
    apply in_app_or in Hrel as [Hrel|Hrel]; apply in_map_iff in Hrel as (x & E & Hx).
    + discriminate E.
    + eauto.
Qed.

Lemma header_links_break_below_the_home_page_witness :
  exists log,
    main "2025-01-28" get_mock_data = (log, Ok tt)
    /\ (forall href, In href header_hrefs ->
          Run.file_at log (resolve (dirname "output/index.html") href) <> None)
    /\ (forall path f,
          In (path, f) log ->
          path <> "output/index.html" -> path <> "output/sitemap.xml" ->
          Run.file_at log (resolve (dirname path) "categories/index.html") = None)
    /\ (forall r,
          In r get_mock_data ->
          Run.file_at log (resolve (dirname ("output/" ++ repo_file r)) "index.html")
          <> None ->
          exists r', In r' get_mock_data /\ repo_file r' = "repos/index.html").
Proof.
  apply (header_links_break_below_the_home_page "2025-01-28" get_mock_data).
  vm_compute. reflexivity.
Defined.

(** ** Runs that stop on an exception *)

Lemma sitemap_is_no_page_file repos done rest :
  page_files repos = (done ++ rest)%list ->
  ~ In "output/sitemap.xml" (map (fun rel => "output/" ++ rel) done).
Proof.
  intros Hsplit Hin. apply in_map_iff in Hin as (rel & E & Hrel).
  apply (PathFacts.append_inv_head "output/") in E. subst rel.
  assert (Hp : In "sitemap.xml" (page_files repos)).
  { rewrite Hsplit. apply in_or_app. now left. }
  apply page_files_place in Hp as [E|(dir & name & [-> | ->] & E & _)];
    discriminate E.
Qed.

(** X16. What [main] has written when it returns or stops, for every
    record set.  A run that completes has written the page files of
    [page_files] in order, each under [output/], and then the sitemap,
    whose addresses are the same files under the base address.  A run that
    stops on an exception has written the page files before the first page
    that could not be built, at least one page file is missing, and
    [sitemap.xml] has not been written. *)
Theorem run_writes_page_files_in_order
    (now : string) (repos : list Repo.t)
    (log : list (string * file)) (res : result unit) :
  main now repos = (log, res) ->
  match res with
  | Ok _ =>
      exists pages urls,
        log = (pages ++ [("output/sitemap.xml", SitemapXml urls)])%list
        /\ map fst pages = map (fun rel => "output/" ++ rel) (page_files repos)
        /\ map loc urls = map (fun rel => BASE_URL ++ "/" ++ rel) (page_files repos)
  | Raise _ =>
      exists done rest,
        page_files repos = (done ++ rest)%list
        /\ rest <> []
        /\ map fst log = map (fun rel => "output/" ++ rel) done
        /\ Run.file_at log "output/sitemap.xml" = None
  end.
Proof.
  intros Hmain.
  destruct (StopFacts.main_log now repos)
    as (pages & done & rest & Hsplit & Hpaths
        & [(urls & -> & Hsm & Hrun)|(Hne & e & Hrun)]);
    rewrite Hrun in Hmain; inversion Hmain; subst log res; clear Hmain.
  - exists pages, urls. rewrite app_nil_r in Hsplit.
    split; [reflexivity|]. split; [now rewrite Hsplit|].
    exact (generate_sitemap_locs _ _ _ _ _ Hsm).
  - exists done, rest. repeat (split; [assumption|]).
    apply LinkFacts.file_at_not_in. rewrite Hpaths.
    exact (sitemap_is_no_page_file repos done rest Hsplit).
Qed.

Lemma run_writes_page_files_in_order_witness :
  exists log e,
    main "2025-01-28" nameless_last = (log, Raise e)
    /\ exists done rest,
         page_files nameless_last = (done ++ rest)%list
         /\ rest <> []
         /\ map fst log = map (fun rel => "output/" ++ rel) done
         /\ Run.file_at log "output/sitemap.xml" = None.
Proof.
  destruct (main "2025-01-28" nameless_last) as [log [u|e]] eqn:E;
    [vm_compute in E; discriminate E|].
  exists log, e. split; [reflexivity|].
  exact (run_writes_page_files_in_order "2025-01-28" nameless_last log (Raise e) E).
Defined.

Lemma missing_full_name_in_first_twenty_raises repos :
  existsb (fun r => negb (is_some (Repo.full_name r))) (firstn 20 repos) = true ->
  exists e, generate_index_page repos (language_stats repos) = Raise e.
Proof.
  intros H. apply existsb_exists in H as (r & Hr & Hn).
  assert (Hcard : index_card r = Raise (KeyError "full_name")).
  { unfold index_card. now destruct (Repo.full_name r). }
  destruct (ResFacts.mapM_raise index_card _ r _ Hr Hcard) as [e He].
  unfold generate_index_page. rewrite He.
  destruct (format_number (Z.of_nat (List.length repos))); [|cbn; eauto].
  destruct (format_number (sum (map stars repos))); [|cbn; eauto].
  destruct (format_number _); cbn; eauto.
Qed.

(** X17. When one of the first 20 records has no [full_name], the run
    stops on an exception before it has written any file. *)
Theorem missing_full_name_in_first_twenty_writes_nothing
    (now : string) (repos : list Repo.t) :
  existsb (fun r => negb (is_some (Repo.full_name r))) (firstn 20 repos) = true ->
  exists e, main now repos = ([], Raise e).
Proof.
  intros H. destruct (missing_full_name_in_first_twenty_raises repos H) as [e Hidx].
  exists e. unfold main. now rewrite Hidx.
Qed.

Lemma missing_full_name_in_first_twenty_writes_nothing_witness :
  exists e, main "2025-01-28" nameless_first = ([], Raise e).
Proof.
  apply (missing_full_name_in_first_twenty_writes_nothing "2025-01-28" nameless_first).
  vm_compute. reflexivity.
Defined.

(** X18. When the home page can be built but some record has no
    [full_name] (such a record is not among the first 20), the run writes
    [index.html] and stops on an exception later: it leaves a partial
    site. *)
Theorem missing_full_name_later_leaves_a_partial_site
    (now : string) (repos : list Repo.t) (page : index_page) :
  generate_index_page repos (language_stats repos) = Ok page ->
  existsb (fun r => negb (is_some (Repo.full_name r))) repos = true ->
  existsb (fun r => negb (is_some (Repo.full_name r))) (firstn 20 repos) = false
  /\ exists log e,
       main now repos = (("output/index.html", IndexHtml page) :: log, Raise e).
Proof.
  intros Hidx Hex. split.
  - destruct (existsb _ (firstn 20 repos)) eqn:E; [|reflexivity].
    destruct (missing_full_name_in_first_twenty_raises repos E) as [e He].
    congruence.
  - apply existsb_exists in Hex as (r & Hr & Hn).
    unfold main. rewrite Hidx, RunFacts.bind_lift_ok.
    unfold Run.write at 1. rewrite RunFacts.bind_done. cbn [app].
    match goal with
    | |- exists log e, (_ :: fst ?m, snd ?m) = _ =>
        assert (Hraise : raises m); [|destruct Hraise as [e He]; destruct m as [w res];
                                      cbn [fst snd] in *; subst res; eauto]
    end.
    apply RunFacts.raises_bind_r. intros cidx.
    apply RunFacts.raises_bind_r. intros _.
    apply RunFacts.raises_bind_r. intros _.
    apply RunFacts.raises_bind_l.
    apply (RunFacts.raises_for_each _ repos r Hr).
    destruct (Repo.full_name r); [discriminate|]. eexists. reflexivity.
Qed.

Lemma missing_full_name_later_leaves_a_partial_site_witness :
  exists page log e,
    generate_index_page nameless_last (language_stats nameless_last) = Ok page
    /\ main "2025-01-28" nameless_last
       = (("output/index.html", IndexHtml page) :: log, Raise e).
Proof.
  destruct (generate_index_page nameless_last (language_stats nameless_last))
    as [page|e] eqn:E; [|vm_compute in E; discriminate E].
  destruct (missing_full_name_later_leaves_a_partial_site
              "2025-01-28" nameless_last page E)
    as (_ & log & e & H); [vm_compute; reflexivity|].
  exists page, log, e. split; [reflexivity|exact H].
Defined.

(** ** Counts beyond the float range *)

Module OverflowFacts.

Import Float.

Lemma shr_1_m mrs : 0 <= shr_m mrs -> shr_m (shr_1 mrs) = shr_m mrs / 2.
Proof.
  destruct mrs as [m r s]. cbn [shr_m]. intros Hm.
  destruct m as [|[p|p|]|p]; cbn [shr_1 shr_m]; [reflexivity| | |reflexivity|lia].
  - apply Z.div_unique with (r := 1); lia.
  - apply Z.div_unique with (r := 0); lia.
Qed.

Lemma iter_shr_m p :
  forall mrs, 0 <= shr_m mrs ->
              0 <= shr_m (iter_pos shr_1 p mrs)
              /\ shr_m (iter_pos shr_1 p mrs) = shr_m mrs / 2 ^ Zpos p.
Proof.
  assert (Hstep : forall mrs, 0 <= shr_m mrs -> 0 <= shr_m (shr_1 mrs)).
  { intros mrs H. rewrite shr_1_m by assumption. apply Z.div_pos; lia. }
  induction p as [p IH|p IH|]; intros mrs Hm; cbn [iter_pos].
  - destruct (IH (shr_1 mrs) (Hstep mrs Hm)) as [H1 E1].
    destruct (IH _ H1) as [H2 E2]. split; [assumption|].
    rewrite E2, E1, shr_1_m by assumption.
    pose proof (Z.pow_pos_nonneg 2 (Zpos p)) as Hpow.
    rewrite !Z.div_div by lia. f_equal.
    replace (Zpos p~1) with (1 + Zpos p + Zpos p) by lia.
    rewrite !Z.pow_add_r by lia. lia.
  - destruct (IH mrs Hm) as [H1 E1].
    destruct (IH _ H1) as [H2 E2]. split; [assumption|].
    rewrite E2, E1.
    pose proof (Z.pow_pos_nonneg 2 (Zpos p)) as Hpow.
    rewrite !Z.div_div by lia. f_equal.
    replace (Zpos p~0) with (Zpos p + Zpos p) by lia.
    rewrite !Z.pow_add_r by lia. lia.
  - split; [now apply Hstep|]. now rewrite shr_1_m.
Qed.

(** A mantissa of at least [2^1024] at exponent 0 rounds to infinity. *)
Lemma binary_round_aux_overflow q l :
  2 ^ 1024 <= q -> binary_round_aux prec emax false q 0 l = S754_infinity false.
Proof.
  intros Hq.
  assert (Hq0 : 0 < q) by (pose proof (Z.pow_pos_nonneg 2 1024); lia).
  pose proof (FloatFacts.Zdigits2_bounds q Hq0) as Hb.
  assert (Hd : 1025 <= Zdigits2 q) by (apply FloatFacts.Zdigits2_ge; [lia|exact Hq]).
  set (d := Zdigits2 q) in *.
  unfold binary_round_aux, shr_fexp at 1. fold d.
  replace (fexp prec emax (d + 0) - 0) with (d - 53)
    by (unfold fexp, emin, prec, emax; lia).
  destruct (d - 53) as [|p|p] eqn:Ep; try lia.
  cbn [shr].
  destruct (iter_shr_m p (shr_record_of_loc q l)) as [Hm0 Hm].
  { rewrite FloatFacts.shr_record_of_loc_m. lia. }
  rewrite FloatFacts.shr_record_of_loc_m in Hm.
  set (mrs := iter_pos shr_1 p (shr_record_of_loc q l)) in *.
  assert (Hx : 2 ^ 52 <= shr_m mrs < 2 ^ 53).
  { rewrite Hm. rewrite <- Ep.
    assert (E1 : 2 ^ (d - 1) = 2 ^ 52 * 2 ^ (d - 53))
      by (rewrite <- Z.pow_add_r by lia; f_equal; lia).
    assert (E2 : 2 ^ d = 2 ^ 53 * 2 ^ (d - 53))
      by (rewrite <- Z.pow_add_r by lia; f_equal; lia).
    pose proof (Z.pow_pos_nonneg 2 (d - 53)) as Hpow.
    split.
    - apply Z.div_le_lower_bound; lia.
    - apply Z.div_lt_upper_bound; lia. }
  set (m1 := round_nearest_even (shr_m mrs) (loc_of_shr_record mrs)).
  assert (Hm1 : 2 ^ 52 <= m1 <= 2 ^ 53).
  { subst m1. destruct (FloatFacts.rne_cases (shr_m mrs) (loc_of_shr_record mrs))
      as [-> | ->]; lia. }
  clearbody m1. clear Hm Hx Hm0 mrs.
  assert (He : 972 <= 0 + Zpos p) by lia.
  set (e1 := 0 + Zpos p) in *. clearbody e1.
  destruct (Z.eq_dec m1 (2 ^ 53)) as [->|Hne].
  - unfold shr_fexp.
    replace (fexp prec emax (Zdigits2 (2 ^ 53) + e1) - e1) with 1
      by (unfold fexp, emin, prec, emax; change (Zdigits2 (2 ^ 53)) with 54; lia).
    cbn [shr shr_record_of_loc iter_pos].
    change (shr_m (shr_1 {| shr_m := 2 ^ 53; shr_r := false; shr_s := false |}))
      with (2 ^ 52).
    change (2 ^ 52) with (Zpos (2 ^ 52)). cbv iota beta.
    replace (e1 + 1 <=? emax - prec) with false; [reflexivity|].
    symmetry. apply Z.leb_gt. unfold emax, prec. lia.
  - assert (Hd1 : Zdigits2 m1 = 53).
    { apply Z.le_antisymm.
      - apply FloatFacts.Zdigits2_le; lia.
      - apply FloatFacts.Zdigits2_ge; lia. }
    destruct m1 as [|m|m]; try lia.
    unfold shr_fexp. rewrite Hd1.
    replace (fexp prec emax (53 + e1) - e1) with 0
      by (unfold fexp, emin, prec, emax; lia).
    cbn [shr shr_record_of_loc shr_m].
    replace (e1 <=? emax - prec) with false; [reflexivity|].
    symmetry. apply Z.leb_gt. unfold emax, prec. lia.
Qed.

Lemma int_true_divide_overflow a b :
  0 < b -> b * 2 ^ 1024 <= a -> int_true_divide a b = Raise OverflowError.
Proof.
  intros Hb Ha.
  pose proof (Z.pow_pos_nonneg 2 1024 ltac:(lia)) as Hpow.
  assert (Ha0 : 0 < a) by nia.
  unfold int_true_divide.
  replace (b =? 0) with false by (symmetry; apply Z.eqb_neq; lia).
  replace (a =? 0) with false by (symmetry; apply Z.eqb_neq; lia).
  replace (a <? 0) with false by (symmetry; apply Z.ltb_ge; lia).
  replace (b <? 0) with false by (symmetry; apply Z.ltb_ge; lia).
  rewrite (Z.abs_eq a), (Z.abs_eq b) by lia.
  pose proof (FloatFacts.Zdigits2_bounds b Hb) as Hdb.
  assert (Hd2 : 1 <= Zdigits2 b) by (destruct b; simpl; lia).
  assert (Hda : Zdigits2 b + 1024 <= Zdigits2 a).
  { apply FloatFacts.Zdigits2_ge; [lia|].
    replace (Zdigits2 b + 1024 - 1) with (Zdigits2 b - 1 + 1024) by lia.
    rewrite Z.pow_add_r by lia. nia. }
  unfold SFdiv_core_binary.
  replace (Z.min (fexp prec emax (Zdigits2 a + 0 - (Zdigits2 b + 0))) (0 - 0)) with 0
    by (unfold fexp, emin, prec, emax; lia).
  cbn [Z.sub Z.opp Z.add].
  destruct (Z.div_eucl a b) as [q r] eqn:Ed.
  assert (Hq : q = a / b) by (unfold Z.div; now rewrite Ed).
  rewrite binary_round_aux_overflow; [reflexivity|].
  rewrite Hq. apply Z.div_le_lower_bound; lia.
Qed.

End OverflowFacts.

(** X19. [format_number] does not return for every count: from
    [10^6 * 2^1024] on the quotient [num / 1000000] is beyond the float
    range and the division raises [OverflowError]. *)
Theorem format_number_overflows (num : Z) :
  1000000 * 2 ^ 1024 <= num -> format_number num = Raise OverflowError.
Proof.
  intros H. unfold format_number.
  pose proof (Z.pow_pos_nonneg 2 1024 ltac:(lia)) as Hpow.
  replace (num >=? 1000000) with true
    by (symmetry; rewrite Z.geb_leb; apply Z.leb_le; lia).
  now rewrite OverflowFacts.int_true_divide_overflow.
Qed.

Lemma format_number_overflows_witness :
  format_number (1000000 * 2 ^ 1024) = Raise OverflowError.
Proof. apply (format_number_overflows (1000000 * 2 ^ 1024)). lia. Defined.

(** ** The page count *)

Lemma nodup_length_le {A : Type} (dec : forall x y : A, {x = y} + {x <> y}) (l : list A) :
  (List.length (nodup dec l) <= List.length l)%nat.
Proof.
  induction l as [|x l IH]; simpl; [lia|].
  destruct (in_dec dec x l); simpl; lia.
Qed.

Lemma nodup_length_eq {A : Type} (dec : forall x y : A, {x = y} + {x <> y}) (l : list A) :
  List.length (nodup dec l) = List.length l <-> NoDup l.
Proof.
  induction l as [|x l IH]; simpl.
  - split; [constructor|reflexivity].
  - pose proof (nodup_length_le dec l) as Hle.
    destruct (in_dec dec x l) as [Hin|Hout]; simpl.
    + split; [lia|]. intros H. inversion H; subst. contradiction.
    + split.
      * intros H. constructor; [assumption|]. apply IH. lia.
      * intros H. inversion H; subst. f_equal. now apply IH.
Qed.

Lemma NoDup_map_prefix p l : NoDup (map (fun rel => p ++ rel) l) <-> NoDup l.
Proof.
  split.
  - apply NoDup_map_inv.
  - apply Finite.Injective_map_NoDup. intros a b. apply PathFacts.append_inv_head.
Qed.

(** X20. The page count [main] prints at the end of a completed run,
    [1 + 1 + len(languages) + len(repos)], is the number of page files it
    has written and the number of addresses in the sitemap.  The number of
    distinct files is never larger, and it is the same exactly when no two
    page files have the same name. *)
Theorem total_pages_counts_writes
    (now : string) (repos : list Repo.t) (log : list (string * file)) :
  main now repos = (log, Ok tt) ->
  exists pages urls,
    log = (pages ++ [("output/sitemap.xml", SitemapXml urls)])%list
    /\ List.length pages = total_pages repos
    /\ List.length urls = total_pages repos
    /\ (distinct_paths pages <= total_pages repos)%nat
    /\ (distinct_paths pages = total_pages repos <-> NoDup (page_files repos)).
Proof.
  intros Hmain.
  destruct (StopFacts.main_log now repos)
    as (pages & done & rest & Hsplit & Hpaths
        & [(urls & -> & Hsm & Hrun)|(Hne & e & Hrun)]);
    rewrite Hrun in Hmain; inversion Hmain; subst log; clear Hmain.
  rewrite app_nil_r in Hsplit. subst done.
  assert (Htotal : List.length (page_files repos) = total_pages repos).
  { unfold page_files, total_pages. cbn [List.length].
    rewrite length_app, !length_map. lia. }
  assert (Hlen : List.length pages = total_pages repos).
  { rewrite <- Htotal, <- (length_map fst pages), Hpaths. apply length_map. }
  exists pages, urls. split; [reflexivity|]. split; [exact Hlen|]. split.
  { apply generate_sitemap_locs in Hsm. apply (f_equal (@List.length _)) in Hsm.
    rewrite !length_map in Hsm. rewrite Hsm. exact Htotal. }
  unfold distinct_paths. rewrite <- Hlen, <- (length_map fst pages). split.
  - apply nodup_length_le.
  - rewrite nodup_length_eq, Hpaths. apply NoDup_map_prefix.
Qed.

Lemma total_pages_counts_writes_witness :
  exists log pages urls,
    main "2025-01-28" get_mock_data = (log, Ok tt)
    /\ log = (pages ++ [("output/sitemap.xml", SitemapXml urls)])%list
    /\ List.length pages = total_pages get_mock_data
    /\ List.length urls = total_pages get_mock_data
    /\ (distinct_paths pages <= total_pages get_mock_data)%nat
    /\ (distinct_paths pages = total_pages get_mock_data
        <-> NoDup (page_files get_mock_data)).
Proof.
  destruct (main "2025-01-28" get_mock_data) as [log [[]|e]] eqn:E;
    [|vm_compute in E; discriminate E].
  destruct (total_pages_counts_writes "2025-01-28" get_mock_data log E)
    as (pages & urls & H).
  exists log, pages, urls. split; [reflexivity|exact H].
Defined.

(** ** Language colours *)

Lemma dict_get_absent d k default :
  existsb (String.eqb k) (map fst d) = false -> dict_get d k default = default.
Proof.
  induction d as [|[k' v] d IH]; simpl; [reflexivity|].
  rewrite (String.eqb_sym k k'). destruct (String.eqb k' k); [discriminate|].
  exact IH.
Qed.

(** X21. [get_language_color] always returns a colour of the form
    [#rrggbb]; a language that is not, letter for letter, one of the 19
    names of its table gets the grey [#8b949e]. *)
Theorem get_language_color_is_a_hex_colour (language : string) :
  is_hex_color (get_language_color language) = true
  /\ (Dict.mem language (map fst colors) = false ->
      get_language_color language = "#8b949e").
Proof.
  split.
  - unfold get_language_color, colors, dict_get.
    repeat match goal with
           | |- context [String.eqb ?a language] =>
               destruct (String.eqb a language); [reflexivity|]
           end.
    reflexivity.
  - intros H. apply dict_get_absent. exact H.
Qed.

Lemma get_language_color_is_a_hex_colour_witness :
  is_hex_color (get_language_color "python") = true
  /\ get_language_color "python" = "#8b949e".
Proof.
  destruct (get_language_color_is_a_hex_colour "python") as [H1 H2].
  split; [exact H1|]. apply H2. reflexivity.
Defined.

(** ** The ids the Similar Repositories filter reads *)

(** X22. [generate_repo_page] reads ids only of the records whose language
    field is the display language of the page's record, and the id of the
    page's record only when there is such a record.  When all ids it reads
    are present the Similar Repositories candidates are the records of that
    language with another id, by descending stars; otherwise the filter
    raises [KeyError('id')]. *)
Theorem similar_repos_result (repo : Repo.t) (all_repos : list Repo.t) :
  similar_repos repo all_repos
  = if ids_present repo all_repos
    then Ok (sort_desc stars (filter (is_candidate repo) all_repos))
    else Raise (KeyError "id").
Proof.
  unfold similar_repos, ids_present.
  set (p := fun r : Repo.t => _ : result bool).
  assert (H : Res.filterM p all_repos
              = if forallb (fun r => negb (language_is (display_language repo) r)
                                     || (is_some (Repo.id r) && is_some (Repo.id repo)))
                           all_repos
                then Ok (filter (is_candidate repo) all_repos)
                else Raise (KeyError "id")).
  { induction all_repos as [|r l IH]; [reflexivity|].
    cbn [Res.filterM forallb filter]. rewrite IH. clear IH.
    unfold p, is_candidate, same_id.
    destruct (language_is (display_language repo) r); cbn [negb orb andb Res.bind].
    - destruct (Repo.id r) as [a|]; cbn; [|reflexivity].
      destruct (Repo.id repo) as [b|]; cbn; [|reflexivity].
      destruct (forallb _ l); cbn; [|reflexivity].
      now destruct (a =? b).
    - now destruct (forallb _ l). }
  rewrite H. now destruct (forallb _ all_repos).
Qed.
